(** * Ristretto cache (package ristretto, cache.go): a sequential model

    The cache is embedded as a state machine.  A [Cache] value is the
    contents of the Go struct together with the state of the goroutine
    it owns (whether [processItems] is live) and a log of the calls it
    made.  Public methods are functions from the receiver to an
    [outcome]; the background processor is the explicit transition
    [processItems_step], so that an interleaving of user calls and
    processor work is a sequence of transitions.

    cache.go calls into the store, the policy and the read ring, which
    live in other files of the package; they are modelled from their
    written description.  The two values taken from package [hack] are
    parameters of the development.

    A second model covers query.go of package mysqlctl: the redaction
    of passwords in queries that are logged, over Go strings as lists
    of bytes, and the use of pooled connections, over the history of
    the calls made on the pool and on a connection. *)

From stdpp Require Import gmap strings list fin_maps.
From Stdlib Require Import ZArith Lia Ascii.

Local Open Scope Z_scope.

(** ** Machine integers *)

(** uint64 arithmetic wraps modulo 2^64. *)
Definition wrap_uint64 (x : Z) : Z := x mod 2 ^ 64.

(** int64 arithmetic wraps into [-2^63, 2^63). *)
Definition wrap_int64 (x : Z) : Z := (x + 2 ^ 63) mod 2 ^ 64 - 2 ^ 63.

(** The sum of the counters [f i] for [i] in [l], before wrapping. *)
Fixpoint sumZ (f : nat → Z) (l : list nat) : Z :=
  match l with
  | [] => 0
  | i :: l => f i + sumZ f l
  end.

(** ** What the package takes from its environment *)

(** [V] is the type of the non-nil values callers store ([any] in Go).
    [CacheItemSize] is [hack.RuntimeAllocSize(sizeof(storeItem))] and
    [RuntimeStrhash] is [hack.RuntimeStrhash]; package [hack] is not
    part of the package, and the two are parameters. *)
Class Runtime := {
  V : Type;
  V_eq_dec :: EqDecision V;
  CacheItemSize : Z;
  RuntimeStrhash : string → Z → Z;
}.

(** Modelled from the spec: the TinyLFU sketch (section 4.5) and the
    sampling of eviction candidates (section 4.6), which belong to the
    policy, whose code is not in cache.go.  The row hashes of the
    sketch are not given, so it is kept abstract: [newTinyLFU] builds
    it from NumCounters, [tinyLFU_Increment] records one access,
    [tinyLFU_Estimate] is the frequency estimate and [tinyLFU_clear]
    resets it.  [sampleKeys] is the random choice of candidates from
    the ledger; its first argument counts the draws made so far, so
    successive draws are independent. *)
Class Sketch := {
  tinyLFU : Type;
  newTinyLFU : Z → tinyLFU;
  tinyLFU_Increment : tinyLFU → Z → tinyLFU;
  tinyLFU_Estimate : tinyLFU → Z → Z;
  tinyLFU_clear : tinyLFU → tinyLFU;
  sampleKeys : nat → gmap Z Z → list Z;
}.

(** A Go channel: the queued elements and whether it was closed.
    [setBuf] has capacity [setBufSize]; [stop] is unbuffered. *)
Record chan (A : Type) := mkChan {
  buf : list A;
  closed : bool;
}.
Arguments mkChan {A} _ _.
Arguments buf {A} _.
Arguments closed {A} _.

Section Model.
Context `{RT : Runtime} `{SK : Sketch}.

(** A Go [any]: [None] is the nil interface. *)
Definition any : Type := option V.

(** [var setBufSize = 32 * 1024] *)
Definition setBufSize : Z := 32 * 1024.

Definition defaultStringHash (key : string) : Z * Z :=
  let Seed1 := 0x1122334455667788 in
  let Seed2 := 0x8877665544332211 in
  (RuntimeStrhash key Seed1, RuntimeStrhash key Seed2).

Inductive itemFlag := itemNew | itemDelete | itemUpdate.

#[global] Instance itemFlag_eq_dec : EqDecision itemFlag.
Proof. solve_decision. Defined.

(** [Item] is what travels through [setBuf].  [wg] tells whether the
    [*sync.WaitGroup] is non-nil. *)
Record Item := mkItem {
  flag : itemFlag;
  Key : Z;
  Conflict : Z;
  Value : any;
  Cost : Z;
  wg : bool;
}.

#[global] Instance Item_eq_dec : EqDecision Item.
Proof. solve_decision. Defined.

Record Config := mkConfig {
  NumCounters : Z;
  MaxCost : Z;
  BufferItems : Z;
  cfg_Metrics : bool;
  (** [OnEvict], [OnReject], [OnExit]: is the callback non-nil?  What a
      callback does is user code; its invocations are logged. *)
  OnEvict : bool;
  OnReject : bool;
  OnExit : bool;
  KeyToHash : option (string → Z * Z);
  cfg_Cost : option (any → Z);
  IgnoreInternalCost : bool;
}.

(** What the cache calls out to, in the order of the calls: the user
    callbacks of [Config], [Done] on the WaitGroup of a [Wait], and
    the start ([go c.processItems()]) and stop (a receive on [stop]) of
    the processor. *)
Inductive call :=
  | CallOnEvict (i : Item)
  | CallOnReject (i : Item)
  | CallOnExit (v : V)
  | CallCost (v : any)
  | CallDone
  | ProcessorStarted
  | ProcessorStopped.

#[global] Instance call_eq_dec : EqDecision call.
Proof. solve_decision. Defined.

(** ** Metrics *)

Inductive metricType :=
  | hit | miss
  | keyAdd | keyUpdate | keyEvict
  | costAdd | costEvict
  | dropSets | rejectSets
  | dropGets | keepGets.

#[global] Instance metricType_eq_dec : EqDecision metricType.
Proof. solve_decision. Defined.

(** [all [doNotUse][]*uint64]: for each metric, 256 counters.  The
    counter [j] of metric [t] is [all t j]. *)
Record Metrics := mkMetrics { all : metricType → nat → Z }.

Definition newMetrics : Metrics := mkMetrics (fun _ _ => 0).

(** [Metrics.add] and [Metrics.get] take the receiver as a pointer
    that may be nil. *)
Definition Metrics_add (t : metricType) (hash delta : Z)
    (p : option Metrics) : option Metrics :=
  match p with
  | None => None
  | Some m =>
      let idx := Z.to_nat ((hash mod 25) * 10) in
      Some (mkMetrics (fun t' j =>
        if decide (t' = t) then
          if decide (j = idx) then wrap_uint64 (all m t j + delta)
          else all m t' j
        else all m t' j))
  end.

Definition Metrics_get (t : metricType) (p : option Metrics) : Z :=
  match p with
  | None => 0
  | Some m =>
      fold_left (fun total i => wrap_uint64 (total + all m t i))
                (seq 0 256) 0
  end.

Definition Metrics_Hits := Metrics_get hit.
Definition Metrics_Misses := Metrics_get miss.
Definition Metrics_KeysAdded := Metrics_get keyAdd.
Definition Metrics_KeysUpdated := Metrics_get keyUpdate.
Definition Metrics_KeysEvicted := Metrics_get keyEvict.
Definition Metrics_CostAdded := Metrics_get costAdd.
Definition Metrics_CostEvicted := Metrics_get costEvict.
Definition Metrics_SetsDropped := Metrics_get dropSets.
Definition Metrics_SetsRejected := Metrics_get rejectSets.
Definition Metrics_GetsDropped := Metrics_get dropGets.
Definition Metrics_GetsKept := Metrics_get keepGets.

Definition Metrics_Clear (p : option Metrics) : option Metrics :=
  match p with
  | None => None
  | Some _ => Some (mkMetrics (fun _ _ => 0))
  end.

(** ** Store *)

(** Modelled from the spec: the store (section 4.2), whose code is not
    in cache.go.  A stored item is (keyHash, conflictHash, value, cost);
    items carry no expiration, as [Item] has none.  Each keyHash is
    owned by the one shard [keyHash mod N], so the shards are modelled
    by the single finite map that is their disjoint union. *)
Record storeItem := mkStoreItem {
  sKey : Z;
  sConflict : Z;
  sValue : any;
  sCost : Z;
}.

(** Modelled from the spec: [newStore], absent from cache.go, builds
    the empty store. *)
Definition newStore : gmap Z storeItem := ∅.

(** Modelled from the spec: [get] returns the value if both hashes
    match, otherwise not found. *)
Definition store_Get (keyHash conflictHash : Z) (m : gmap Z storeItem)
    : any * bool :=
  match m !! keyHash with
  | Some it =>
      if sConflict it =? conflictHash then (sValue it, true)
      else (None, false)
  | None => (None, false)
  end.

(** Modelled from the spec: [set] unconditionally inserts, overwriting
    any existing entry for keyHash. *)
Definition store_Set (i : Item) (m : gmap Z storeItem) : gmap Z storeItem :=
  <[Key i := mkStoreItem (Key i) (Conflict i) (Value i) (Cost i)]> m.

(** Modelled from the spec: [update] replaces value and cost of an
    entry with matching conflictHash and returns the previous value;
    otherwise it leaves the store unchanged and reports false. *)
Definition store_Update (i : Item) (m : gmap Z storeItem)
    : (any * bool) * gmap Z storeItem :=
  match m !! Key i with
  | Some it =>
      if sConflict it =? Conflict i then
        ((sValue it, true),
         <[Key i := mkStoreItem (Key i) (Conflict i) (Value i) (Cost i)]> m)
      else ((None, false), m)
  | None => ((None, false), m)
  end.

(** Modelled from the spec: [delete] removes only if conflictHash
    matches and returns the stored conflictHash and value; a
    conflictHash of 0 is allowed and matches whatever owns the slot
    (section 4.8). *)
Definition store_Del (keyHash conflictHash : Z) (m : gmap Z storeItem)
    : (Z * any) * gmap Z storeItem :=
  match m !! keyHash with
  | Some it =>
      if (conflictHash =? 0) || (conflictHash =? sConflict it) then
        ((sConflict it, sValue it), delete keyHash m)
      else ((0, None), m)
  | None => ((0, None), m)
  end.

(** Modelled from the spec: [clear] drains the store; the result lists
    the items handed to [on_evict], one per entry removed. *)
Definition store_Clear (m : gmap Z storeItem) : list Item * gmap Z storeItem :=
  (map (fun kv => mkItem itemNew (sKey kv.2) (sConflict kv.2)
                         (sValue kv.2) (sCost kv.2) false)
       (map_to_list m), ∅).

(** Modelled from the spec: [len] is the sum of the shard sizes. *)
Definition store_Len (m : gmap Z storeItem) : nat := size m.

(** Modelled from the spec: [for_each] stops at the first value for
    which the callback returns false. *)
Fixpoint yield_until (fn : any → bool) (l : list any) : list any :=
  match l with
  | [] => []
  | v :: rest => if fn v then v :: yield_until fn rest else [v]
  end.

(** Modelled from the spec: [for_each] yields values until the
    callback returns false; the result is the list of values the
    callback saw. *)
Definition store_ForEach (fn : any → bool) (m : gmap Z storeItem) : list any :=
  yield_until fn (map (fun kv => sValue kv.2) (map_to_list m)).

(** ** Policy *)

(** Modelled from the spec: the policy (sections 4.6 and 4.7), whose
    code is not in cache.go: the sketch, the ledger keyHash → cost, the
    running sum [used] and the budget [maxCost].  [draws] counts the
    samples drawn. *)
Record defaultPolicy := mkPolicy {
  sketch : tinyLFU;
  keyCosts : gmap Z Z;
  used : Z;
  maxCost : Z;
  draws : nat;
}.

(** Modelled from the spec: [newPolicy], absent from cache.go, builds
    a policy with an empty ledger and the given budget. *)
Definition newPolicy (numCounters maxCost : Z) : defaultPolicy :=
  mkPolicy (newTinyLFU numCounters) ∅ 0 maxCost 0.

(** Modelled from the spec: the sampling size K, a constant, commonly
    5. *)
Definition lfuSample : nat := 5.

(** Modelled from the spec: K candidates sampled from the ledger, each
    with its cost. *)
Definition fillSample (p : defaultPolicy) : list (Z * Z) :=
  take lfuSample
    (omap (fun k => match keyCosts p !! k with
                    | Some c => Some (k, c)
                    | None => None
                    end)
          (sampleKeys (draws p) (keyCosts p))).

(** Modelled from the spec: lowest frequency first; ties broken by
    lowest cost, then by hash order. *)
Definition victimBefore (sk : tinyLFU) (a b : Z * Z) : bool :=
  let fa := tinyLFU_Estimate sk a.1 in
  let fb := tinyLFU_Estimate sk b.1 in
  (fa <? fb)
  || ((fa =? fb) && ((a.2 <? b.2) || ((a.2 =? b.2) && (a.1 <=? b.1)))).

(** Modelled from the spec: the candidate that comes first in that
    order. *)
Fixpoint minVictim (sk : tinyLFU) (l : list (Z * Z)) : option (Z * Z) :=
  match l with
  | [] => None
  | a :: rest =>
      match minVictim sk rest with
      | None => Some a
      | Some b => if victimBefore sk a b then Some a else Some b
      end
  end.

(** Modelled from the spec: steps 2 and 3 of an admission request.
    While [used + cost > maxCost], a victim is sampled; it is evicted
    if the incoming key is at least as frequent, otherwise the incoming
    key is rejected.  With nothing left to sample no room can be made
    and the request is rejected.  Every round removes a ledger entry,
    so [size keyCosts] rounds are enough; [n] bounds the rounds. *)
Fixpoint makeRoom (n : nat) (key cost : Z) (p : defaultPolicy)
    (mt : option Metrics) (victims : list Item)
    : (list Item * bool) * defaultPolicy * option Metrics :=
  if used p + cost >? maxCost p then
    match minVictim (sketch p) (fillSample p) with
    | None => ((victims, false), p, mt)
    | Some (vkey, vcost) =>
        if tinyLFU_Estimate (sketch p) key >=? tinyLFU_Estimate (sketch p) vkey
        then
          match n with
          | O => ((victims, false), p, mt)
          | S n' =>
              makeRoom n' key cost
                (mkPolicy (sketch p) (delete vkey (keyCosts p))
                          (used p - vcost) (maxCost p) (S (draws p)))
                (Metrics_add keyEvict vkey 1
                   (Metrics_add costEvict vkey (wrap_uint64 vcost) mt))
                (victims ++ [mkItem itemNew vkey 0 None vcost false])
          end
        else ((victims, false), p, mt)
    end
  else ((victims, true), p, mt).

(** Modelled from the spec: an admission request of cost C (section
    4.6, steps 1 to 4).  An admitted Set also updates the sketch
    (section 4.5). *)
Definition policy_Add (key cost : Z) (p : defaultPolicy) (mt : option Metrics)
    : (list Item * bool) * defaultPolicy * option Metrics :=
  if cost >? maxCost p then (([], false), p, mt)
  else
    match makeRoom (size (keyCosts p)) key cost p mt [] with
    | ((victims, true), p1, mt1) =>
        ((victims, true),
         mkPolicy (tinyLFU_Increment (sketch p1) key)
                  (<[key := cost]> (keyCosts p1))
                  (used p1 + cost) (maxCost p1) (draws p1),
         mt1)
    | r => r
    end.

(** Modelled from the spec: [update] adjusts [used] by the difference
    if the key is present; no eviction is performed. *)
Definition policy_Update (key cost : Z) (p : defaultPolicy) : defaultPolicy :=
  match keyCosts p !! key with
  | Some old =>
      mkPolicy (sketch p) (<[key := cost]> (keyCosts p))
               (used p + (cost - old)) (maxCost p) (draws p)
  | None => p
  end.

(** Modelled from the spec: [delete] removes the key and subtracts its
    cost. *)
Definition policy_Del (key : Z) (p : defaultPolicy) : defaultPolicy :=
  match keyCosts p !! key with
  | Some old =>
      mkPolicy (sketch p) (delete key (keyCosts p))
               (used p - old) (maxCost p) (draws p)
  | None => p
  end.

(** Modelled from the spec: [updateMaxCost] sets [maxCost] without
    forcing eviction. *)
Definition policy_UpdateMaxCost (n : Z) (p : defaultPolicy) : defaultPolicy :=
  mkPolicy (sketch p) (keyCosts p) (used p) n (draws p).

(** Modelled from the spec: [push] feeds a batch of read keyHashes to
    the sketch, one increment per key. *)
Definition policy_Push (keys : list Z) (p : defaultPolicy) : defaultPolicy :=
  mkPolicy (fold_left tinyLFU_Increment keys (sketch p))
           (keyCosts p) (used p) (maxCost p) (draws p).

(** Modelled from the spec: [clear] empties the ledger and the sketch;
    the budget stays. *)
Definition policy_Clear (p : defaultPolicy) : defaultPolicy :=
  mkPolicy (tinyLFU_clear (sketch p)) ∅ 0 (maxCost p) (draws p).

(** Modelled from the spec: [close] is listed without an effect on the
    ledger; it releases the policy's own resources only. *)
Definition policy_Close (p : defaultPolicy) : defaultPolicy := p.

(** The ledger holds no negative cost. *)
Definition ledgerNonneg (p : defaultPolicy) : Prop :=
  ∀ k v, keyCosts p !! k = Some v → 0 ≤ v.

(** Modelled from the spec: [used] and [maxCost] read the ledger. *)
Definition policy_Used (p : defaultPolicy) : Z := used p.

(** Modelled from the spec: see [policy_Used]. *)
Definition policy_MaxCost (p : defaultPolicy) : Z := maxCost p.

(** ** Read ring *)

(** Modelled from the spec: the read ring (section 4.3), whose code is
    not in cache.go: keyHashes pile up until the ring holds
    [BufferItems] of them, then go to the policy as one batch and the
    ring is reset.  A single submitter is modelled, so no push is
    dropped. *)
Record ringBuffer := mkRing {
  ring_data : list Z;
  ring_capa : Z;
}.

(** Modelled from the spec: [newRingBuffer], absent from cache.go,
    builds an empty ring of capacity [BufferItems]. *)
Definition newRingBuffer (capa : Z) : ringBuffer := mkRing [] capa.

(** Modelled from the spec: a push is kept (gets-kept goes up); a full
    ring is handed to the policy as one batch and reset. *)
Definition ringBuffer_Push (keyHash : Z) (r : ringBuffer) (p : defaultPolicy)
    (mt : option Metrics) : ringBuffer * defaultPolicy * option Metrics :=
  let data := ring_data r ++ [keyHash] in
  let mt := Metrics_add keepGets keyHash 1 mt in
  if Z.of_nat (length data) >=? ring_capa r then
    (mkRing [] (ring_capa r), policy_Push data p, mt)
  else (mkRing data (ring_capa r), p, mt).

(** ** Cache *)

(** The fields of the Go struct, then the two components of the state
    that live outside it: [processing] holds while a [processItems]
    goroutine is running, and [calls] logs the calls made so far.
    [config] is what the closures [onExit], [onEvict] and [onReject]
    built by [NewCache] capture. *)
Record Cache := mkCache {
  store : gmap Z storeItem;
  policy : defaultPolicy;
  getBuf : ringBuffer;
  setBuf : chan Item;
  config : Config;
  keyToHash : string → Z * Z;
  stop : chan unit;
  isClosed : bool;
  cost : option (any → Z);
  ignoreInternalCost : bool;
  c_Metrics : option Metrics;
  processing : bool;
  calls : list call;
}.

Definition with_store (x : gmap Z storeItem) (c : Cache) : Cache :=
  mkCache x (policy c) (getBuf c) (setBuf c) (config c) (keyToHash c)
          (stop c) (isClosed c) (cost c) (ignoreInternalCost c)
          (c_Metrics c) (processing c) (calls c).

Definition with_policy (x : defaultPolicy) (c : Cache) : Cache :=
  mkCache (store c) x (getBuf c) (setBuf c) (config c) (keyToHash c)
          (stop c) (isClosed c) (cost c) (ignoreInternalCost c)
          (c_Metrics c) (processing c) (calls c).

Definition with_getBuf (x : ringBuffer) (c : Cache) : Cache :=
  mkCache (store c) (policy c) x (setBuf c) (config c) (keyToHash c)
          (stop c) (isClosed c) (cost c) (ignoreInternalCost c)
          (c_Metrics c) (processing c) (calls c).

Definition with_setBuf (x : chan Item) (c : Cache) : Cache :=
  mkCache (store c) (policy c) (getBuf c) x (config c) (keyToHash c)
          (stop c) (isClosed c) (cost c) (ignoreInternalCost c)
          (c_Metrics c) (processing c) (calls c).

Definition with_stop (x : chan unit) (c : Cache) : Cache :=
  mkCache (store c) (policy c) (getBuf c) (setBuf c) (config c) (keyToHash c)
          x (isClosed c) (cost c) (ignoreInternalCost c)
          (c_Metrics c) (processing c) (calls c).

Definition with_isClosed (x : bool) (c : Cache) : Cache :=
  mkCache (store c) (policy c) (getBuf c) (setBuf c) (config c) (keyToHash c)
          (stop c) x (cost c) (ignoreInternalCost c)
          (c_Metrics c) (processing c) (calls c).

Definition with_Metrics (x : option Metrics) (c : Cache) : Cache :=
  mkCache (store c) (policy c) (getBuf c) (setBuf c) (config c) (keyToHash c)
          (stop c) (isClosed c) (cost c) (ignoreInternalCost c)
          x (processing c) (calls c).

Definition with_processing (x : bool) (c : Cache) : Cache :=
  mkCache (store c) (policy c) (getBuf c) (setBuf c) (config c) (keyToHash c)
          (stop c) (isClosed c) (cost c) (ignoreInternalCost c)
          (c_Metrics c) x (calls c).

Definition logCall (x : call) (c : Cache) : Cache :=
  mkCache (store c) (policy c) (getBuf c) (setBuf c) (config c) (keyToHash c)
          (stop c) (isClosed c) (cost c) (ignoreInternalCost c)
          (c_Metrics c) (processing c) (calls c ++ [x]).

Definition logCalls (xs : list call) (c : Cache) : Cache :=
  mkCache (store c) (policy c) (getBuf c) (setBuf c) (config c) (keyToHash c)
          (stop c) (isClosed c) (cost c) (ignoreInternalCost c)
          (c_Metrics c) (processing c) (calls c ++ xs).

(** A method returns a value and leaves the receiver in a new state
    ([None] for the nil receiver), or panics, or blocks forever. *)
Inductive outcome (A : Type) :=
  | Ret (a : A) (c : option Cache)
  | Panic
  | Deadlock.
Arguments Ret {A} _ _.
Arguments Panic {A}.
Arguments Deadlock {A}.

Definition bind {A B : Type} (m : option Cache → outcome A)
    (k : A → option Cache → outcome B) (c : option Cache) : outcome B :=
  match m c with
  | Ret a c' => k a c'
  | Panic => Panic
  | Deadlock => Deadlock
  end.

(** The value a call returned, and the receiver after it. *)
Definition returned {A : Type} (o : outcome A) : option A :=
  match o with
  | Ret a _ => Some a
  | _ => None
  end.

Definition after {A : Type} (o : outcome A) : option Cache :=
  match o with
  | Ret _ c => c
  | _ => None
  end.

(** [cache.onExit], [cache.onEvict] and [cache.onReject] as [NewCache]
    builds them. *)
Definition Cache_onExit (val : any) (c : Cache) : Cache :=
  match OnExit (config c), val with
  | true, Some v => logCall (CallOnExit v) c
  | _, _ => c
  end.

Definition Cache_onEvict (item : Item) (c : Cache) : Cache :=
  Cache_onExit (Value item)
    (if OnEvict (config c) then logCall (CallOnEvict item) c else c).

Definition Cache_onReject (item : Item) (c : Cache) : Cache :=
  Cache_onExit (Value item)
    (if OnReject (config c) then logCall (CallOnReject item) c else c).

(** The calls each of them makes. *)
Definition onExitCalls (cfg : Config) (val : any) : list call :=
  match OnExit cfg, val with
  | true, Some v => [CallOnExit v]
  | _, _ => []
  end.

Definition onEvictCalls (cfg : Config) (item : Item) : list call :=
  (if OnEvict cfg then [CallOnEvict item] else [])
  ++ onExitCalls cfg (Value item).

Definition onRejectCalls (cfg : Config) (item : Item) : list call :=
  (if OnReject cfg then [CallOnReject item] else [])
  ++ onExitCalls cfg (Value item).

(** [collectMetrics]: the cache and the policy share the one [Metrics]
    object, which the model keeps in the cache and hands to the policy
    at each call. *)
Definition collectMetrics (c : Cache) : Cache :=
  with_Metrics (Some newMetrics) c.

(** [NewCache] returns the cache (or nil) and the error (or nil). *)
Definition NewCache (config : Config) : option Cache * option string :=
  if NumCounters config =? 0 then (None, Some "NumCounters can't be zero"%string)
  else if MaxCost config =? 0 then (None, Some "Capacity can't be zero"%string)
  else if BufferItems config =? 0 then (None, Some "BufferItems can't be zero"%string)
  else
    let policy := newPolicy (NumCounters config) (MaxCost config) in
    let cache :=
      mkCache newStore policy (newRingBuffer (BufferItems config))
              (mkChan [] false) config
              (match KeyToHash config with
               | Some f => f
               | None => defaultStringHash
               end)
              (mkChan [] false) false (cfg_Cost config)
              (IgnoreInternalCost config) None
              false [] in
    let cache := if cfg_Metrics config then collectMetrics cache else cache in
    (* go cache.processItems() *)
    (Some (logCall ProcessorStarted (with_processing true cache)), None).

(** *** The processor *)

Definition set_Cost (x : Z) (i : Item) : Item :=
  mkItem (flag i) (Key i) (Conflict i) (Value i) x (wg i).

Definition set_flag (x : itemFlag) (i : Item) : Item :=
  mkItem x (Key i) (Conflict i) (Value i) (Cost i) (wg i).

(** One victim of the loop [for _, victim := range victims]. *)
Definition evictVictim (c : Cache) (victim : Item) : Cache :=
  match store_Del (Key victim) 0 (store c) with
  | ((conflict, value), st) =>
      Cache_onEvict
        (mkItem (flag victim) (Key victim) conflict value (Cost victim)
                (wg victim))
        (with_store st c)
  end.

(** The cost the processor charges for an item: computed from the
    value when the item comes with cost 0 and a cost function is set,
    then raised by [CacheItemSize] unless internal cost is ignored. *)
Definition itemCost (i : Item) (c : Cache) : Item * Cache :=
  let '(i, c) :=
    match cost c with
    | Some costfn =>
        if (Cost i =? 0) && negb (bool_decide (flag i = itemDelete))
        then (set_Cost (costfn (Value i)) i, logCall (CallCost (Value i)) c)
        else (i, c)
    | None => (i, c)
    end in
  if negb (ignoreInternalCost c)
  then (set_Cost (wrap_int64 (Cost i + CacheItemSize)) i, c)
  else (i, c).

(** The body of the loop of [processItems] for one item [i] received
    from [setBuf].  The map [startTs] is written but never read, and is
    left out. *)
Definition processItem (i : Item) (c : Cache) : Cache :=
  if wg i then logCall CallDone c
  else
    let '(i, c) := itemCost i c in
    match flag i with
    | itemNew =>
        match policy_Add (Key i) (Cost i) (policy c) (c_Metrics c) with
        | ((victims, added), p, mt) =>
            let c := with_Metrics mt (with_policy p c) in
            let c :=
              if added
              then with_Metrics (Metrics_add keyAdd (Key i) 1 (c_Metrics c))
                     (with_store (store_Set i (store c)) c)
              else Cache_onReject i c in
            fold_left evictVictim victims c
        end
    | itemUpdate =>
        with_policy (policy_Update (Key i) (Cost i) (policy c)) c
    | itemDelete =>
        let c := with_policy (policy_Del (Key i) (policy c)) c in
        match store_Del (Key i) (Conflict i) (store c) with
        | ((_, val), st) => Cache_onExit val (with_store st c)
        end
    end.

(** The processor handles the items [l] in order. *)
Definition handle (l : list Item) (c : Cache) : Cache :=
  fold_left (fun c i => processItem i c) l c.

(** The processor takes the oldest item of [setBuf], if it is running
    and there is one. *)
Definition processItems_step (c : Cache) : option Cache :=
  if processing c then
    match buf (setBuf c) with
    | i :: rest =>
        Some (processItem i (with_setBuf (mkChan rest (closed (setBuf c))) c))
    | [] => None
    end
  else None.

(** The processor works through everything queued in [setBuf]. *)
Definition processAll (c : Cache) : Cache :=
  handle (buf (setBuf c)) (with_setBuf (mkChan [] (closed (setBuf c))) c).

(** An open cache as [NewCache] makes it and every method but [Close]
    leaves it: not closed, its processor running, its channels open. *)
Definition running (c : Cache) : bool :=
  negb (isClosed c) && processing c
  && negb (closed (setBuf c)) && negb (closed (stop c)).

(** [used] is within the budget and the ledger holds no negative
    cost. *)
Definition withinBudget (c : Cache) : Prop :=
  used (policy c) ≤ maxCost (policy c) ∧ ledgerNonneg (policy c).

(** What user calls set and the processor leaves alone: [c'] has the
    channels, flags, configuration and read ring of [c]. *)
Definition sameFrame (c c' : Cache) : Prop :=
  setBuf c' = setBuf c ∧ isClosed c' = isClosed c
  ∧ processing c' = processing c ∧ stop c' = stop c
  ∧ config c' = config c ∧ keyToHash c' = keyToHash c
  ∧ cost c' = cost c ∧ ignoreInternalCost c' = ignoreInternalCost c
  ∧ getBuf c' = getBuf c.

(** *** Sending to [setBuf] *)

(** [setBuf] holds [setBufSize] items and no more. *)
Definition setBuf_full (c : Cache) : bool :=
  setBufSize <=? Z.of_nat (length (buf (setBuf c))).

Definition enqueue (i : Item) (c : Cache) : Cache :=
  with_setBuf (mkChan (buf (setBuf c) ++ [i]) (closed (setBuf c))) c.

(** Dereferencing the receiver; nil panics. *)
Definition deref {A : Type} (k : Cache → outcome A) (c : option Cache)
    : outcome A :=
  match c with
  | Some s => k s
  | None => Panic
  end.

(** The blocking send [c.setBuf <- i].  On a full buffer the sender
    waits for the processor to take the oldest item; without a running
    processor it waits forever.  Sending on a closed channel panics. *)
Definition send (i : Item) (c : Cache) : outcome unit :=
  if closed (setBuf c) then Panic
  else if setBuf_full c then
    match processItems_step c with
    | Some c' => Ret tt (Some (enqueue i c'))
    | None => Deadlock
    end
  else Ret tt (Some (enqueue i c)).

(** The handshake [c.stop <- struct{}{}]: the processor receives it and
    returns. *)
Definition stopProcessor (c : Cache) : outcome unit :=
  if closed (stop c) then Panic
  else if processing c
  then Ret tt (Some (logCall ProcessorStopped (with_processing false c)))
  else Deadlock.

(** *** Public methods *)

(** The item [&Item{wg: wg}] that [Wait] sends. *)
Definition syncItem : Item := mkItem itemNew 0 0 None 0 true.

Definition Cache_Wait (c : option Cache) : outcome unit :=
  match c with
  | None => Ret tt None
  | Some s =>
      if isClosed s then Ret tt c
      else
        bind (fun _ => send syncItem s)
             (fun _ => deref (fun s =>
                (* wg.Wait() returns once the processor has called Done *)
                if processing s then Ret tt (Some (processAll s))
                else Deadlock))
             c
  end.

Definition Cache_Get (key : string) (c : option Cache) : outcome (any * bool) :=
  match c with
  | None => Ret (None, false) None
  | Some s =>
      if isClosed s then Ret (None, false) c
      else
        let '(keyHash, conflictHash) := keyToHash s key in
        match ringBuffer_Push keyHash (getBuf s) (policy s) (c_Metrics s) with
        | (r, p, mt) =>
            let s := with_Metrics mt (with_policy p (with_getBuf r s)) in
            let '(value, ok) := store_Get keyHash conflictHash (store s) in
            let s :=
              if ok then with_Metrics (Metrics_add hit keyHash 1 (c_Metrics s)) s
              else with_Metrics (Metrics_add miss keyHash 1 (c_Metrics s)) s in
            Ret (value, ok) (Some s)
        end
  end.

Definition Cache_SetWithCost (key : string) (value : any) (cost : Z)
    (c : option Cache) : outcome bool :=
  match c with
  | None => Ret false None
  | Some s =>
      if isClosed s then Ret false c
      else
        let '(keyHash, conflictHash) := keyToHash s key in
        let i := mkItem itemNew keyHash conflictHash value cost false in
        match store_Update i (store s) with
        | ((prev, ok), st) =>
            let '(i, s) :=
              if ok then (set_flag itemUpdate i,
                          Cache_onExit prev (with_store st s))
              else (i, s) in
            if closed (setBuf s) then Panic
            else if negb (setBuf_full s) then Ret true (Some (enqueue i s))
            else if bool_decide (flag i = itemUpdate) then Ret true (Some s)
            else
              Ret false
                  (Some (with_Metrics
                           (Metrics_add dropSets keyHash 1 (c_Metrics s)) s))
        end
  end.

Definition Cache_Set (key : string) (value : any) (c : option Cache)
    : outcome bool :=
  Cache_SetWithCost key value 0 c.

(** The item [SetWithCost] builds for [key]. *)
Definition setItem (s : Cache) (key : string) (value : any) (cost : Z) : Item :=
  mkItem itemNew (keyToHash s key).1 (keyToHash s key).2 value cost false.

(** [SetWithCost key value cost] on [s] puts in the cache an item that
    is still there after a [Wait].  Either the call updates an entry
    in place and that entry is still found once the processor has
    handled what was queued ahead of the update; or the item is new,
    is sent, and when the processor reaches it the policy adds it
    without listing its own key among the victims. *)
Definition keepsItem (s : Cache) (key : string) (value : any) (cost : Z) : bool :=
  let i := setItem s key value cost in
  match store_Update i (store s) with
  | ((prev, true), st) =>
      let c := handle (buf (setBuf s)) (Cache_onExit prev (with_store st s)) in
      bool_decide (store_Get (Key i) (Conflict i) (store c) = (value, true))
  | ((_, false), _) =>
      negb (setBuf_full s)
      && (let c := handle (buf (setBuf s)) s in
          let i' := (itemCost i c).1 in
          let c' := (itemCost i c).2 in
          match policy_Add (Key i') (Cost i') (policy c') (c_Metrics c') with
          | ((victims, added), _, _) =>
              added && forallb (fun v => negb (Key v =? Key i)) victims
          end)
  end.

(** The item [Delete] sends for a key hashed to [(keyHash, conflictHash)]. *)
Definition deleteItem (keyHash conflictHash : Z) : Item :=
  mkItem itemDelete keyHash conflictHash None 0 false.

Definition Cache_Delete (key : string) (c : option Cache) : outcome unit :=
  match c with
  | None => Ret tt None
  | Some s =>
      if isClosed s then Ret tt c
      else
        let '(keyHash, conflictHash) := keyToHash s key in
        match store_Del keyHash conflictHash (store s) with
        | ((_, prev), st) =>
            send (deleteItem keyHash conflictHash)
                 (Cache_onExit prev (with_store st s))
        end
  end.

(** One round of the loop of [Clear] that empties [setBuf]. *)
Definition clearItem (c : Cache) (i : Item) : Cache :=
  if wg i then logCall CallDone c
  else if bool_decide (flag i ≠ itemUpdate) then Cache_onEvict i c
  else c.

(** The calls that round makes. *)
Definition clearCalls (cfg : Config) (i : Item) : list call :=
  if wg i then [CallDone]
  else if bool_decide (flag i ≠ itemUpdate) then onEvictCalls cfg i
  else [].

Definition Cache_Clear (c : option Cache) : outcome unit :=
  match c with
  | None => Ret tt None
  | Some s =>
      if isClosed s then Ret tt c
      else
        bind (fun _ => stopProcessor s)
             (fun _ => deref (fun s =>
                (* a receive on a closed, empty channel yields nil *)
                if closed (setBuf s) then Panic
                else
                  let s := fold_left clearItem (buf (setBuf s))
                             (with_setBuf (mkChan [] false) s) in
                  let s := with_policy (policy_Clear (policy s)) s in
                  let s :=
                    match store_Clear (store s) with
                    | (items, st) =>
                        fold_left (fun c i => Cache_onEvict i c) items
                                  (with_store st s)
                    end in
                  let s := with_Metrics (Metrics_Clear (c_Metrics s)) s in
                  (* go c.processItems() *)
                  Ret tt (Some (logCall ProcessorStarted
                                  (with_processing true s)))))
             c
  end.

Definition Cache_Close (c : option Cache) : outcome unit :=
  match c with
  | None => Ret tt None
  | Some s =>
      let wasClosed := isClosed s in
      let s := with_isClosed true s in
      if wasClosed then Ret tt (Some s)
      else
        bind Cache_Clear
             (fun _ => deref (fun s =>
                bind (fun _ => stopProcessor s)
                     (fun _ => deref (fun s =>
                        if closed (stop s) || closed (setBuf s) then Panic
                        else
                          let s := with_stop (mkChan (buf (stop s)) true) s in
                          let s := with_setBuf
                                     (mkChan (buf (setBuf s)) true) s in
                          let s := with_policy (policy_Close (policy s)) s in
                          Ret tt (Some (with_isClosed true s))))
                     (Some s)))
             (Some s)
  end.

Definition Cache_Len (c : option Cache) : outcome nat :=
  match c with
  | None => Ret 0%nat None
  | Some s => Ret (store_Len (store s)) c
  end.

Definition Cache_UsedCapacity (c : option Cache) : outcome Z :=
  match c with
  | None => Ret 0 None
  | Some s => Ret (policy_Used (policy s)) c
  end.

Definition Cache_MaxCapacity (c : option Cache) : outcome Z :=
  match c with
  | None => Ret 0 None
  | Some s => Ret (policy_MaxCost (policy s)) c
  end.

Definition Cache_SetCapacity (maxCost : Z) (c : option Cache) : outcome unit :=
  match c with
  | None => Ret tt None
  | Some s => Ret tt (Some (with_policy (policy_UpdateMaxCost maxCost (policy s)) s))
  end.

Definition Cache_Evictions (c : option Cache) : outcome Z :=
  match c with
  | None => Ret 0 None
  | Some s =>
      match c_Metrics s with
      | None => Ret 0 c
      | Some _ => Ret (wrap_int64 (Metrics_KeysEvicted (c_Metrics s))) c
      end
  end.

Definition Cache_Hits (c : option Cache) : outcome Z :=
  match c with
  | None => Ret 0 None
  | Some s =>
      match c_Metrics s with
      | None => Ret 0 c
      | Some _ => Ret (wrap_int64 (Metrics_Hits (c_Metrics s))) c
      end
  end.

Definition Cache_Misses (c : option Cache) : outcome Z :=
  match c with
  | None => Ret 0 None
  | Some s =>
      match c_Metrics s with
      | None => Ret 0 c
      | Some _ => Ret (wrap_int64 (Metrics_Misses (c_Metrics s))) c
      end
  end.

(** [ForEach] returns nothing; the result lists the values handed to
    the callback. *)
Definition Cache_ForEach (forEach : any → bool) (c : option Cache)
    : outcome (list any) :=
  match c with
  | None => Ret [] None
  | Some s => Ret (store_ForEach forEach (store s)) c
  end.

(** ** Names of the metrics *)

(** [metricType] is an int whose constants are numbered by iota;
    [doNotUse] closes the list. *)
Definition metricType_int (t : metricType) : Z :=
  match t with
  | hit => 0 | miss => 1
  | keyAdd => 2 | keyUpdate => 3 | keyEvict => 4
  | costAdd => 5 | costEvict => 6
  | dropSets => 7 | rejectSets => 8
  | dropGets => 9 | keepGets => 10
  end.

Definition doNotUse : Z := 11.

Definition stringFor (t : Z) : string :=
  if t =? metricType_int hit then "hit"
  else if t =? metricType_int miss then "miss"
  else if t =? metricType_int keyAdd then "keys-added"
  else if t =? metricType_int keyUpdate then "keys-updated"
  else if t =? metricType_int keyEvict then "keys-evicted"
  else if t =? metricType_int costAdd then "cost-added"
  else if t =? metricType_int costEvict then "cost-evicted"
  else if t =? metricType_int dropSets then "sets-dropped"
  else if t =? metricType_int rejectSets then "sets-rejected"
  else if t =? metricType_int dropGets then "gets-dropped"
  else if t =? metricType_int keepGets then "gets-kept"
  else "unidentified".

(** ** Sequences of calls *)

(** The calls that change a cache, and a turn of the processor, which
    takes the oldest queued item if it is running and there is one.
    The accessors leave the cache as it is and are not listed. *)
Inductive op :=
  | OpGet (key : string)
  | OpSet (key : string) (value : any)
  | OpSetWithCost (key : string) (value : any) (cost : Z)
  | OpDelete (key : string)
  | OpWait
  | OpClear
  | OpClose
  | OpSetCapacity (maxCost : Z)
  | OpProcess.

Definition processorTurn (c : option Cache) : outcome unit :=
  match c with
  | None => Ret tt None
  | Some s =>
      match processItems_step s with
      | Some s' => Ret tt (Some s')
      | None => Ret tt c
      end
  end.

(** A call whose result is dropped. *)
Definition discard {A : Type} (m : option Cache → outcome A)
    : option Cache → outcome unit :=
  bind m (fun _ c => Ret tt c).

Definition perform (o : op) : option Cache → outcome unit :=
  match o with
  | OpGet key => discard (Cache_Get key)
  | OpSet key value => discard (Cache_Set key value)
  | OpSetWithCost key value cost => discard (Cache_SetWithCost key value cost)
  | OpDelete key => Cache_Delete key
  | OpWait => Cache_Wait
  | OpClear => Cache_Clear
  | OpClose => Cache_Close
  | OpSetCapacity maxCost => Cache_SetCapacity maxCost
  | OpProcess => processorTurn
  end.

Fixpoint run (l : list op) (c : option Cache) : outcome unit :=
  match l with
  | [] => Ret tt c
  | o :: l' => bind (perform o) (fun _ => run l') c
  end.

(** A closed cache: marked closed, its processor gone. *)
Definition shut (c : Cache) : bool := isClosed c && negb (processing c).

(** Does a sequence hold a [Close], a [Clear]? *)
Definition closes (l : list op) : bool :=
  existsb (fun o => match o with OpClose => true | _ => false end) l.

Definition clears (l : list op) : bool :=
  existsb (fun o => match o with OpClear => true | _ => false end) l.

(** [setBuf] holds no more than its capacity. *)
Definition bufBounded (c : Cache) : Prop :=
  Z.of_nat (length (buf (setBuf c))) ≤ setBufSize.

(** From [p] to [p'] metrics stay nil or non-nil, and the hits and
    misses read the same. *)
Definition keepsHitMiss (p p' : option Metrics) : Prop :=
  (p' = None ↔ p = None)
  ∧ Metrics_get hit p' = Metrics_get hit p
  ∧ Metrics_get miss p' = Metrics_get miss p.

(** The [Get] calls of a sequence that are counted: all of them with
    metrics enabled, none without. *)
Definition counted (p : option Metrics) (n : Z) : Z :=
  match p with
  | Some _ => n
  | None => 0
  end.

(** What one call keeps of the counters: hits and misses, apart from a
    [Get], which adds one to their sum, and a [Clear], which resets
    them. *)
Definition countsAs (o : op) (p p' : option Metrics) : Prop :=
  match o with
  | OpClear => True
  | OpGet _ =>
      wrap_uint64 (Metrics_get hit p' + Metrics_get miss p')
      = wrap_uint64 (Metrics_get hit p + Metrics_get miss p
                     + counted p 1)
  | _ =>
      Metrics_get hit p' = Metrics_get hit p
      ∧ Metrics_get miss p' = Metrics_get miss p
  end.

(** The values the cost function was called on, in the order of the
    calls. *)
Fixpoint costCalls (l : list call) : list any :=
  match l with
  | [] => []
  | CallCost v :: l' => v :: costCalls l'
  | _ :: l' => costCalls l'
  end.

(** The items whose cost the processor has to compute: those that came
    with cost 0, sync items and deletes apart. *)
Definition needsCost (i : Item) : bool :=
  negb (wg i) && (Cost i =? 0) && negb (bool_decide (flag i = itemDelete)).

Fixpoint costed (l : list Item) : list any :=
  match l with
  | [] => []
  | i :: l' => if needsCost i then Value i :: costed l' else costed l'
  end.

(** The number of [Get] calls in a sequence. *)
Fixpoint countGets (l : list op) : Z :=
  match l with
  | [] => 0
  | OpGet _ :: l' => 1 + countGets l'
  | _ :: l' => countGets l'
  end.

End Model.

Arguments Ret {RT SK A} _ _.
Arguments Panic {RT SK A}.
Arguments Deadlock {RT SK A}.

(** Sequencing of calls on the same receiver. *)
Notation "m >>= k" := (bind m k) (at level 60, right associativity).
Notation "m >> k" := (bind m (fun _ => k)) (at level 60, right associativity).

(** ** A reference runtime

    One runtime the package can run in, used to evaluate the model on
    concrete calls: values are strings, a stored item costs 32 bytes,
    the sketch is wide enough that no two keys share a counter (a
    4-bit counter per key, saturating at 15), and a sample is drawn
    from the ledger in key order. *)

Definition refStrhash (key : string) (seed : Z) : Z :=
  wrap_uint64
    (fold_left (fun h ch => h * 31 + Z.of_nat (Ascii.nat_of_ascii ch))
               (String.list_ascii_of_string key) seed).

#[export] Instance refRuntime : Runtime := {|
  V := string;
  CacheItemSize := 32;
  RuntimeStrhash := refStrhash;
|}.

#[export] Instance refSketch : Sketch := {|
  tinyLFU := gmap Z Z;
  newTinyLFU := fun _ => ∅;
  tinyLFU_Increment := fun sk k => <[k := Z.min 15 (default 0 (sk !! k) + 1)]> sk;
  tinyLFU_Estimate := fun sk k => default 0 (sk !! k);
  tinyLFU_clear := fun _ => ∅;
  sampleKeys := fun _ m => map fst (map_to_list m);
|}.

Definition lenCost (v : @any refRuntime) : Z :=
  match v with
  | Some s => Z.of_nat (String.length s)
  | None => 0
  end.

(** A configuration with 100 counters, metrics and all three
    callbacks, and the cache [NewCache] builds from it. *)
Definition refConfig (maxCost bufferItems : Z) (costfn : option (any → Z))
    (ignoreInternalCost : bool) : Config :=
  mkConfig 100 maxCost bufferItems true true true true None costfn
           ignoreInternalCost.

Definition refCache (maxCost bufferItems : Z) (costfn : option (any → Z))
    (ignoreInternalCost : bool) : Cache :=
  mkCache newStore (newPolicy 100 maxCost) (newRingBuffer bufferItems)
          (mkChan [] false)
          (refConfig maxCost bufferItems costfn ignoreInternalCost)
          defaultStringHash (mkChan [] false) false costfn ignoreInternalCost
          (Some newMetrics) true [ProcessorStarted].

(** MaxCost 10, BufferItems 64, no cost function, internal cost
    ignored. *)
Definition cache10 : Cache := refCache 10 64 None true.

(** [cache10] after "a" was set at cost 1 and the processor caught up. *)
Definition cache10a : Cache :=
  handle [setItem cache10 "a" (Some "v1"%string) 1] cache10.

(** [cache10a] with a [Set] of "b" still queued. *)
Definition cache10ab : Cache :=
  enqueue (setItem cache10a "b" (Some "v2"%string) 1) cache10a.

(** [cache10] with a set buffer holding [setBufSize] items. *)
Definition cache10full : Cache :=
  with_setBuf
    (mkChan (repeat (setItem cache10 "a" (Some "v1"%string) 1)
                    (Z.to_nat setBufSize)) false)
    cache10.

(** Three keys at cost 1 each, then the capacity is lowered to 1. *)
Definition lowerCapacity : option Cache → outcome unit :=
  Cache_SetWithCost "a" (Some "v1"%string) 1
  >> Cache_SetWithCost "b" (Some "v2"%string) 1
  >> Cache_SetWithCost "c" (Some "v3"%string) 1
  >> Cache_Wait
  >> Cache_SetCapacity 1.

(** Four keys at cost 1 each, then each is set again at cost 5. *)
Definition raiseCosts : option Cache → outcome unit :=
  Cache_SetWithCost "a" (Some "v1"%string) 1
  >> Cache_SetWithCost "b" (Some "v2"%string) 1
  >> Cache_SetWithCost "c" (Some "v3"%string) 1
  >> Cache_SetWithCost "d" (Some "v4"%string) 1
  >> Cache_Wait
  >> Cache_SetWithCost "a" (Some "w1"%string) 5
  >> Cache_SetWithCost "b" (Some "w2"%string) 5
  >> Cache_SetWithCost "c" (Some "w3"%string) 5
  >> Cache_SetWithCost "d" (Some "w4"%string) 5
  >> Cache_Wait.

(** MaxCost 1, BufferItems 1: "k" is stored; "j" is read twice, then
    set; "k" is set again, in place, while the set of "j" is still
    queued; then [Wait]. *)
Definition cache1 : Cache := refCache 1 1 None true.

Definition updateBehindAdmission : option Cache → outcome bool :=
  Cache_SetWithCost "k" (Some "old"%string) 1
  >> Cache_Wait
  >> Cache_Get "j" >> Cache_Get "j"
  >> Cache_SetWithCost "j" (Some "other"%string) 1
  >> Cache_SetWithCost "k" (Some "new"%string) 1
  >>= (fun r => Cache_Wait >> (fun c => Ret r c)).

(** [cache1] once "k" is stored and "j" was read twice. *)
Definition cache1k : Cache :=
  handle [setItem cache1 "k" (Some "old"%string) 1] cache1.

Definition cache1kj : Cache :=
  with_policy
    (policy_Push [(keyToHash cache1 "j").1; (keyToHash cache1 "j").1]
                 (policy cache1k))
    cache1k.

(** "a" is stored at cost 1, then the cache is closed, or cleared. *)
Definition setThenClose : option Cache → outcome unit :=
  Cache_SetWithCost "a" (Some "v1"%string) 1 >> Cache_Wait >> Cache_Close.

Definition setThenClear : option Cache → outcome unit :=
  Cache_SetWithCost "a" (Some "v1"%string) 1 >> Cache_Wait >> Cache_Clear.

(** [Set] of "a" to "xxx" with cost 0, then [Wait]. *)
Definition setXXX : option Cache → outcome unit :=
  Cache_Set "a" (Some "xxx"%string) >> Cache_Wait.

(** Sequences of calls. *)
Definition callsThenClose : list op :=
  [OpSet "a" (Some "v1"%string); OpGet "a"; OpWait; OpClose; OpGet "a";
   OpProcess].

Definition setDeleteWait : list op :=
  [OpSet "b" (Some "v2"%string); OpDelete "a"; OpWait].

Definition setClearGet : list op :=
  [OpSet "a" (Some "v1"%string); OpClear; OpGet "a"].

Definition setWaitGetGet : list op :=
  [OpSet "a" (Some "v1"%string); OpWait; OpGet "a"; OpGet "b"].

Definition callsAfterClose : list op :=
  [OpWait; OpGet "b"; OpProcess; OpClear].


(** * Super queries (package mysqlctl, query.go) *)

(** A Go string is a sequence of bytes. *)
Definition gostring : Type := list ascii.

Definition go_len (s : gostring) : Z := Z.of_nat (length s).

(** The slices [s[lo:]] and [s[:hi]]; an index out of range panics
    ([None]). *)
Definition slice_from (s : gostring) (lo : Z) : option gostring :=
  if (0 <=? lo) && (lo <=? go_len s) then Some (drop (Z.to_nat lo) s)
  else None.

Definition slice_to (s : gostring) (hi : Z) : option gostring :=
  if (0 <=? hi) && (hi <=? go_len s) then Some (take (Z.to_nat hi) s)
  else None.

(** [strings.HasPrefix], [strings.Index] and [strings.Repeat] of the
    Go library. [strings_Index s substr] is the index of the first
    instance of [substr] in [s], or -1. *)
Fixpoint strings_HasPrefix (s prefix : gostring) {struct prefix} : bool :=
  match prefix, s with
  | [], _ => true
  | a :: prefix', b :: s' =>
      bool_decide (a = b) && strings_HasPrefix s' prefix'
  | _ :: _, [] => false
  end.

Fixpoint strings_Index (s substr : gostring) : Z :=
  if strings_HasPrefix s substr then 0
  else
    match s with
    | [] => -1
    | _ :: s' =>
        let r := strings_Index s' substr in
        if r =? -1 then -1 else r + 1
    end.

Fixpoint strings_Repeat (s : gostring) (count : nat) : gostring :=
  match count with
  | O => []
  | S n => s ++ strings_Repeat s n
  end.

Definition limitString (s : gostring) (limit : Z) : option gostring :=
  if go_len s >? limit then slice_to s limit else Some s.

Definition masterPasswordStart : gostring :=
  String.list_ascii_of_string "  MASTER_PASSWORD = '".
Definition masterPasswordEnd : gostring :=
  String.list_ascii_of_string "'," ++ ["010"%char].
Definition passwordStart : gostring := String.list_ascii_of_string " PASSWORD = '".
Definition passwordEnd : gostring := String.list_ascii_of_string "'".

(** The replacement [input[:lo] + strings.Repeat("*", 4) + input[hi:]]. *)
Definition redactBetween (input : gostring) (lo hi : Z) : option gostring :=
  match slice_to input lo, slice_from input hi with
  | Some a, Some b =>
      Some (a ++ strings_Repeat (String.list_ascii_of_string "*") 4 ++ b)
  | _, _ => None
  end.

(** The second half of [redactPassword], from the comment "We also
    check if we have any password keyword in the query". *)
Definition redactPlainPassword (input : gostring) : option gostring :=
  let i := strings_Index input passwordStart in
  if i =? -1 then Some input
  else
    match slice_from input (i + go_len passwordStart) with
    | None => None
    | Some rest =>
        let j := strings_Index rest passwordEnd in
        if j =? -1 then Some input
        else redactBetween input (i + go_len passwordStart)
                           (i + go_len passwordStart + j)
    end.

Definition redactPassword (input : gostring) : option gostring :=
  let i := strings_Index input masterPasswordStart in
  if negb (i =? -1) then
    match slice_from input (i + go_len masterPasswordStart) with
    | None => None
    | Some rest =>
        let j := strings_Index rest masterPasswordEnd in
        if j =? -1 then Some input
        else
          match redactBetween input (i + go_len masterPasswordStart)
                              (i + go_len masterPasswordStart + j) with
          | None => None
          | Some input => redactPlainPassword input
          end
    end
  else redactPlainPassword input.

(** ** Connections *)

(** What query.go takes from the packages dbconnpool, sqlerror and
    fmt: connections, the errors of the pool and of MySQL with their
    message and, for a [*sqlerror.SQLError], their number, the two
    client error numbers, and the text of the column-count message. *)
Class Mysql := {
  Conn : Type;
  Failure : Type;
  Failure_Error : Failure → gostring;
  Failure_Number : Failure → option Z;
  CRServerGone : Z;
  CRServerLost : Z;
  columnsMessage : gostring → nat → gostring;
}.

(** [*sqltypes.Result]: the fields, and the rows with each value as
    [ToString] gives it. *)
Record Result := mkResult {
  Fields : list gostring;
  Rows : list (list gostring);
}.

Section Connections.
Context `{MY : Mysql}.

(** An [error] is one the pool or MySQL gave, or one made by
    [fmt.Errorf]. *)
Inductive error :=
  | Failed (e : Failure)
  | Errorf (message : gostring).

(** The calls made on the pool and on a connection, and the lines
    logged, in order. *)
Inductive event :=
  | EvGet
  | EvExecuteFetch (c : Conn) (query : gostring) (maxrows : Z) (wantfields : bool)
  | EvReconnect (c : Conn)
  | EvRecycle (c : Conn)
  | EvFetchContext (c : Conn) (query : gostring) (maxrows : Z)
                   (wantfields : bool)
  | EvInfof (line : gostring)
  | EvErrorf (line : gostring).

(** How the pool and the server answer, given all that happened so
    far. [executeFetchContext], which runs the query in a goroutine
    and watches the context, is taken as one call. *)
Record World := mkWorld {
  pool_Get : list event → Conn + Failure;
  conn_ExecuteFetch :
    list event → Conn → gostring → Z → bool → Result + Failure;
  conn_Reconnect : list event → Conn → option Failure;
  executeFetchContext :
    list event → Conn → gostring → Z → bool → Result + Failure;
}.

Variable world : World.

(** A computation reads the history, extends it, and returns a value,
    or panics ([None]). *)
Definition M (A : Type) : Type := list event → option (A * list event).

#[local] Instance M_ret : MRet M := λ A a w, Some (a, w).
#[local] Instance M_bind : MBind M := λ A B f m w,
  match m w with
  | Some (a, w') => f a w'
  | None => None
  end.

Definition emit (e : event) : M unit := λ w, Some (tt, w ++ [e]).

Definition lift {A : Type} (o : option A) : M A := λ w,
  match o with
  | Some a => Some (a, w)
  | None => None
  end.

Definition call_Get : M (Conn + Failure) := λ w,
  Some (pool_Get world w, w ++ [EvGet]).

Definition call_ExecuteFetch (c : Conn) (query : gostring) (maxrows : Z)
    (wantfields : bool) : M (Result + Failure) := λ w,
  Some (conn_ExecuteFetch world w c query maxrows wantfields,
        w ++ [EvExecuteFetch c query maxrows wantfields]).

Definition call_Reconnect (c : Conn) : M (option Failure) := λ w,
  Some (conn_Reconnect world w c, w ++ [EvReconnect c]).

Definition call_FetchContext (c : Conn) (query : gostring) (maxrows : Z)
    (wantfields : bool) : M (Result + Failure) := λ w,
  Some (executeFetchContext world w c query maxrows wantfields,
        w ++ [EvFetchContext c query maxrows wantfields]).

(** The test of line 41: a [*sqlerror.SQLError] numbered
    [CRServerGone] or [CRServerLost]. *)
Definition connectionLost (err : Failure) : bool :=
  match Failure_Number err with
  | Some n => (n =? CRServerGone) || (n =? CRServerLost)
  | None => false
  end.

Definition getPoolReconnect : M (option Conn * option error) :=
  r ← call_Get;
  match r with
  | inr err => mret (None, Some (Failed err))
  | inl conn =>
      t ← call_ExecuteFetch conn (String.list_ascii_of_string "SELECT 1") 1 false;
      match t with
      | inr err =>
          if connectionLost err then
            r ← call_Reconnect conn;
            match r with
            | Some err => emit (EvRecycle conn);; mret (None, Some (Failed err))
            | None => mret (Some conn, None)
            end
          else emit (EvRecycle conn);; mret (None, Some (Failed err))
      | inl _ => mret (Some conn, None)
      end
  end.

(** The message of the error [executeSuperQueryListConn] returns for
    a query and the error of MySQL. *)
Definition failureMessage (redacted redactedErr : gostring) : gostring :=
  String.list_ascii_of_string "ExecuteFetch(" ++ redacted
  ++ String.list_ascii_of_string ") failed: " ++ redactedErr.

Definition LogQueryLengthLimit : Z := 200.

Fixpoint executeSuperQueryListConn (conn : Conn) (queryList : list gostring)
    : M (option error) :=
  match queryList with
  | [] => mret None
  | query :: rest =>
      redacted ← lift (redactPassword query);
      line ← lift (limitString redacted LogQueryLengthLimit);
      emit (EvInfof (String.list_ascii_of_string "exec " ++ line));;
      r ← call_FetchContext conn query 10000 false;
      match r with
      | inr err =>
          redactedErr ← lift (redactPassword (Failure_Error err));
          let message := failureMessage redacted redactedErr in
          emit (EvErrorf message);;
          mret (Some (Errorf message))
      | inl _ => executeSuperQueryListConn conn rest
      end
  end.

(** [defer conn.Recycle()] runs when the function returns. *)
Definition ExecuteSuperQueryList (queryList : list gostring) : M (option error) :=
  r ← getPoolReconnect;
  match r with
  | (_, Some err) => mret (Some err)
  | (None, None) => lift None
  | (Some conn, None) =>
      err ← executeSuperQueryListConn conn queryList;
      emit (EvRecycle conn);;
      mret err
  end.

Definition ExecuteSuperQuery (query : gostring) : M (option error) :=
  ExecuteSuperQueryList [query].

Definition FetchSuperQuery (query : gostring)
    : M (option Result * option error) :=
  r ← getPoolReconnect;
  match r with
  | (_, Some connErr) => mret (None, Some connErr)
  | (None, None) => lift None
  | (Some conn, None) =>
      r ← call_FetchContext conn query 10000 true;
      emit (EvRecycle conn);;
      match r with
      | inr err => mret (None, Some (Failed err))
      | inl qr => mret (Some qr, None)
      end
  end.

(** The loop [for _, row := range qr.Rows] of [fetchVariables] and
    [fetchStatuses]; indexing a row that is too short panics. *)
Fixpoint rowsToMap (rows : list (list gostring)) (varMap : gmap gostring gostring)
    : option (gmap gostring gostring) :=
  match rows with
  | [] => Some varMap
  | row :: rest =>
      match row !! 0%nat, row !! 1%nat with
      | Some name, Some value => rowsToMap rest (<[name := value]> varMap)
      | _, _ => None
      end
  end.

Definition fetchLike (query : gostring)
    : M (option (gmap gostring gostring) * option error) :=
  r ← FetchSuperQuery query;
  match r with
  | (_, Some err) => mret (None, Some err)
  | (None, None) => lift None
  | (Some qr, None) =>
      if bool_decide (length (Fields qr) ≠ 2%nat) then
        mret (None,
              Some (Errorf (columnsMessage query (length (Fields qr)))))
      else
        varMap ← lift (rowsToMap (Rows qr) ∅);
        mret (Some varMap, None)
  end.

Definition fetchVariables (pattern : gostring)
    : M (option (gmap gostring gostring) * option error) :=
  fetchLike (String.list_ascii_of_string "SHOW VARIABLES LIKE '" ++ pattern
             ++ String.list_ascii_of_string "'").

Definition fetchStatuses (pattern : gostring)
    : M (option (gmap gostring gostring) * option error) :=
  fetchLike (String.list_ascii_of_string "SHOW STATUS LIKE '" ++ pattern
             ++ String.list_ascii_of_string "'").

(** What a stretch of history holds: the connections recycled, the
    queries run through [executeFetchContext], the lines logged at
    level info. *)
Definition recycled (evs : list event) : list Conn :=
  omap (λ e, match e with EvRecycle c => Some c | _ => None end) evs.

Definition fetched (evs : list event) : list (gostring * Z * bool) :=
  omap (λ e, match e with
             | EvFetchContext _ q maxrows wantfields =>
                 Some (q, maxrows, wantfields)
             | _ => None
             end) evs.

Definition infos (evs : list event) : list gostring :=
  omap (λ e, match e with EvInfof line => Some line | _ => None end) evs.

(** The value of the last row named [name]. *)
Definition lastValue (name : gostring) (rows : list (list gostring))
    : option gostring :=
  fold_left (λ acc row,
               if bool_decide (row !! 0%nat = Some name) then row !! 1%nat
               else acc)
            rows None.

End Connections.

(** ** A reference world *)

(** Connections are numbered; an error is its MySQL number, 0 for an
    error that is no [*sqlerror.SQLError]. *)
#[global] Instance refMysql : Mysql := {|
  Conn := nat;
  Failure := Z;
  Failure_Error := λ _, String.list_ascii_of_string "failed";
  Failure_Number := λ n, if n =? 0 then None else Some n;
  CRServerGone := 2006;
  CRServerLost := 2013;
  columnsMessage := λ _ _, String.list_ascii_of_string "wrong number of columns";
|}.

Definition portRows : Result :=
  mkResult
    [String.list_ascii_of_string "Variable_name";
     String.list_ascii_of_string "Value"]
    [[String.list_ascii_of_string "port"; String.list_ascii_of_string "3306"];
     [String.list_ascii_of_string "port"; String.list_ascii_of_string "3307"]].

(** The pool gives connection 7, which passes the test query; every
    query returns [portRows]. *)
Definition refWorld : World :=
  mkWorld (λ _, inl 7%nat)
          (λ _ _ _ _ _, inl (mkResult [] []))
          (λ _ _, None)
          (λ _ _ _ _ _, inl portRows).

(** The history of one [FetchSuperQuery] of [query] in [refWorld]. *)
Definition fetchHistory (query : gostring) : list event :=
  [EvGet;
   EvExecuteFetch 7%nat (String.list_ascii_of_string "SELECT 1") 1 false;
   EvFetchContext 7%nat query 10000 true;
   EvRecycle 7%nat].


(** * Properties *)

Section Facts.
Context `{RT : Runtime} `{SK : Sketch}.

(** ** Nil receivers *)

(** C10: every public method is total on a nil receiver: [Get], [Set],
    [SetWithCost], [Delete], [Close], [Clear], [Wait], [Len],
    [UsedCapacity], [MaxCapacity], [SetCapacity], [ForEach], [Hits],
    [Misses] and [Evictions] called on nil return the zero value of
    their result (nil, false, 0, nothing), neither panicking nor
    blocking, and leave the receiver nil. *)
Theorem nil_receiver_total (key : string) (value : any) (cost maxCost : Z)
    (forEach : any → bool) :
  Cache_Get key None = Ret (None, false) None
  ∧ Cache_Set key value None = Ret false None
  ∧ Cache_SetWithCost key value cost None = Ret false None
  ∧ Cache_Delete key None = Ret tt None
  ∧ Cache_Close None = Ret tt None
  ∧ Cache_Clear None = Ret tt None
  ∧ Cache_Wait None = Ret tt None
  ∧ Cache_Len None = Ret 0%nat None
  ∧ Cache_UsedCapacity None = Ret 0 None
  ∧ Cache_MaxCapacity None = Ret 0 None
  ∧ Cache_SetCapacity maxCost None = Ret tt None
  ∧ Cache_ForEach forEach None = Ret [] None
  ∧ Cache_Hits None = Ret 0 None
  ∧ Cache_Misses None = Ret 0 None
  ∧ Cache_Evictions None = Ret 0 None.
Proof. repeat split. Qed.

(** ** Construction *)

(** C5: [NewCache] returns an error and no cache exactly when one of
    NumCounters, MaxCost, BufferItems is zero; otherwise it returns no
    error and a usable cache: open, its processor running, empty, with
    the configured capacity, and accepting a [Set]. *)
Theorem NewCache_error_iff_zero (config : Config) (key : string) (value : any) :
  match NewCache config with
  | (None, Some _) =>
      NumCounters config = 0 ∨ MaxCost config = 0 ∨ BufferItems config = 0
  | (Some c, None) =>
      (NumCounters config ≠ 0 ∧ MaxCost config ≠ 0 ∧ BufferItems config ≠ 0)
      ∧ running c = true
      ∧ store c = ∅ ∧ buf (setBuf c) = []
      ∧ Cache_Len (Some c) = Ret 0%nat (Some c)
      ∧ Cache_UsedCapacity (Some c) = Ret 0 (Some c)
      ∧ Cache_MaxCapacity (Some c) = Ret (MaxCost config) (Some c)
      ∧ returned (Cache_Set key value (Some c)) = Some true
  | _ => False
  end.
Proof.
  unfold NewCache.
  destruct (NumCounters config =? 0) eqn:E1; [left; lia|].
  destruct (MaxCost config =? 0) eqn:E2; [right; left; lia|].
  destruct (BufferItems config =? 0) eqn:E3; [right; right; lia|].
  split; [lia|].
  destruct (cfg_Metrics config); cbn;
    (repeat split; try reflexivity);
    unfold Cache_Set, Cache_SetWithCost; cbn;
    destruct (match KeyToHash config with Some f => f | None => defaultStringHash end key);
    reflexivity.
Qed.

(** ** Closed caches *)

Lemma running_inv (s : Cache) :
  running s = true →
  isClosed s = false ∧ processing s = true
  ∧ closed (setBuf s) = false ∧ closed (stop s) = false.
Proof.
  unfold running. destruct (isClosed s), (processing s),
    (closed (setBuf s)), (closed (stop s)); cbn; intros; auto; discriminate.
Qed.

Lemma with_isClosed_id (s : Cache) :
  isClosed s = true → with_isClosed true s = s.
Proof. destruct s; cbn. intros ->. reflexivity. Qed.

(** On a closed cache the guarded methods return at once. *)
Lemma closed_guarded_noop (s : Cache) (key : string) (value : any) (cost : Z) :
  isClosed s = true →
  Cache_Close (Some s) = Ret tt (Some s)
  ∧ Cache_Get key (Some s) = Ret (None, false) (Some s)
  ∧ Cache_Set key value (Some s) = Ret false (Some s)
  ∧ Cache_SetWithCost key value cost (Some s) = Ret false (Some s)
  ∧ Cache_Delete key (Some s) = Ret tt (Some s)
  ∧ Cache_Clear (Some s) = Ret tt (Some s)
  ∧ Cache_Wait (Some s) = Ret tt (Some s).
Proof.
  intros H.
  unfold Cache_Close, Cache_Get, Cache_Set, Cache_SetWithCost, Cache_Delete,
    Cache_Clear, Cache_Wait.
  rewrite H, (with_isClosed_id s H). repeat split.
Qed.

(** C4 (as the code has it): [Close] on an open cache returns and
    leaves it closed; from then on a second [Close] changes nothing,
    [Get] returns (nil, false), [Set] and [SetWithCost] return false,
    and [Delete], [Clear] and [Wait] return without effect.  The
    accessors, which do not test the closed flag, are not covered. *)
Theorem Close_then_guarded_noop (s : Cache) (key : string) (value : any)
    (cost : Z) :
  running s = true →
  ∃ s', Cache_Close (Some s) = Ret tt (Some s')
    ∧ isClosed s' = true
    ∧ Cache_Close (Some s') = Ret tt (Some s')
    ∧ Cache_Get key (Some s') = Ret (None, false) (Some s')
    ∧ Cache_Set key value (Some s') = Ret false (Some s')
    ∧ Cache_SetWithCost key value cost (Some s') = Ret false (Some s')
    ∧ Cache_Delete key (Some s') = Ret tt (Some s')
    ∧ Cache_Clear (Some s') = Ret tt (Some s')
    ∧ Cache_Wait (Some s') = Ret tt (Some s').
Proof.
  intros H. destruct (running_inv s H) as (Hc & Hp & Hb & Hs).
  unfold Cache_Close. rewrite Hc.
  unfold bind at 1. unfold Cache_Clear. cbn.
  unfold bind, stopProcessor. cbn. rewrite Hs, Hp. cbn. rewrite Hs, Hb. cbn.
  eexists. split; [reflexivity|]. split; [reflexivity|].
  apply closed_guarded_noop. reflexivity.
Qed.

(** ** Metrics *)

Lemma fold_wrap_sum (f : nat → Z) (l : list nat) (a : Z) :
  fold_left (fun total i => wrap_uint64 (total + f i)) l (wrap_uint64 a)
  = wrap_uint64 (a + sumZ f l).
Proof.
  revert a. induction l as [|x l IH]; intros a; cbn.
  - f_equal. lia.
  - replace (wrap_uint64 (wrap_uint64 a + f x)) with (wrap_uint64 (a + f x))
      by (unfold wrap_uint64; now rewrite Zplus_mod_idemp_l).
    rewrite IH. f_equal. lia.
Qed.

Lemma Metrics_get_sum (t : metricType) (m : Metrics) :
  Metrics_get t (Some m) = wrap_uint64 (sumZ (all m t) (seq 0 256)).
Proof.
  unfold Metrics_get.
  change 0 with (wrap_uint64 0) at 1. rewrite fold_wrap_sum. reflexivity.
Qed.

Lemma sumZ_update (f g : nat → Z) (idx : nat) (len start : nat) :
  (∀ j, j ≠ idx → g j = f j) →
  sumZ g (seq start len)
  = sumZ f (seq start len)
    + (if bool_decide (start ≤ idx < start + len)%nat
       then g idx - f idx else 0).
Proof.
  intros Hg. revert start. induction len as [|len IH]; intros start; cbn.
  - rewrite bool_decide_eq_false_2 by lia. lia.
  - rewrite IH. destruct (decide (start = idx)) as [->|Hne].
    + rewrite bool_decide_eq_false_2 by lia.
      rewrite bool_decide_eq_true_2 by lia. lia.
    + rewrite (Hg start Hne).
      destruct (decide (S start ≤ idx < S start + len)%nat).
      * rewrite !bool_decide_eq_true_2 by lia. lia.
      * rewrite !bool_decide_eq_false_2 by lia. lia.
Qed.

(** [add t hash 1] raises the reading of metric [t] by one (modulo
    2^64) and leaves the other metrics alone. *)
Lemma Metrics_get_add (t : metricType) (hash delta : Z) (m : Metrics) :
  Metrics_get t (Metrics_add t hash delta (Some m))
  = wrap_uint64 (Metrics_get t (Some m) + delta).
Proof.
  unfold Metrics_add. rewrite !Metrics_get_sum. cbn [all].
  set (idx := Z.to_nat (hash mod 25 * 10)).
  rewrite (sumZ_update (all m t) _ idx 256 0).
  2:{ intros j Hj. rewrite decide_True by reflexivity.
      rewrite decide_False by exact Hj. reflexivity. }
  assert (Hidx : (0 ≤ idx < 0 + 256)%nat).
  { subst idx. pose proof (Z.mod_pos_bound hash 25 ltac:(lia)). lia. }
  rewrite bool_decide_eq_true_2 by exact Hidx.
  rewrite !decide_True by reflexivity.
  unfold wrap_uint64.
  rewrite (Z.mod_eq (all m t idx + delta)) by lia.
  rewrite Zplus_mod_idemp_l.
  replace (sumZ (all m t) (seq 0 256)
           + (all m t idx + delta
              - 2 ^ 64 * ((all m t idx + delta) `div` 2 ^ 64) - all m t idx))
    with (sumZ (all m t) (seq 0 256) + delta
          + (- ((all m t idx + delta) `div` 2 ^ 64)) * 2 ^ 64) by lia.
  apply Z_mod_plus_full.
Qed.

(** ** Set *)

Lemma Cache_onExit_fields (v : any) (c : Cache) :
  store (Cache_onExit v c) = store c
  ∧ policy (Cache_onExit v c) = policy c
  ∧ setBuf (Cache_onExit v c) = setBuf c
  ∧ c_Metrics (Cache_onExit v c) = c_Metrics c
  ∧ isClosed (Cache_onExit v c) = isClosed c
  ∧ processing (Cache_onExit v c) = processing c
  ∧ stop (Cache_onExit v c) = stop c
  ∧ config (Cache_onExit v c) = config c
  ∧ keyToHash (Cache_onExit v c) = keyToHash c
  ∧ cost (Cache_onExit v c) = cost c
  ∧ ignoreInternalCost (Cache_onExit v c) = ignoreInternalCost c
  ∧ getBuf (Cache_onExit v c) = getBuf c.
Proof.
  unfold Cache_onExit. destruct (OnExit (config c)), v; repeat split.
Qed.

(** [store.Update] succeeds exactly on an entry with the same keyHash
    and conflictHash. *)
Lemma store_Update_ok (i : Item) (m : gmap Z storeItem) :
  (store_Update i m).1.2
  = match m !! Key i with
    | Some it => sConflict it =? Conflict i
    | None => false
    end.
Proof.
  unfold store_Update. destruct (m !! Key i) as [it|]; [|reflexivity].
  destruct (sConflict it =? Conflict i); reflexivity.
Qed.

(** C3: [SetWithCost] on an open cache returns true when the send to
    the set buffer succeeds (the item is then queued last); on a full
    buffer it returns false and sets-dropped goes up by one, unless
    the call updated in place an entry already in the store (same
    keyHash and conflictHash), in which case it returns true and
    sets-dropped stays.  (With metrics disabled there are no counters
    and sets-dropped reads 0.) *)
Theorem SetWithCost_result (s : Cache) (key : string) (value : any) (cost : Z) :
  running s = true →
  let i := setItem s key value cost in
  let updated :=
    match store s !! Key i with
    | Some it => sConflict it =? Conflict i
    | None => false
    end in
  ∃ s',
    Cache_SetWithCost key value cost (Some s)
    = Ret (negb (setBuf_full s) || updated) (Some s')
    ∧ buf (setBuf s')
      = (if setBuf_full s then buf (setBuf s)
         else buf (setBuf s) ++ [if updated then set_flag itemUpdate i else i])
    ∧ Metrics_SetsDropped (c_Metrics s')
      = (if setBuf_full s && negb updated
         then match c_Metrics s with
              | Some _ => wrap_uint64 (Metrics_SetsDropped (c_Metrics s) + 1)
              | None => 0
              end
         else Metrics_SetsDropped (c_Metrics s)).
Proof.
  intros H i updated.
  assert (Hup : (store_Update i (store s)).1.2 = updated)
    by apply store_Update_ok.
  clearbody updated.
  destruct (running_inv s H) as (Hc & Hp & Hb & Hs).
  unfold Cache_SetWithCost. rewrite Hc. subst i. unfold setItem in *.
  destruct (keyToHash s key) as [keyHash conflictHash]. cbn [fst snd] in *.
  set (i := mkItem itemNew keyHash conflictHash value cost false) in *.
  destruct (store_Update i (store s)) as [[prev ok] st]. cbn [fst snd] in Hup.
  subst updated. destruct ok.
  - destruct (Cache_onExit_fields prev (with_store st s))
      as (_ & _ & HsB & HM & _).
    unfold setBuf_full at 1 2. rewrite HsB. cbn [with_store setBuf].
    rewrite Hb. fold (setBuf_full s).
    destruct (setBuf_full s) eqn:Hfull; cbn.
    + eexists. split; [reflexivity|]. rewrite HsB, HM. split; reflexivity.
    + eexists. split; [reflexivity|]. cbn. rewrite HsB, HM. split; reflexivity.
  - rewrite Hb. destruct (setBuf_full s) eqn:Hfull; cbn.
    + eexists. split; [reflexivity|]. cbn. split; [reflexivity|].
      unfold Metrics_SetsDropped. destruct (c_Metrics s) as [m|].
      * apply Metrics_get_add.
      * reflexivity.
    + eexists. split; [reflexivity|]. cbn. split; reflexivity.
Qed.

(** ** The processor does not touch the set buffer *)

Lemma Cache_onExit_with_setBuf (b : chan Item) (v : any) (c : Cache) :
  Cache_onExit v (with_setBuf b c) = with_setBuf b (Cache_onExit v c).
Proof. unfold Cache_onExit. cbn. destruct (OnExit (config c)), v; reflexivity. Qed.

Lemma Cache_onEvict_with_setBuf (b : chan Item) (i : Item) (c : Cache) :
  Cache_onEvict i (with_setBuf b c) = with_setBuf b (Cache_onEvict i c).
Proof.
  unfold Cache_onEvict. cbn.
  destruct (OnEvict (config c)); rewrite <- Cache_onExit_with_setBuf; reflexivity.
Qed.

Lemma Cache_onReject_with_setBuf (b : chan Item) (i : Item) (c : Cache) :
  Cache_onReject i (with_setBuf b c) = with_setBuf b (Cache_onReject i c).
Proof.
  unfold Cache_onReject. cbn.
  destruct (OnReject (config c)); rewrite <- Cache_onExit_with_setBuf; reflexivity.
Qed.

Lemma evictVictim_with_setBuf (b : chan Item) (v : Item) (c : Cache) :
  evictVictim (with_setBuf b c) v = with_setBuf b (evictVictim c v).
Proof.
  unfold evictVictim. cbn.
  destruct (store_Del (Key v) 0 (store c)) as [[cf val] st].
  rewrite <- Cache_onEvict_with_setBuf. reflexivity.
Qed.

Lemma evictVictims_with_setBuf (b : chan Item) (l : list Item) (c : Cache) :
  fold_left evictVictim l (with_setBuf b c)
  = with_setBuf b (fold_left evictVictim l c).
Proof.
  revert c. induction l as [|v l IH]; intros c; cbn; [reflexivity|].
  rewrite evictVictim_with_setBuf. apply IH.
Qed.

Lemma itemCost_with_setBuf (b : chan Item) (i : Item) (c : Cache) :
  itemCost i (with_setBuf b c)
  = ((itemCost i c).1, with_setBuf b (itemCost i c).2).
Proof.
  unfold itemCost. cbn.
  destruct (cost c) as [f|];
    [destruct ((Cost i =? 0) && negb (bool_decide (flag i = itemDelete)))|];
    cbn; destruct (ignoreInternalCost c); reflexivity.
Qed.

Lemma processItem_with_setBuf (b : chan Item) (i : Item) (c : Cache) :
  processItem i (with_setBuf b c) = with_setBuf b (processItem i c).
Proof.
  unfold processItem. destruct (wg i); [reflexivity|].
  rewrite itemCost_with_setBuf. destruct (itemCost i c) as [i' c']. cbn [fst snd].
  destruct (flag i').
  - cbn [policy c_Metrics with_setBuf].
    destruct (policy_Add (Key i') (Cost i') (policy c') (c_Metrics c'))
      as [[[victims added] p] mt].
    destruct added.
    + rewrite <- evictVictims_with_setBuf. reflexivity.
    + rewrite <- evictVictims_with_setBuf, <- Cache_onReject_with_setBuf.
      reflexivity.
  - cbn.
    destruct (store_Del (Key i') (Conflict i') (store c')) as [[cf val] st].
    rewrite <- Cache_onExit_with_setBuf. reflexivity.
  - reflexivity.
Qed.

Lemma handle_with_setBuf (b : chan Item) (l : list Item) (c : Cache) :
  handle l (with_setBuf b c) = with_setBuf b (handle l c).
Proof.
  unfold handle. revert c. induction l as [|i l IH]; intros c; cbn; [reflexivity|].
  rewrite processItem_with_setBuf. apply IH.
Qed.

Lemma handle_app (l1 l2 : list Item) (c : Cache) :
  handle (l1 ++ l2) c = handle l2 (handle l1 c).
Proof. unfold handle. apply fold_left_app. Qed.

(** ** What the processor leaves alone *)

Lemma sameFrame_refl (c : Cache) : sameFrame c c.
Proof. repeat split. Qed.

Lemma sameFrame_trans (c1 c2 c3 : Cache) :
  sameFrame c1 c2 → sameFrame c2 c3 → sameFrame c1 c3.
Proof.
  unfold sameFrame. intros (?&?&?&?&?&?&?&?&?) (?&?&?&?&?&?&?&?&?).
  repeat split; congruence.
Qed.

Lemma sameFrame_running (c c' : Cache) :
  sameFrame c c' → running c' = running c.
Proof.
  unfold sameFrame, running. intros (->&->&->&->&_). reflexivity.
Qed.

Ltac by_frame := unfold sameFrame; cbn; repeat split.

Lemma Cache_onExit_frame (v : any) (c : Cache) : sameFrame c (Cache_onExit v c).
Proof.
  unfold Cache_onExit. destruct (OnExit (config c)), v; by_frame.
Qed.

Lemma Cache_onEvict_frame (i : Item) (c : Cache) : sameFrame c (Cache_onEvict i c).
Proof.
  unfold Cache_onEvict.
  eapply sameFrame_trans; [|apply Cache_onExit_frame].
  destruct (OnEvict (config c)); by_frame.
Qed.

Lemma Cache_onReject_frame (i : Item) (c : Cache) : sameFrame c (Cache_onReject i c).
Proof.
  unfold Cache_onReject.
  eapply sameFrame_trans; [|apply Cache_onExit_frame].
  destruct (OnReject (config c)); by_frame.
Qed.

Lemma evictVictims_frame (l : list Item) (c : Cache) :
  sameFrame c (fold_left evictVictim l c).
Proof.
  revert c. induction l as [|v l IH]; intros c; cbn; [by_frame|].
  eapply sameFrame_trans; [|apply IH].
  unfold evictVictim.
  destruct (store_Del (Key v) 0 (store c)) as [[cf val] st].
  eapply sameFrame_trans; [|apply Cache_onEvict_frame]. by_frame.
Qed.

Lemma itemCost_frame (i : Item) (c : Cache) : sameFrame c (itemCost i c).2.
Proof.
  unfold itemCost.
  destruct (cost c) as [f|];
    [destruct ((Cost i =? 0) && negb (bool_decide (flag i = itemDelete)))|];
    cbn; destruct (ignoreInternalCost c); by_frame.
Qed.

Lemma processItem_frame (i : Item) (c : Cache) : sameFrame c (processItem i c).
Proof.
  unfold processItem. destruct (wg i); [by_frame|].
  pose proof (itemCost_frame i c) as HF.
  destruct (itemCost i c) as [i' c']. cbn [snd] in HF.
  eapply sameFrame_trans; [exact HF|].
  destruct (flag i').
  - destruct (policy_Add (Key i') (Cost i') (policy c') (c_Metrics c'))
      as [[[victims added] p] mt].
    eapply sameFrame_trans; [|apply evictVictims_frame].
    destruct added.
    + by_frame.
    + eapply sameFrame_trans; [|apply Cache_onReject_frame]. by_frame.
  - destruct (store_Del (Key i') (Conflict i')
                (store (with_policy (policy_Del (Key i') (policy c')) c')))
      as [[cf val] st].
    eapply sameFrame_trans; [|apply Cache_onExit_frame]. by_frame.
  - by_frame.
Qed.

Lemma handle_frame (l : list Item) (c : Cache) : sameFrame c (handle l c).
Proof.
  unfold handle. revert c. induction l as [|i l IH]; intros c; cbn;
    [apply sameFrame_refl|].
  eapply sameFrame_trans; [apply processItem_frame|apply IH].
Qed.

(** ** Wait *)

Lemma setBuf_full_nonempty (c : Cache) :
  setBuf_full c = true → ∃ x rest, buf (setBuf c) = x :: rest.
Proof.
  unfold setBuf_full, setBufSize. destruct (buf (setBuf c)) as [|x rest].
  - cbn. intros H. apply Z.leb_le in H. lia.
  - eauto.
Qed.

(** [Wait] on an open cache returns once the processor has handled,
    in order, everything that was queued and then the sync item. *)
Lemma Cache_Wait_running (s : Cache) :
  running s = true →
  Cache_Wait (Some s)
  = Ret tt (Some (with_setBuf (mkChan [] false)
                    (handle (buf (setBuf s) ++ [syncItem]) s))).
Proof.
  intros H. destruct (running_inv s H) as (Hc & Hp & Hb & Hs).
  unfold Cache_Wait, bind, send. rewrite Hc, Hb.
  destruct (setBuf_full s) eqn:Hfull.
  - destruct (setBuf_full_nonempty s Hfull) as (x & rest & Hbuf).
    unfold processItems_step. rewrite Hp, Hbuf. cbn [deref].
    rewrite processItem_with_setBuf. unfold enqueue. cbn [processing with_setBuf].
    destruct (processItem_frame x s) as (_ & _ & -> & _). rewrite Hp.
    unfold processAll. cbn [setBuf with_setBuf buf closed].
    rewrite Hb. rewrite !handle_with_setBuf. reflexivity.
  - cbn [deref]. unfold enqueue. cbn [processing with_setBuf]. rewrite Hp.
    unfold processAll. cbn [setBuf with_setBuf buf closed]. rewrite Hb.
    rewrite !handle_with_setBuf. reflexivity.
Qed.

(** ** Get *)

(** [Get] on an open cache answers from the store as it is. *)
Lemma Cache_Get_open (s : Cache) (key : string) :
  isClosed s = false →
  ∃ s', Cache_Get key (Some s)
        = Ret (store_Get (keyToHash s key).1 (keyToHash s key).2 (store s))
              (Some s')
        ∧ store s' = store s ∧ setBuf s' = setBuf s ∧ calls s' = calls s.
Proof.
  intros Hc. unfold Cache_Get. rewrite Hc.
  destruct (keyToHash s key) as [keyHash conflictHash]. cbn [fst snd].
  destruct (ringBuffer_Push keyHash (getBuf s) (policy s) (c_Metrics s))
    as [[r p] mt].
  cbn [store with_Metrics with_policy with_getBuf].
  destruct (store_Get keyHash conflictHash (store s)) as [value ok].
  destruct ok; eexists; (split; [reflexivity|]); cbn; repeat split.
Qed.

(** ** Delete *)

Lemma store_Del_Get (keyHash conflictHash : Z) (m : gmap Z storeItem) :
  store_Get keyHash conflictHash (store_Del keyHash conflictHash m).2
  = (None, false).
Proof.
  unfold store_Del, store_Get.
  destruct (m !! keyHash) as [it|] eqn:E; cbn.
  - destruct (conflictHash =? 0) eqn:E0; cbn.
    + rewrite lookup_delete_eq. reflexivity.
    + destruct (conflictHash =? sConflict it) eqn:E1; cbn.
      * rewrite lookup_delete_eq. reflexivity.
      * rewrite E. rewrite Z.eqb_sym, E1. reflexivity.
  - rewrite E. reflexivity.
Qed.

(** Once the processor has handled the delete item, the key is not
    found, whatever the store held. *)
Lemma processItem_delete_gone (keyHash conflictHash : Z) (c : Cache) :
  store_Get keyHash conflictHash
    (store (processItem (deleteItem keyHash conflictHash) c))
  = (None, false).
Proof.
  unfold processItem, deleteItem. cbn [wg].
  unfold itemCost. cbn [flag Cost].
  assert (Hnd : (0 =? 0) && negb (bool_decide (itemDelete = itemDelete)) = false)
    by reflexivity.
  rewrite Hnd.
  destruct (cost c) as [f|];
    destruct (ignoreInternalCost c); cbn [negb flag set_Cost Key Conflict];
    cbn [store with_policy];
    pose proof (store_Del_Get keyHash conflictHash (store c)) as HG;
    destruct (store_Del keyHash conflictHash (store c)) as [[cf val] st];
    cbn [snd] in HG;
    destruct (Cache_onExit_fields val
                (with_store st
                   (with_policy (policy_Del keyHash (policy c)) c)))
      as (-> & _); exact HG.
Qed.

Lemma processItem_sync_store (c : Cache) :
  store (processItem syncItem c) = store c.
Proof. reflexivity. Qed.

(** [Delete] on an open cache returns, having removed the entry in
    the caller ([s0]) and then sent the delete item. *)
Lemma Cache_Delete_running (s : Cache) (key : string) :
  running s = true →
  let keyHash := (keyToHash s key).1 in
  let conflictHash := (keyToHash s key).2 in
  ∃ s0 s1 pre,
    store_Get keyHash conflictHash (store s0) = (None, false)
    ∧ buf (setBuf s0) = buf (setBuf s)
    ∧ Cache_Delete key (Some s) = send (deleteItem keyHash conflictHash) s0
    ∧ Cache_Delete key (Some s) = Ret tt (Some s1)
    ∧ sameFrame (with_setBuf (setBuf s1) s) s1
    ∧ buf (setBuf s1) = pre ++ [deleteItem keyHash conflictHash]
    ∧ closed (setBuf s1) = false
    ∧ (if setBuf_full s then ∃ x, buf (setBuf s) = x :: pre
       else buf (setBuf s) = pre).
Proof.
  intros H keyHash conflictHash.
  destruct (running_inv s H) as (Hc & Hp & Hb & Hs).
  subst keyHash conflictHash. unfold Cache_Delete. rewrite Hc.
  destruct (keyToHash s key) as [keyHash conflictHash]. cbn [fst snd].
  pose proof (store_Del_Get keyHash conflictHash (store s)) as HG.
  destruct (store_Del keyHash conflictHash (store s)) as [[cf prev] st].
  cbn [snd] in HG.
  set (s0 := Cache_onExit prev (with_store st s)).
  assert (HF0 : sameFrame s s0).
  { subst s0. eapply sameFrame_trans; [|apply Cache_onExit_frame]. by_frame. }
  assert (Hst0 : store s0 = st).
  { subst s0. destruct (Cache_onExit_fields prev (with_store st s)) as (-> & _).
    reflexivity. }
  destruct HF0 as (HsB & HF0).
  exists s0. unfold send. rewrite HsB, Hb.
  assert (Hfull : setBuf_full s0 = setBuf_full s)
    by (unfold setBuf_full; rewrite HsB; reflexivity).
  rewrite Hfull.
  destruct (setBuf_full s) eqn:Hf.
  - destruct (setBuf_full_nonempty s Hf) as (x & rest & Hbuf).
    unfold processItems_step.
    destruct HF0 as (Hcl0 & Hp0 & HF0). rewrite Hp0, Hp, HsB, Hbuf.
    eexists _, rest. rewrite Hst0.
    split; [exact HG|]. split; [reflexivity|].
    split; [reflexivity|]. split; [reflexivity|].
    rewrite processItem_with_setBuf. unfold enqueue.
    cbn [setBuf with_setBuf buf closed].
    rewrite Hb. split; [|split; [reflexivity|split; [reflexivity|eauto]]].
    destruct (processItem_frame x s0) as (E1&E2&E3&E4&E5&E6&E7&E8&E9).
    destruct HF0 as (F4&F5&F6&F7&F8&F9).
    unfold sameFrame. cbn. repeat split; congruence.
  - eexists _, (buf (setBuf s)). rewrite Hst0.
    split; [exact HG|]. split; [reflexivity|].
    split; [reflexivity|]. split; [reflexivity|].
    unfold enqueue. cbn [setBuf with_setBuf buf closed]. rewrite HsB, Hb.
    split; [|repeat split].
    destruct HF0 as (F2&F3&F4&F5&F6&F7&F8&F9).
    unfold sameFrame. cbn. repeat split; congruence.
Qed.

(** C9: [Delete] on an open cache removes the entry from the store in
    the caller ([s0], where the key is no longer found), then sends the
    delete item, which is always queued, behind whatever was queued
    before (on a full buffer the sender waits until the processor has
    taken the oldest item [x]).  Hence [Delete(K); Wait(); Get(K)]
    returns not-found. *)
Theorem Delete_Wait_Get (s : Cache) (key : string) :
  running s = true →
  let keyHash := (keyToHash s key).1 in
  let conflictHash := (keyToHash s key).2 in
  ∃ s0 s1 s2 pre,
    store_Get keyHash conflictHash (store s0) = (None, false)
    ∧ buf (setBuf s0) = buf (setBuf s)
    ∧ Cache_Delete key (Some s) = send (deleteItem keyHash conflictHash) s0
    ∧ Cache_Delete key (Some s) = Ret tt (Some s1)
    ∧ running s1 = true
    ∧ buf (setBuf s1) = pre ++ [deleteItem keyHash conflictHash]
    ∧ (if setBuf_full s then ∃ x, buf (setBuf s) = x :: pre
       else buf (setBuf s) = pre)
    ∧ (Cache_Delete key >> Cache_Wait >> Cache_Get key) (Some s)
      = Ret (None, false) (Some s2).
Proof.
  intros H keyHash conflictHash.
  destruct (running_inv s H) as (Hc & Hp & Hb & Hs).
  destruct (Cache_Delete_running s key H)
    as (s0 & s1 & pre & HG & HB0 & Hsend & HDel & HF & Hbuf & Hcl & Hpre).
  fold keyHash conflictHash in HG, Hsend, Hbuf.
  assert (Hrun1 : running s1 = true).
  { destruct HF as (_ & E2 & E3 & E4 & _). cbn in E2, E3, E4.
    unfold running. rewrite E2, E3, E4, Hcl, Hc, Hp, Hs. reflexivity. }
  assert (Hk1 : keyToHash s1 = keyToHash s)
    by (destruct HF as (_&_&_&_&_&E&_); exact E).
  set (s2 := with_setBuf (mkChan [] false)
               (handle (buf (setBuf s1) ++ [syncItem]) s1)).
  assert (Hc2 : isClosed s2 = false).
  { subst s2. cbn.
    destruct (handle_frame (buf (setBuf s1) ++ [syncItem]) s1) as (_ & -> & _).
    destruct (running_inv s1 Hrun1) as (E & _). exact E. }
  assert (Hk2 : keyToHash s2 = keyToHash s).
  { subst s2. cbn.
    destruct (handle_frame (buf (setBuf s1) ++ [syncItem]) s1)
      as (_&_&_&_&_& -> &_). exact Hk1. }
  destruct (Cache_Get_open s2 key Hc2) as (s3 & HGet & _).
  exists s0, s1, s3, pre.
  repeat (split; [assumption|]).
  unfold bind. rewrite HDel, (Cache_Wait_running s1 Hrun1). fold s2.
  rewrite HGet. f_equal. rewrite Hk2. fold keyHash conflictHash.
  subst s2. cbn [store with_setBuf]. rewrite Hbuf, <- app_assoc.
  rewrite handle_app. cbn [app]. unfold handle at 1. cbn [fold_left].
  rewrite processItem_sync_store. apply processItem_delete_gone.
Qed.

(** ** The calls made by the callbacks *)

Lemma logCalls_nil (c : Cache) : logCalls [] c = c.
Proof. destruct c. unfold logCalls. cbn. rewrite app_nil_r. reflexivity. Qed.

Lemma logCalls_logCalls (xs ys : list call) (c : Cache) :
  logCalls ys (logCalls xs c) = logCalls (xs ++ ys) c.
Proof. unfold logCalls. cbn. rewrite app_assoc. reflexivity. Qed.

Lemma Cache_onExit_calls (v : any) (c : Cache) :
  Cache_onExit v c = logCalls (onExitCalls (config c) v) c.
Proof.
  unfold Cache_onExit, onExitCalls.
  destruct (OnExit (config c)), v; rewrite ?logCalls_nil; reflexivity.
Qed.

Lemma Cache_onEvict_calls (i : Item) (c : Cache) :
  Cache_onEvict i c = logCalls (onEvictCalls (config c) i) c.
Proof.
  unfold Cache_onEvict, onEvictCalls. rewrite Cache_onExit_calls.
  destruct (OnEvict (config c)).
  - change (logCall (CallOnEvict i) c) with (logCalls [CallOnEvict i] c).
    rewrite logCalls_logCalls. reflexivity.
  - reflexivity.
Qed.

Lemma Cache_onReject_calls (i : Item) (c : Cache) :
  Cache_onReject i c = logCalls (onRejectCalls (config c) i) c.
Proof.
  unfold Cache_onReject, onRejectCalls. rewrite Cache_onExit_calls.
  destruct (OnReject (config c)).
  - change (logCall (CallOnReject i) c) with (logCalls [CallOnReject i] c).
    rewrite logCalls_logCalls. reflexivity.
  - reflexivity.
Qed.

Lemma clearItem_calls (i : Item) (c : Cache) :
  clearItem c i = logCalls (clearCalls (config c) i) c.
Proof.
  unfold clearItem, clearCalls. destruct (wg i); [reflexivity|].
  destruct (bool_decide (flag i ≠ itemUpdate)).
  - apply Cache_onEvict_calls.
  - symmetry. apply logCalls_nil.
Qed.

Lemma fold_clearItem_calls (l : list Item) (c : Cache) :
  fold_left clearItem l c
  = logCalls (concat (map (clearCalls (config c)) l)) c.
Proof.
  revert c. induction l as [|i l IH]; intros c; cbn.
  - symmetry. apply logCalls_nil.
  - rewrite IH, clearItem_calls, logCalls_logCalls. reflexivity.
Qed.

Lemma fold_onEvict_calls (l : list Item) (c : Cache) :
  fold_left (fun c i => Cache_onEvict i c) l c
  = logCalls (concat (map (onEvictCalls (config c)) l)) c.
Proof.
  revert c. induction l as [|i l IH]; intros c; cbn.
  - symmetry. apply logCalls_nil.
  - rewrite IH, Cache_onEvict_calls, logCalls_logCalls. reflexivity.
Qed.

(** ** Clear *)

Lemma Metrics_Clear_get (t : metricType) (p : option Metrics) :
  Metrics_get t (Metrics_Clear p) = 0.
Proof.
  destruct p as [m|]; [|reflexivity].
  cbn [Metrics_Clear]. rewrite Metrics_get_sum. cbn [all].
  assert (E : ∀ l, sumZ (fun _ => 0) l = 0)
    by (induction l as [|x l IH]; cbn; [reflexivity|exact IH]).
  rewrite E. reflexivity.
Qed.

(** [Clear] on an open cache returns, with the cache still open, and
    makes its calls in the order of the code. *)
Lemma Cache_Clear_running (s : Cache) :
  running s = true →
  ∃ s1, Cache_Clear (Some s) = Ret tt (Some s1)
    ∧ running s1 = true
    ∧ buf (setBuf s1) = []
    ∧ store s1 = ∅
    ∧ policy s1 = policy_Clear (policy s)
    ∧ c_Metrics s1 = Metrics_Clear (c_Metrics s)
    ∧ calls s1
      = calls s ++ [ProcessorStopped]
        ++ concat (map (clearCalls (config s)) (buf (setBuf s)))
        ++ concat (map (onEvictCalls (config s)) (store_Clear (store s)).1)
        ++ [ProcessorStarted].
Proof.
  intros H. destruct (running_inv s H) as (Hc & Hp & Hb & Hs).
  unfold Cache_Clear. rewrite Hc. unfold bind, stopProcessor.
  rewrite Hs, Hp. cbn [deref]. cbn [setBuf logCall with_processing closed].
  rewrite Hb. cbn [buf]. rewrite fold_clearItem_calls.
  unfold store_Clear. rewrite fold_onEvict_calls.
  eexists. split; [reflexivity|]. cbn.
  unfold running. cbn. rewrite Hc, Hs. repeat (split; [reflexivity|]).
  rewrite <- !app_assoc. reflexivity.
Qed.

(** C7: [Clear] on an open cache stops the processor, empties the set
    buffer itself (calling [Done] for each pending sync item and the
    evict callback for each other pending item that is not an update),
    clears the policy and the store (calling the evict callback for
    each stored item), resets the metrics if there are any, and
    restarts the processor; the calls are made in that order.  After
    [Clear] and then [Wait], [Len] and [UsedCapacity] return 0. *)
Theorem Clear_then_Wait (s : Cache) :
  running s = true →
  ∃ s1 s2,
    Cache_Clear (Some s) = Ret tt (Some s1)
    ∧ running s1 = true
    ∧ buf (setBuf s1) = []
    ∧ store s1 = ∅
    ∧ policy s1 = policy_Clear (policy s)
    ∧ c_Metrics s1 = Metrics_Clear (c_Metrics s)
    ∧ (∀ t, Metrics_get t (c_Metrics s1) = 0)
    ∧ calls s1
      = calls s ++ [ProcessorStopped]
        ++ concat (map (clearCalls (config s)) (buf (setBuf s)))
        ++ concat (map (onEvictCalls (config s)) (store_Clear (store s)).1)
        ++ [ProcessorStarted]
    ∧ (Cache_Clear >> Cache_Wait) (Some s) = Ret tt (Some s2)
    ∧ Cache_Len (Some s2) = Ret 0%nat (Some s2)
    ∧ Cache_UsedCapacity (Some s2) = Ret 0 (Some s2).
Proof.
  intros H.
  destruct (Cache_Clear_running s H)
    as (s1 & HClear & Hrun1 & Hbuf1 & Hst1 & Hpol1 & HM1 & Hcalls1).
  exists s1. eexists.
  repeat (split; [assumption|]).
  split; [intros t; rewrite HM1; apply Metrics_Clear_get|].
  split; [assumption|].
  unfold bind. rewrite HClear, (Cache_Wait_running s1 Hrun1), Hbuf1.
  split; [reflexivity|].
  unfold Cache_Len, Cache_UsedCapacity, handle.
  cbn. rewrite Hst1, Hpol1. split; reflexivity.
Qed.

(** ** Admission *)

(** When [makeRoom] reports room, the incoming cost fits under the
    budget, which it has not changed. *)
Lemma makeRoom_room (n : nat) (key cost : Z) (p : defaultPolicy)
    (mt : option Metrics) (victims : list Item) vs p' mt' :
  makeRoom n key cost p mt victims = ((vs, true), p', mt') →
  used p' + cost ≤ maxCost p' ∧ maxCost p' = maxCost p.
Proof.
  revert p mt victims.
  induction n as [|n IH]; intros p mt victims; cbn [makeRoom];
    (destruct (used p + cost >? maxCost p) eqn:E;
     [|intros [= <- <- <-]; split; [lia|reflexivity]]);
    (destruct (minVictim (sketch p) (fillSample p)) as [[vkey vcost]|];
     [|discriminate]);
    (destruct (tinyLFU_Estimate (sketch p) key
               >=? tinyLFU_Estimate (sketch p) vkey); [|discriminate]).
  - discriminate.
  - intros Hm. apply IH in Hm. exact Hm.
Qed.

Lemma policy_Add_added (key cost : Z) (p : defaultPolicy)
    (mt : option Metrics) vs p' mt' :
  policy_Add key cost p mt = ((vs, true), p', mt') →
  used p' ≤ maxCost p' ∧ maxCost p' = maxCost p
  ∧ keyCosts p' !! key = Some cost.
Proof.
  unfold policy_Add. destruct (cost >? maxCost p); [discriminate|].
  destruct (makeRoom (size (keyCosts p)) key cost p mt [])
    as [[[vs1 ok] p1] mt1] eqn:E.
  destruct ok; [|discriminate].
  intros [= <- <- <-]. apply makeRoom_room in E. cbn.
  rewrite lookup_insert_eq. repeat split; lia.
Qed.

(** The victims' slots are emptied in the store. *)
Lemma store_Del_zero (keyHash : Z) (m : gmap Z storeItem) :
  (store_Del keyHash 0 m).2 = delete keyHash m.
Proof.
  unfold store_Del. destruct (m !! keyHash) eqn:E; cbn; [reflexivity|].
  symmetry. apply delete_id. exact E.
Qed.

Lemma evictVictim_store (c : Cache) (v : Item) :
  store (evictVictim c v) = delete (Key v) (store c).
Proof.
  unfold evictVictim. pose proof (store_Del_zero (Key v) (store c)) as HD.
  destruct (store_Del (Key v) 0 (store c)) as [[cf val] st]. cbn [snd] in HD.
  rewrite Cache_onEvict_calls. cbn. exact HD.
Qed.

Lemma evictVictims_lookup (l : list Item) (c : Cache) (k : Z) :
  store (fold_left evictVictim l c) !! k
  = if forallb (fun v => negb (Key v =? k)) l then store c !! k else None.
Proof.
  revert c. induction l as [|v l IH]; intros c; cbn [fold_left forallb];
    [reflexivity|].
  rewrite IH, evictVictim_store.
  destruct (Key v =? k) eqn:E; cbn [negb andb].
  - apply Z.eqb_eq in E. subst k. rewrite lookup_delete_eq.
    destruct (forallb _ l); reflexivity.
  - apply Z.eqb_neq in E. rewrite lookup_delete_ne by exact E. reflexivity.
Qed.

Lemma evictVictims_policy (l : list Item) (c : Cache) :
  policy (fold_left evictVictim l c) = policy c.
Proof.
  revert c. induction l as [|v l IH]; intros c; cbn; [reflexivity|].
  rewrite IH. unfold evictVictim.
  destruct (store_Del (Key v) 0 (store c)) as [[cf val] st].
  rewrite Cache_onEvict_calls. reflexivity.
Qed.

(** C1 (as the code has it): whenever the processor handles a new
    item and the policy adds it, then right after that step, whatever
    the state before, [UsedCapacity] is at most [MaxCapacity] (hence
    at most [MaxCapacity] plus the cost of the item), and the slots of
    the victims the policy chose have been emptied in the store in
    that same step.  Nothing is claimed between admissions. *)
Theorem admission_restores_bound (i : Item) (c : Cache) :
  wg i = false →
  flag i = itemNew →
  let i' := (itemCost i c).1 in
  let c' := (itemCost i c).2 in
  let r := policy_Add (Key i') (Cost i') (policy c') (c_Metrics c') in
  r.1.1.2 = true →
  let after := processItem i c in
  ∃ usedCap maxCap,
    Cache_UsedCapacity (Some after) = Ret usedCap (Some after)
    ∧ Cache_MaxCapacity (Some after) = Ret maxCap (Some after)
    ∧ maxCap = maxCost (policy c)
    ∧ usedCap ≤ maxCap
    ∧ usedCap ≤ maxCap + Z.max 0 (Cost i')
    ∧ Forall (fun v => store after !! Key v = None) r.1.1.1.
Proof.
  intros Hwg Hflag i' c' r Hadd after.
  assert (Hflag' : flag i' = itemNew).
  { subst i'. unfold itemCost.
    destruct (cost c) as [f|];
      [destruct ((Cost i =? 0) && negb (bool_decide (flag i = itemDelete)))|];
      cbn; destruct (ignoreInternalCost c); cbn; exact Hflag. }
  assert (Hpol : policy c' = policy c).
  { subst c'. unfold itemCost.
    destruct (cost c) as [f|];
      [destruct ((Cost i =? 0) && negb (bool_decide (flag i = itemDelete)))|];
      cbn; destruct (ignoreInternalCost c); reflexivity. }
  assert (Hafter : after
    = fold_left evictVictim r.1.1.1
        (with_Metrics (Metrics_add keyAdd (Key i') 1 r.2)
           (with_store (store_Set i' (store c'))
              (with_Metrics r.2 (with_policy r.1.2 c'))))).
  { subst after. unfold processItem. rewrite Hwg.
    subst r i' c'. destruct (itemCost i c) as [i1 c1]. cbn [fst snd] in *.
    rewrite Hflag'.
    destruct (policy_Add (Key i1) (Cost i1) (policy c1) (c_Metrics c1))
      as [[[victims added] p] mt].
    cbn [fst snd] in *. subst added. reflexivity. }
  destruct r as [[[victims added] p] mt] eqn:Er. cbn [fst snd] in *.
  subst added. apply policy_Add_added in Er. destruct Er as (Hle & Hmax & _).
  assert (Hp : policy after = p).
  { rewrite Hafter, evictVictims_policy. reflexivity. }
  exists (used p), (maxCost p).
  unfold Cache_UsedCapacity, Cache_MaxCapacity, policy_Used, policy_MaxCost.
  rewrite Hp. split; [reflexivity|]. split; [reflexivity|].
  split; [congruence|]. split; [exact Hle|]. split; [lia|].
  apply Forall_forall. intros v Hv.
  rewrite Hafter, evictVictims_lookup.
  destruct (forallb (fun v0 => negb (Key v0 =? Key v)) victims) eqn:Hall;
    [|reflexivity].
  rewrite forallb_forall in Hall. apply list_elem_of_In in Hv.
  specialize (Hall v Hv). rewrite Z.eqb_refl in Hall. discriminate.
Qed.

(** ** Fresh caches and plain sets *)

Lemma NewCache_fresh (config : Config) :
  NumCounters config ≠ 0 → MaxCost config ≠ 0 → BufferItems config ≠ 0 →
  ∃ c, NewCache config = (Some c, None)
    ∧ running c = true
    ∧ store c = ∅ ∧ buf (setBuf c) = []
    ∧ policy c = newPolicy (NumCounters config) (MaxCost config)
    ∧ cost c = cfg_Cost config
    ∧ ignoreInternalCost c = IgnoreInternalCost config
    ∧ calls c = [ProcessorStarted].
Proof.
  intros H1 H2 H3. unfold NewCache.
  rewrite (proj2 (Z.eqb_neq _ _) H1), (proj2 (Z.eqb_neq _ _) H2),
    (proj2 (Z.eqb_neq _ _) H3).
  eexists. split; [reflexivity|].
  destruct (cfg_Metrics config); repeat split.
Qed.

(** The item [SetWithCost] builds. *)
Lemma SetWithCost_new (s : Cache) (key : string) (value : any) (cost : Z) :
  running s = true →
  setBuf_full s = false →
  (store_Update (setItem s key value cost) (store s)).1.2 = false →
  Cache_SetWithCost key value cost (Some s)
  = Ret true (Some (enqueue (setItem s key value cost) s)).
Proof.
  intros H Hfull. destruct (running_inv s H) as (Hc & Hp & Hb & Hs).
  unfold Cache_SetWithCost, setItem. rewrite Hc.
  destruct (keyToHash s key) as [keyHash conflictHash]. cbn [fst snd].
  destruct (store_Update _ (store s)) as [[prev ok] st]. cbn [fst snd].
  intros ->. rewrite Hb, Hfull. reflexivity.
Qed.

Lemma SetWithCost_update (s : Cache) (key : string) (value : any) (cost : Z)
    prev st :
  running s = true →
  store_Update (setItem s key value cost) (store s) = ((prev, true), st) →
  Cache_SetWithCost key value cost (Some s)
  = Ret true
      (Some (if setBuf_full s then Cache_onExit prev (with_store st s)
             else enqueue (set_flag itemUpdate (setItem s key value cost))
                    (Cache_onExit prev (with_store st s)))).
Proof.
  intros H. destruct (running_inv s H) as (Hc & Hp & Hb & Hs).
  unfold Cache_SetWithCost, setItem. rewrite Hc.
  destruct (keyToHash s key) as [keyHash conflictHash]. cbn [fst snd].
  intros ->.
  destruct (Cache_onExit_fields prev (with_store st s))
    as (_ & _ & HsB & _).
  unfold setBuf_full at 1. rewrite HsB. cbn [with_store setBuf].
  rewrite Hb. fold (setBuf_full s).
  destruct (setBuf_full s); reflexivity.
Qed.

(** ** Lazy cost *)

(** The first admission of a policy just built: there is room. *)
Lemma policy_Add_fresh (key cost numCounters budget : Z) (mt : option Metrics) :
  cost ≤ budget →
  policy_Add key cost (newPolicy numCounters budget) mt
  = (([], true),
     mkPolicy (tinyLFU_Increment (newTinyLFU numCounters) key)
              (<[key := cost]> ∅) (0 + cost) budget 0,
     mt).
Proof.
  intros Hle. unfold policy_Add, newPolicy. cbn [maxCost keyCosts].
  assert (E : (cost >? budget) = false) by lia. rewrite E.
  assert (E0 : size (∅ : gmap Z Z) = 0%nat) by apply map_size_empty.
  rewrite E0. cbn [makeRoom used maxCost].
  assert (E1 : (0 + cost >? budget) = false) by lia. rewrite E1.
  reflexivity.
Qed.

(** For a new or update item that comes with cost 0, the processor
    calls the cost function once on its value; for any other item it
    does not call it. *)
Lemma itemCost_calls (i : Item) (c : Cache) :
  calls (itemCost i c).2
  = calls c
    ++ (match cost c with
        | Some _ =>
            if (Cost i =? 0) && negb (bool_decide (flag i = itemDelete))
            then [CallCost (Value i)] else []
        | None => []
        end).
Proof.
  unfold itemCost.
  destruct (cost c) as [f|];
    [destruct ((Cost i =? 0) && negb (bool_decide (flag i = itemDelete)))|];
    cbn; destruct (ignoreInternalCost c); cbn; rewrite ?app_nil_r; reflexivity.
Qed.

(** C8 (as the code has it): on a cache just built with a cost
    function, [Set] (cost 0) followed by [Wait] has the processor
    compute the cost from the value, once, and charge it: the computed
    cost itself when internal cost is ignored, the computed cost plus
    [CacheItemSize] otherwise.  If the charge fits the budget,
    [UsedCapacity] then returns it. *)
Theorem lazy_cost_once (config : Config) (costfn : any → Z) (key : string)
    (value : any) :
  NumCounters config ≠ 0 → MaxCost config ≠ 0 → BufferItems config ≠ 0 →
  cfg_Cost config = Some costfn →
  let charged :=
    if IgnoreInternalCost config then costfn value
    else wrap_int64 (costfn value + CacheItemSize) in
  charged ≤ MaxCost config →
  ∃ c s',
    NewCache config = (Some c, None)
    ∧ (Cache_Set key value >> Cache_Wait >> Cache_UsedCapacity) (Some c)
      = Ret charged (Some s')
    ∧ calls s' = [ProcessorStarted; CallCost value; CallDone].
Proof.
  intros H1 H2 H3 Hcost charged Hfit.
  destruct (NewCache_fresh config H1 H2 H3)
    as (c & HNew & Hrun & Hst & Hbuf & Hpol & Hcf & Hig & Hcalls).
  exists c. eexists. split; [exact HNew|].
  assert (Hfull : setBuf_full c = false)
    by (unfold setBuf_full; rewrite Hbuf; reflexivity).
  unfold bind, Cache_Set.
  rewrite (SetWithCost_new c key value 0 Hrun Hfull)
    by (unfold store_Update; rewrite Hst, lookup_empty; reflexivity).
  assert (Hrun1 : running (enqueue (setItem c key value 0) c) = true).
  { destruct (running_inv c Hrun) as (Hc & Hp & Hb & Hs).
    unfold running, enqueue. cbn. rewrite Hc, Hp, Hb, Hs. reflexivity. }
  rewrite (Cache_Wait_running _ Hrun1).
  unfold enqueue at 1. cbn [setBuf with_setBuf buf]. rewrite Hbuf.
  unfold enqueue. rewrite handle_with_setBuf.
  cbn [app handle fold_left].
  assert (Hstep : used (policy (processItem (setItem c key value 0) c)) = charged
    ∧ calls (processItem (setItem c key value 0) c)
      = [ProcessorStarted; CallCost value]).
  { unfold processItem, setItem, itemCost. cbn [wg Cost flag Value].
    rewrite Hcf, Hcost.
    replace ((0 =? 0) && negb (bool_decide (itemNew = itemDelete)))
      with true by reflexivity.
    cbn [ignoreInternalCost logCall]. rewrite Hig.
    destruct (IgnoreInternalCost config); cbn [negb set_Cost flag Key Cost];
      cbn [policy c_Metrics logCall]; rewrite Hpol;
      rewrite (policy_Add_fresh _ _ _ _ _ Hfit);
      cbn; rewrite Hcalls; split; try reflexivity; subst charged; lia. }
  destruct Hstep as (Hused & Hcalls').
  unfold Cache_UsedCapacity, policy_Used. cbn [wg syncItem processItem].
  cbn [policy with_setBuf logCall]. rewrite Hused.
  split; [reflexivity|]. cbn [calls with_setBuf logCall]. rewrite Hcalls'.
  reflexivity.
Qed.

(** ** Set, Wait, Get *)

Lemma itemCost_item (i : Item) (c : Cache) :
  flag (itemCost i c).1 = flag i ∧ Key (itemCost i c).1 = Key i
  ∧ Conflict (itemCost i c).1 = Conflict i ∧ Value (itemCost i c).1 = Value i
  ∧ store (itemCost i c).2 = store c.
Proof.
  unfold itemCost.
  destruct (cost c) as [f|];
    [destruct ((Cost i =? 0) && negb (bool_decide (flag i = itemDelete)))|];
    cbn; destruct (ignoreInternalCost c); repeat split.
Qed.

(** An update item leaves the store as it is. *)
Lemma processItem_update_store (i : Item) (c : Cache) :
  wg i = false → flag i = itemUpdate →
  store (processItem i c) = store c.
Proof.
  intros Hwg Hfl. unfold processItem. rewrite Hwg.
  destruct (itemCost_item i c) as (E1 & _ & _ & _ & E5).
  destruct (itemCost i c) as [i' c']. cbn [fst snd] in *.
  rewrite E1, Hfl. cbn. exact E5.
Qed.

(** A new item the policy adds is found in the store right after,
    unless its own key is among the victims. *)
Lemma processItem_new_store (i : Item) (c : Cache) :
  wg i = false → flag i = itemNew →
  match policy_Add (Key (itemCost i c).1) (Cost (itemCost i c).1)
          (policy (itemCost i c).2) (c_Metrics (itemCost i c).2) with
  | ((victims, added), _, _) =>
      added && forallb (fun v => negb (Key v =? Key i)) victims
  end = true →
  store_Get (Key i) (Conflict i) (store (processItem i c)) = (Value i, true).
Proof.
  intros Hwg Hfl. unfold processItem. rewrite Hwg.
  destruct (itemCost_item i c) as (E1 & E2 & E3 & E4 & E5).
  destruct (itemCost i c) as [i' c']. cbn [fst snd] in *.
  rewrite E1, Hfl.
  destruct (policy_Add (Key i') (Cost i') (policy c') (c_Metrics c'))
    as [[[victims added] p] mt].
  intros Hk. apply andb_prop in Hk. destruct Hk as [-> Hall].
  unfold store_Get. rewrite evictVictims_lookup, Hall.
  cbn [store with_Metrics with_store]. unfold store_Set.
  rewrite E2, lookup_insert_eq. cbn [sConflict sValue].
  rewrite E3, E4, Z.eqb_refl. reflexivity.
Qed.

(** C2 (as the code has it): on an open cache, if [SetWithCost]
    leaves an item that is kept ([keepsItem]: updated in place and not
    removed by what was queued ahead, or new, sent, and added by the
    policy when the processor reaches it), then the call returns true
    and [Wait] followed by [Get] of the key returns the value, found. *)
Theorem Set_Wait_Get (s : Cache) (key : string) (value : any) (cost : Z) :
  running s = true →
  keepsItem s key value cost = true →
  ∃ s',
    returned (Cache_SetWithCost key value cost (Some s)) = Some true
    ∧ (Cache_SetWithCost key value cost >> Cache_Wait >> Cache_Get key) (Some s)
      = Ret (value, true) (Some s').
Proof.
  intros H Hkeep. destruct (running_inv s H) as (Hc & Hp & Hb & Hs).
  unfold keepsItem in Hkeep.
  set (i := setItem s key value cost) in *.
  assert (Hgoal : ∃ s1,
    Cache_SetWithCost key value cost (Some s) = Ret true (Some s1)
    ∧ running s1 = true ∧ keyToHash s1 = keyToHash s
    ∧ store_Get (Key i) (Conflict i)
        (store (handle (buf (setBuf s1) ++ [syncItem]) s1)) = (value, true)).
  { destruct (store_Update i (store s)) as [[prev ok] st] eqn:EU.
    destruct ok.
    - apply bool_decide_eq_true_1 in Hkeep.
      set (s0 := Cache_onExit prev (with_store st s)) in *.
      assert (HF0 : sameFrame s s0).
      { subst s0. eapply sameFrame_trans; [|apply Cache_onExit_frame]. by_frame. }
      rewrite (SetWithCost_update s key value cost prev st H EU). fold i s0.
      destruct (setBuf_full s).
      + exists s0. split; [reflexivity|].
        split; [rewrite (sameFrame_running _ _ HF0); exact H|].
        split; [destruct HF0 as (_&_&_&_&_&E&_); exact E|].
        destruct HF0 as (-> & _).
        rewrite handle_app. cbn [handle fold_left].
        rewrite processItem_sync_store. exact Hkeep.
      + exists (enqueue (set_flag itemUpdate i) s0). split; [reflexivity|].
        assert (HF1 : sameFrame (with_setBuf
            (mkChan (buf (setBuf s0) ++ [set_flag itemUpdate i]) (closed (setBuf s0)))
            s) (enqueue (set_flag itemUpdate i) s0)).
        { destruct HF0 as (F1&F2&F3&F4&F5&F6&F7&F8&F9).
          unfold sameFrame, enqueue. cbn. repeat split; congruence. }
        split.
        { rewrite (sameFrame_running _ _ HF1). unfold running. cbn.
          destruct HF0 as (-> & _). rewrite Hc, Hp, Hb, Hs. reflexivity. }
        split; [destruct HF1 as (_&_&_&_&_&E&_); exact E|].
        unfold enqueue. cbn [setBuf with_setBuf buf].
        rewrite handle_with_setBuf. cbn [store with_setBuf].
        destruct HF0 as (-> & _).
        rewrite <- app_assoc, handle_app. cbn [app handle fold_left].
        rewrite processItem_sync_store.
        rewrite processItem_update_store by reflexivity. exact Hkeep.
    - apply andb_prop in Hkeep. destruct Hkeep as [Hfull Hadd].
      apply negb_true_iff in Hfull.
      rewrite (SetWithCost_new s key value cost H Hfull)
        by (fold i; rewrite EU; reflexivity).
      fold i. exists (enqueue i s). split; [reflexivity|].
      split; [unfold running, enqueue; cbn; rewrite Hc, Hp, Hb, Hs; reflexivity|].
      split; [reflexivity|].
      unfold enqueue. cbn [setBuf with_setBuf buf].
      rewrite handle_with_setBuf. cbn [store with_setBuf].
      rewrite <- app_assoc, handle_app. cbn [app handle fold_left].
      rewrite processItem_sync_store.
      apply (processItem_new_store i); [reflexivity|reflexivity|exact Hadd]. }
  destruct Hgoal as (s1 & HSet & Hrun1 & Hk1 & Hget).
  set (s2 := with_setBuf (mkChan [] false)
               (handle (buf (setBuf s1) ++ [syncItem]) s1)).
  assert (Hc2 : isClosed s2 = false).
  { subst s2. cbn.
    destruct (handle_frame (buf (setBuf s1) ++ [syncItem]) s1) as (_ & -> & _).
    destruct (running_inv s1 Hrun1) as (E & _). exact E. }
  assert (Hk2 : keyToHash s2 = keyToHash s).
  { subst s2. cbn.
    destruct (handle_frame (buf (setBuf s1) ++ [syncItem]) s1)
      as (_&_&_&_&_& -> &_). exact Hk1. }
  destruct (Cache_Get_open s2 key Hc2) as (s3 & HGet & _).
  exists s3. rewrite HSet. split; [reflexivity|].
  unfold bind. rewrite HSet, (Cache_Wait_running s1 Hrun1). fold s2.
  rewrite HGet. f_equal. rewrite Hk2. subst s2. cbn [store with_setBuf].
  exact Hget.
Qed.

(** ** The rounds of [makeRoom] *)

Lemma minVictim_elem (sk : tinyLFU) (l : list (Z * Z)) (x : Z * Z) :
  minVictim sk l = Some x → x ∈ l.
Proof.
  revert x. induction l as [|a l IH]; intros x; cbn; [discriminate|].
  destruct (minVictim sk l) as [b|].
  - destruct (victimBefore sk a b); intros [= <-].
    + apply list_elem_of_here.
    + apply list_elem_of_further. apply IH. reflexivity.
  - intros [= <-]. apply list_elem_of_here.
Qed.

Lemma fillSample_ledger (p : defaultPolicy) (k c : Z) :
  (k, c) ∈ fillSample p → keyCosts p !! k = Some c.
Proof.
  unfold fillSample. intros Hin. apply subseteq_take in Hin.
  apply list_elem_of_omap in Hin. destruct Hin as (k' & _ & Hk).
  destruct (keyCosts p !! k') as [c'|] eqn:E; [|discriminate].
  injection Hk as <- <-. exact E.
Qed.

(** [size keyCosts] rounds are enough: with that many or more, the
    bound on the rounds is never what stops the loop. *)
Lemma makeRoom_rounds (n m : nat) (key cost : Z) (p : defaultPolicy)
    (mt : option Metrics) (victims : list Item) :
  (size (keyCosts p) ≤ n)%nat → (size (keyCosts p) ≤ m)%nat →
  makeRoom n key cost p mt victims = makeRoom m key cost p mt victims.
Proof.
  revert m p mt victims.
  induction n as [|n IH]; intros m p mt victims Hn Hm.
  - destruct m as [|m]; [reflexivity|]. cbn [makeRoom].
    destruct (used p + cost >? maxCost p); [|reflexivity].
    destruct (minVictim (sketch p) (fillSample p)) as [[vkey vcost]|] eqn:Ev;
      [|reflexivity].
    apply minVictim_elem, fillSample_ledger in Ev.
    assert (size (keyCosts p) ≠ 0%nat).
    { apply map_size_ne_0_lookup. eauto. }
    lia.
  - cbn [makeRoom].
    destruct (used p + cost >? maxCost p) eqn:Eu;
      [|destruct m; cbn [makeRoom]; rewrite Eu; reflexivity].
    destruct (minVictim (sketch p) (fillSample p)) as [[vkey vcost]|] eqn:Ev;
      [|destruct m; cbn [makeRoom]; rewrite Eu, Ev; reflexivity].
    pose proof Ev as Hv. apply minVictim_elem, fillSample_ledger in Hv.
    assert (Hsz : size (delete vkey (keyCosts p)) = pred (size (keyCosts p)))
      by (apply map_size_delete_Some; eauto).
    assert (size (keyCosts p) ≠ 0%nat)
      by (apply map_size_ne_0_lookup; eauto).
    destruct m as [|m]; [lia|]. cbn [makeRoom]. rewrite Eu, Ev.
    destruct (tinyLFU_Estimate (sketch p) key
              >=? tinyLFU_Estimate (sketch p) vkey); [|reflexivity].
    apply IH; cbn [keyCosts]; lia.
Qed.

(** ** The budget between admissions *)

Lemma makeRoom_shrinks (n : nat) (key cost : Z) (p : defaultPolicy)
    (mt : option Metrics) (victims : list Item) r p' mt' :
  ledgerNonneg p →
  makeRoom n key cost p mt victims = (r, p', mt') →
  used p' ≤ used p ∧ ledgerNonneg p' ∧ maxCost p' = maxCost p.
Proof.
  revert p mt victims.
  induction n as [|n IH]; intros p mt victims Hnn; cbn [makeRoom];
    (destruct (used p + cost >? maxCost p);
     [|intros [= <- <- <-]; repeat split; [lia|exact Hnn]]);
    (destruct (minVictim (sketch p) (fillSample p)) as [[vkey vcost]|] eqn:Ev;
     [|intros [= <- <- <-]; repeat split; [lia|exact Hnn]]);
    (destruct (tinyLFU_Estimate (sketch p) key
               >=? tinyLFU_Estimate (sketch p) vkey);
     [|intros [= <- <- <-]; repeat split; [lia|exact Hnn]]).
  - intros [= <- <- <-]. repeat split; [lia|exact Hnn].
  - intros Hm. apply minVictim_elem, fillSample_ledger in Ev.
    apply IH in Hm.
    + cbn [used maxCost] in Hm. destruct Hm as (Hu & Hl & Hmx).
      pose proof (Hnn _ _ Ev). repeat split; [lia|exact Hl|exact Hmx].
    + intros k v. cbn [keyCosts]. intros Hk.
      apply lookup_delete_Some in Hk. destruct Hk as [_ Hk].
      exact (Hnn _ _ Hk).
Qed.

(** Short of an update or a change of capacity, the policy keeps
    [used] within the budget: an admission of a non-negative cost
    does, whether it adds the key or not, and so does a delete. *)
Lemma policy_Add_withinBudget (key cost : Z) (p : defaultPolicy)
    (mt : option Metrics) r p' mt' :
  ledgerNonneg p → used p ≤ maxCost p → 0 ≤ cost →
  policy_Add key cost p mt = (r, p', mt') →
  used p' ≤ maxCost p' ∧ ledgerNonneg p' ∧ maxCost p' = maxCost p.
Proof.
  intros Hnn Hle Hc. unfold policy_Add.
  destruct (cost >? maxCost p); [intros [= <- <- <-]; auto|].
  destruct (makeRoom (size (keyCosts p)) key cost p mt [])
    as [[[vs ok] p1] mt1] eqn:E.
  pose proof (makeRoom_shrinks _ _ _ _ _ _ _ _ _ Hnn E) as (Hu & Hl & Hm).
  destruct ok.
  - apply makeRoom_room in E. destruct E as (Hroom & _).
    intros [= <- <- <-]. cbn [used maxCost keyCosts].
    repeat split; [lia| |exact Hm].
    intros k v Hk. cbn [keyCosts] in Hk. apply lookup_insert_Some in Hk.
    destruct Hk as [[_ <-]|[_ Hk]]; [exact Hc|exact (Hl _ _ Hk)].
  - intros [= <- <- <-]. repeat split; [lia|exact Hl|exact Hm].
Qed.

Lemma policy_Del_withinBudget (key : Z) (p : defaultPolicy) :
  ledgerNonneg p → used p ≤ maxCost p →
  used (policy_Del key p) ≤ maxCost (policy_Del key p)
  ∧ ledgerNonneg (policy_Del key p).
Proof.
  intros Hnn Hle. unfold policy_Del.
  destruct (keyCosts p !! key) as [old|] eqn:E; [|auto].
  cbn [used maxCost]. pose proof (Hnn _ _ E). split; [lia|].
  intros k v. cbn [keyCosts]. intros Hk.
  apply lookup_delete_Some in Hk. destruct Hk as [_ Hk]. exact (Hnn _ _ Hk).
Qed.

(** The processor keeps the cache within its budget when it handles an
    item that is not an update and is charged no negative cost. *)
Lemma processItem_withinBudget (i : Item) (c : Cache) :
  withinBudget c →
  flag i ≠ itemUpdate →
  0 ≤ Cost (itemCost i c).1 →
  withinBudget (processItem i c).
Proof.
  intros [Hle Hnn] Hfl Hcost. unfold processItem.
  destruct (wg i); [exact (conj Hle Hnn)|].
  destruct (itemCost_item i c) as (E1 & _).
  assert (Hpol : policy (itemCost i c).2 = policy c).
  { unfold itemCost.
    destruct (cost c) as [f|];
      [destruct ((Cost i =? 0) && negb (bool_decide (flag i = itemDelete)))|];
      cbn; destruct (ignoreInternalCost c); reflexivity. }
  destruct (itemCost i c) as [i' c']. cbn [fst snd] in *.
  unfold withinBudget.
  destruct (flag i') eqn:Ef.
  - destruct (policy_Add (Key i') (Cost i') (policy c') (c_Metrics c'))
      as [[[victims added] p] mt] eqn:EA.
    rewrite evictVictims_policy. rewrite Hpol in EA.
    pose proof (policy_Add_withinBudget _ _ _ _ _ _ _ Hnn Hle Hcost EA)
      as (Hu & Hl & _).
    destruct added; [exact (conj Hu Hl)|].
    rewrite Cache_onReject_calls. exact (conj Hu Hl).
  - destruct (store_Del (Key i') (Conflict i')
                (store (with_policy (policy_Del (Key i') (policy c')) c')))
      as [[cf val] st].
    rewrite Cache_onExit_calls. cbn [policy logCalls with_store with_policy].
    rewrite Hpol. apply policy_Del_withinBudget; assumption.
  - congruence.
Qed.

(** ** Open caches stay open *)

(** On an open cache every guarded method but [Close] returns and
    leaves the cache open. *)
Lemma open_stays_open (s : Cache) (key : string) (value : any) (cost n : Z) :
  running s = true →
  (∃ r s', Cache_Get key (Some s) = Ret r (Some s') ∧ running s' = true)
  ∧ (∃ r s', Cache_SetWithCost key value cost (Some s) = Ret r (Some s')
             ∧ running s' = true)
  ∧ (∃ s', Cache_Delete key (Some s) = Ret tt (Some s') ∧ running s' = true)
  ∧ (∃ s', Cache_Wait (Some s) = Ret tt (Some s') ∧ running s' = true)
  ∧ (∃ s', Cache_Clear (Some s) = Ret tt (Some s') ∧ running s' = true)
  ∧ (∃ s', Cache_SetCapacity n (Some s) = Ret tt (Some s') ∧ running s' = true).
Proof.
  intros H. destruct (running_inv s H) as (Hc & Hp & Hb & Hs).
  repeat split.
  - unfold Cache_Get. rewrite Hc.
    destruct (keyToHash s key) as [keyHash conflictHash].
    destruct (ringBuffer_Push keyHash (getBuf s) (policy s) (c_Metrics s))
      as [[r p] mt].
    cbn [store with_Metrics with_policy with_getBuf].
    destruct (store_Get keyHash conflictHash (store s)) as [v ok].
    destruct ok; eexists _, _; (split; [reflexivity|]);
      unfold running; cbn; rewrite Hc, Hp, Hb, Hs; reflexivity.
  - destruct (store_Update (setItem s key value cost) (store s))
      as [[prev ok] st] eqn:EU.
    destruct ok.
    + rewrite (SetWithCost_update s key value cost prev st H EU).
      eexists _, _. split; [reflexivity|].
      pose proof (Cache_onExit_frame prev (with_store st s)) as HF.
      destruct HF as (F1&F2&F3&F4&_). cbn in F1, F2, F3, F4.
      destruct (setBuf_full s); unfold running, enqueue; cbn;
        rewrite ?F1, F2, F3, F4, Hc, Hp, Hb, Hs; reflexivity.
    + unfold Cache_SetWithCost. rewrite Hc. unfold setItem in EU.
      destruct (keyToHash s key) as [keyHash conflictHash]. cbn [fst snd] in EU.
      rewrite EU, Hb.
      destruct (setBuf_full s); cbn; eexists _, _; (split; [reflexivity|]);
        unfold running, enqueue; cbn; rewrite Hc, Hp, Hb, Hs; reflexivity.
  - destruct (Cache_Delete_running s key H)
      as (s0 & s1 & pre & _ & _ & _ & HDel & HF & _ & Hcl & _).
    exists s1. split; [exact HDel|].
    destruct HF as (_ & E2 & E3 & E4 & _). cbn in E2, E3, E4.
    unfold running. rewrite E2, E3, E4, Hcl, Hc, Hp, Hs. reflexivity.
  - rewrite (Cache_Wait_running s H). eexists. split; [reflexivity|].
    destruct (handle_frame (buf (setBuf s) ++ [syncItem]) s)
      as (_ & E2 & E3 & E4 & _).
    unfold running. cbn. rewrite E2, E3, E4, Hc, Hp, Hs. reflexivity.
  - destruct (Cache_Clear_running s H) as (s1 & HC & Hr & _).
    exists s1. auto.
  - unfold Cache_SetCapacity. eexists. split; [reflexivity|].
    unfold running. cbn. rewrite Hc, Hp, Hb, Hs. reflexivity.
Qed.

(** ** Close *)

(** [Close] on an open cache makes one call, the stop of the
    processor, and leaves store and policy as they were: the [Clear]
    it calls finds the cache already marked closed and returns. *)
Lemma Close_leaves_store (s : Cache) :
  running s = true →
  ∃ s', Cache_Close (Some s) = Ret tt (Some s')
    ∧ store s' = store s ∧ policy s' = policy s
    ∧ buf (setBuf s') = buf (setBuf s)
    ∧ calls s' = calls s ++ [ProcessorStopped].
Proof.
  intros H. destruct (running_inv s H) as (Hc & Hp & Hb & Hs).
  unfold Cache_Close. rewrite Hc.
  unfold bind at 1. unfold Cache_Clear. cbn.
  unfold bind, stopProcessor. cbn. rewrite Hs, Hp. cbn. rewrite Hs, Hb. cbn.
  eexists. split; [reflexivity|]. repeat split.
Qed.

(** ** The exit callback on a delete *)

Lemma onExitCalls_nil (cfg : Config) : onExitCalls cfg None = [].
Proof. unfold onExitCalls. destruct (OnExit cfg); reflexivity. Qed.

Lemma store_Del_again (keyHash conflictHash : Z) (m : gmap Z storeItem) :
  store_Del keyHash conflictHash (store_Del keyHash conflictHash m).2
  = ((0, None), (store_Del keyHash conflictHash m).2).
Proof.
  unfold store_Del.
  destruct (m !! keyHash) as [it|] eqn:E; cbn [snd].
  - destruct ((conflictHash =? 0) || (conflictHash =? sConflict it)) eqn:Em;
      cbn [snd].
    + rewrite lookup_delete_eq. reflexivity.
    + rewrite E, Em. reflexivity.
  - rewrite E. reflexivity.
Qed.

(** X12: [Delete] then [Wait], with nothing else queued: the exit callback
    runs for the value [Delete] removed from the store, in the caller,
    and not again when the processor handles the delete item. *)
Lemma Delete_exit_once (s : Cache) (key : string) :
  running s = true →
  buf (setBuf s) = [] →
  ∃ s', (Cache_Delete key >> Cache_Wait) (Some s) = Ret tt (Some s')
    ∧ calls s'
      = calls s
        ++ onExitCalls (config s)
             (store_Del (keyToHash s key).1 (keyToHash s key).2 (store s)).1.2
        ++ [CallDone].
Proof.
  intros H Hbuf. destruct (running_inv s H) as (Hc & Hp & Hb & Hs).
  assert (Hfull : setBuf_full s = false)
    by (unfold setBuf_full; rewrite Hbuf; reflexivity).
  unfold bind, Cache_Delete. rewrite Hc.
  destruct (keyToHash s key) as [keyHash conflictHash]. cbn [fst snd].
  pose proof (store_Del_again keyHash conflictHash (store s)) as HA.
  destruct (store_Del keyHash conflictHash (store s)) as [[cf prev] st].
  cbn [fst snd] in *.
  rewrite Cache_onExit_calls. cbn [config with_store].
  unfold send. cbn [setBuf logCalls with_store]. rewrite Hb.
  unfold setBuf_full. cbn [setBuf logCalls with_store]. fold (setBuf_full s).
  rewrite Hfull.
  set (s1 := enqueue (deleteItem keyHash conflictHash)
               (logCalls (onExitCalls (config s) prev) (with_store st s))).
  assert (Hrun1 : running s1 = true)
    by (subst s1; unfold running, enqueue; cbn; rewrite Hc, Hp, Hb, Hs;
        reflexivity).
  rewrite (Cache_Wait_running s1 Hrun1).
  eexists. split; [reflexivity|].
  subst s1. unfold enqueue. cbn [setBuf with_setBuf logCalls with_store buf].
  rewrite Hbuf. rewrite handle_with_setBuf. cbn [calls with_setBuf app].
  cbn [handle fold_left]. cbn [processItem syncItem wg calls logCall].
  unfold processItem, deleteItem, itemCost. cbn [wg flag Cost].
  replace ((0 =? 0) && negb (bool_decide (itemDelete = itemDelete)))
    with false by reflexivity.
  cbn [cost logCalls with_store].
  destruct (cost s) as [f|];
    cbn [ignoreInternalCost logCalls with_store];
    destruct (ignoreInternalCost s);
    cbn [negb flag set_Cost Key Conflict store with_policy logCalls with_store];
    rewrite HA; rewrite Cache_onExit_calls, onExitCalls_nil;
    cbn [calls logCalls with_store with_policy];
    rewrite app_nil_r, <- app_assoc; reflexivity.
Qed.

(** ** When an item is kept *)

(** With nothing queued, an update in place is kept. *)
Lemma keepsItem_update (s : Cache) (key : string) (value : any) (cost : Z) :
  buf (setBuf s) = [] →
  (store_Update (setItem s key value cost) (store s)).1.2 = true →
  keepsItem s key value cost = true.
Proof.
  intros Hbuf. unfold keepsItem. set (i := setItem s key value cost).
  unfold store_Update.
  destruct (store s !! Key i) as [it|]; [|discriminate].
  destruct (sConflict it =? Conflict i); [|discriminate].
  intros _. rewrite Hbuf. cbn [handle fold_left].
  destruct (Cache_onExit_fields (sValue it)
              (with_store (<[Key i := mkStoreItem (Key i) (Conflict i)
                                        (Value i) (Cost i)]> (store s)) s))
    as (-> & _).
  cbn [store with_store]. unfold store_Get. rewrite lookup_insert_eq.
  cbn [sConflict sValue]. rewrite Z.eqb_refl.
  apply bool_decide_eq_true_2. reflexivity.
Qed.

(** With nothing queued, a new item for which there is room is kept. *)
Lemma keepsItem_room (s : Cache) (key : string) (value : any) (cost0 : Z) :
  buf (setBuf s) = [] →
  (store_Update (setItem s key value cost0) (store s)).1.2 = false →
  let charged := Cost (itemCost (setItem s key value cost0) s).1 in
  charged ≤ maxCost (policy s) →
  used (policy s) + charged ≤ maxCost (policy s) →
  keepsItem s key value cost0 = true.
Proof.
  intros Hbuf HU charged H1 H2. unfold keepsItem.
  set (i := setItem s key value cost0) in *.
  destruct (store_Update i (store s)) as [[prev ok] st]. cbn [fst snd] in HU.
  subst ok. rewrite Hbuf. cbn [handle fold_left].
  assert (Hfull : setBuf_full s = false)
    by (unfold setBuf_full; rewrite Hbuf; reflexivity).
  rewrite Hfull. cbn [negb andb].
  assert (Hpol : policy (itemCost i s).2 = policy s).
  { unfold itemCost.
    destruct (cost s) as [f|];
      [destruct ((Cost i =? 0) && negb (bool_decide (flag i = itemDelete)))|];
      cbn; destruct (ignoreInternalCost s); reflexivity. }
  rewrite Hpol. fold charged. unfold policy_Add.
  assert (E1 : (charged >? maxCost (policy s)) = false) by lia. rewrite E1.
  destruct (size (keyCosts (policy s))); cbn [makeRoom];
    (assert (E2 : (used (policy s) + charged >? maxCost (policy s)) = false)
       by lia); rewrite E2; reflexivity.
Qed.

End Facts.

(** * The properties on the reference runtime *)

Lemma NewCache_refConfig (maxCost bufferItems : Z) (costfn : option (any → Z))
    (ignoreInternalCost : bool) :
  maxCost ≠ 0 → bufferItems ≠ 0 →
  NewCache (refConfig maxCost bufferItems costfn ignoreInternalCost)
  = (Some (refCache maxCost bufferItems costfn ignoreInternalCost), None).
Proof.
  intros H1 H2. unfold NewCache, refConfig. cbn.
  rewrite (proj2 (Z.eqb_neq _ _) H1), (proj2 (Z.eqb_neq _ _) H2). reflexivity.
Qed.

(** ** Capacity *)

(** The bound of C1 fails across operations.  Three items of cost 1
    are stored and the capacity is lowered to 1: [UsedCapacity] is 3,
    above 1 + 1.  Four items of cost 1 are stored and each is set
    again at cost 5: [UsedCapacity] is 20, above 10 + 5. *)
Lemma used_exceeds_bound :
  returned ((lowerCapacity >> Cache_UsedCapacity) (Some cache10)) = Some 3
  ∧ returned ((lowerCapacity >> Cache_MaxCapacity) (Some cache10)) = Some 1
  ∧ ¬ (3 ≤ 1 + 1)
  ∧ returned ((raiseCosts >> Cache_UsedCapacity) (Some cache10)) = Some 20
  ∧ returned ((raiseCosts >> Cache_MaxCapacity) (Some cache10)) = Some 10
  ∧ ¬ (20 ≤ 10 + 5).
Proof.
  repeat split; try (vm_compute; reflexivity); lia.
Qed.

(** With "k" in a cache of capacity 1 and "j" read twice, the set of
    "j" is added and evicts "k". *)
Lemma admission_restores_bound_witness :
  let i := setItem cache1kj "j" (Some "other"%string) 1 in
  wg i = false ∧ flag i = itemNew
  ∧ (policy_Add (Key (itemCost i cache1kj).1) (Cost (itemCost i cache1kj).1)
       (policy (itemCost i cache1kj).2) (c_Metrics (itemCost i cache1kj).2)).1.1.2
    = true
  ∧ ∃ usedCap maxCap,
      Cache_UsedCapacity (Some (processItem i cache1kj))
      = Ret usedCap (Some (processItem i cache1kj))
      ∧ Cache_MaxCapacity (Some (processItem i cache1kj))
        = Ret maxCap (Some (processItem i cache1kj))
      ∧ usedCap ≤ maxCap.
Proof.
  intros i.
  split; [reflexivity|]. split; [reflexivity|].
  split; [vm_compute; reflexivity|].
  destruct (admission_restores_bound i cache1kj)
    as (usedCap & maxCap & HU & HM & _ & Hle & _);
    [reflexivity | reflexivity | vm_compute; reflexivity |].
  exists usedCap, maxCap. auto.
Defined.

(** ** Set, Wait, Get *)

(** C2 fails when the set updates an entry in place behind a queued
    admission: the set of "k" returns true, nothing is rejected, yet
    the admission of "j" evicts "k" before [Wait] returns, and [Get]
    does not find it. *)
Lemma update_lost_behind_admission :
  returned (updateBehindAdmission (Some cache1)) = Some true
  ∧ option_map calls (after (updateBehindAdmission (Some cache1)))
    = Some [ProcessorStarted; CallDone; CallOnExit "old"%string;
            CallOnEvict (setItem cache1 "k" (Some "new"%string) 1);
            CallOnExit "new"%string; CallDone]
  ∧ returned ((updateBehindAdmission >> Cache_Get "k") (Some cache1))
    = Some (None, false).
Proof. repeat split; vm_compute; reflexivity. Qed.

Lemma Set_Wait_Get_witness :
  running cache10 = true
  ∧ keepsItem cache10 "a" (Some "v1"%string) 1 = true
  ∧ returned ((Cache_SetWithCost "a" (Some "v1"%string) 1
               >> Cache_Wait >> Cache_Get "a") (Some cache10))
    = Some (Some "v1"%string, true).
Proof.
  split; [reflexivity|]. split; [vm_compute; reflexivity|].
  destruct (Set_Wait_Get cache10 "a" (Some "v1"%string) 1) as (s' & _ & H);
    [reflexivity | vm_compute; reflexivity |].
  rewrite H. reflexivity.
Defined.

(** ** SetWithCost *)

Lemma SetWithCost_result_witness :
  running cache10full = true
  ∧ returned (Cache_SetWithCost "b" (Some "v2"%string) 1 (Some cache10full))
    = Some false
  ∧ ∃ s', after (Cache_SetWithCost "b" (Some "v2"%string) 1 (Some cache10full))
          = Some s'
          ∧ Metrics_SetsDropped (c_Metrics s') = 1.
Proof.
  split; [vm_compute; reflexivity|].
  pose proof (SetWithCost_result cache10full "b" (Some "v2"%string) 1) as T.
  cbv zeta in T. destruct T as (s' & H1 & _ & H3); [vm_compute; reflexivity|].
  rewrite H1. cbn [returned after]. split.
  - vm_compute. reflexivity.
  - exists s'. split; [reflexivity|]. rewrite H3. vm_compute. reflexivity.
Defined.

(** ** Close *)

(** C4 fails for the accessors: after [Close], [MaxCapacity] still
    returns the capacity, 10, and [SetCapacity] still changes it. *)
Lemma accessors_after_Close :
  returned ((Cache_Close >> Cache_MaxCapacity) (Some cache10)) = Some 10
  ∧ returned ((Cache_Close >> Cache_SetCapacity 5 >> Cache_MaxCapacity)
                (Some cache10)) = Some 5.
Proof. split; vm_compute; reflexivity. Qed.

Lemma Close_then_guarded_noop_witness :
  running cache10a = true
  ∧ ∃ s', Cache_Close (Some cache10a) = Ret tt (Some s')
        ∧ Cache_Close (Some s') = Ret tt (Some s')
        ∧ Cache_Get "a" (Some s') = Ret (None, false) (Some s').
Proof.
  split; [vm_compute; reflexivity|].
  destruct (Close_then_guarded_noop cache10a "a" None 0)
    as (s' & H1 & _ & H2 & H3 & _); [vm_compute; reflexivity|].
  exists s'. auto.
Defined.

(** C6 on [Close]: "a" is stored with value "v1" and the cache is
    closed.  [Close] makes no call but the stop of the processor: the
    exit callback does not run for "v1", which is still in the store.
    [Clear] in its place runs the evict and exit callbacks for it. *)
Lemma Close_runs_no_exit :
  NewCache (refConfig 10 64 None true) = (Some cache10, None)
  ∧ option_map calls (after (setThenClose (Some cache10)))
    = Some [ProcessorStarted; CallDone; ProcessorStopped]
  ∧ returned ((setThenClose >> Cache_Len) (Some cache10)) = Some 1%nat
  ∧ option_map calls (after (setThenClear (Some cache10)))
    = Some [ProcessorStarted; CallDone; ProcessorStopped;
            CallOnEvict (setItem cache10 "a" (Some "v1"%string) 1);
            CallOnExit "v1"%string; ProcessorStarted].
Proof.
  split; [apply NewCache_refConfig; lia|].
  repeat split; vm_compute; reflexivity.
Qed.

(** ** Clear *)

Lemma Clear_then_Wait_witness :
  running cache10ab = true
  ∧ ∃ s2, (Cache_Clear >> Cache_Wait) (Some cache10ab) = Ret tt (Some s2)
        ∧ Cache_Len (Some s2) = Ret 0%nat (Some s2)
        ∧ Cache_UsedCapacity (Some s2) = Ret 0 (Some s2).
Proof.
  split; [vm_compute; reflexivity|].
  destruct (Clear_then_Wait cache10ab)
    as (s1 & s2 & _ & _ & _ & _ & _ & _ & _ & _ & H1 & H2 & H3);
    [vm_compute; reflexivity|].
  exists s2. auto.
Defined.

(** ** Lazy cost *)

(** C8 fails as stated.  With internal cost not ignored (the default)
    the charge for "xxx" is 3 + [CacheItemSize], here 35; with a
    capacity of 2 the item is rejected and nothing is used. *)
Lemma lazy_cost_not_three :
  NewCache (refConfig 100 64 (Some lenCost) false)
  = (Some (refCache 100 64 (Some lenCost) false), None)
  ∧ returned ((setXXX >> Cache_UsedCapacity)
                (Some (refCache 100 64 (Some lenCost) false))) = Some 35
  ∧ NewCache (refConfig 2 64 (Some lenCost) true)
    = (Some (refCache 2 64 (Some lenCost) true), None)
  ∧ returned ((setXXX >> Cache_UsedCapacity)
                (Some (refCache 2 64 (Some lenCost) true))) = Some 0.
Proof.
  split; [apply NewCache_refConfig; lia|].
  split; [vm_compute; reflexivity|].
  split; [apply NewCache_refConfig; lia|].
  vm_compute; reflexivity.
Qed.

Lemma lazy_cost_once_witness :
  let config := refConfig 10 64 (Some lenCost) true in
  NumCounters config ≠ 0 ∧ MaxCost config ≠ 0 ∧ BufferItems config ≠ 0
  ∧ cfg_Cost config = Some lenCost
  ∧ lenCost (Some "xxx"%string) ≤ MaxCost config
  ∧ ∃ c s',
      NewCache config = (Some c, None)
      ∧ (Cache_Set "a" (Some "xxx"%string) >> Cache_Wait >> Cache_UsedCapacity)
          (Some c)
        = Ret 3 (Some s')
      ∧ calls s' = [ProcessorStarted; CallCost (Some "xxx"%string); CallDone].
Proof.
  intros config.
  assert (H1 : NumCounters config ≠ 0) by (cbn; lia).
  assert (H2 : MaxCost config ≠ 0) by (cbn; lia).
  assert (H3 : BufferItems config ≠ 0) by (cbn; lia).
  assert (H4 : lenCost (Some "xxx"%string) ≤ MaxCost config) by (cbn; lia).
  repeat (split; [assumption || reflexivity|]).
  exact (lazy_cost_once config lenCost "a" (Some "xxx"%string)
           H1 H2 H3 eq_refl H4).
Defined.

(** ** Delete *)

Lemma Delete_Wait_Get_witness :
  running cache10a = true
  ∧ returned (Cache_Get "a" (Some cache10a)) = Some (Some "v1"%string, true)
  ∧ returned ((Cache_Delete "a" >> Cache_Wait >> Cache_Get "a") (Some cache10a))
    = Some (None, false).
Proof.
  split; [vm_compute; reflexivity|]. split; [vm_compute; reflexivity|].
  pose proof (Delete_Wait_Get cache10a "a") as T. cbv zeta in T.
  destruct T as (s0 & s1 & s2 & pre & _ & _ & _ & _ & _ & _ & _ & H);
    [vm_compute; reflexivity|].
  rewrite H. reflexivity.
Defined.

(** * Further properties of the code *)

Section Coverage.
Context `{RT : Runtime} `{SK : Sketch}.

(** ** Metrics *)

Lemma sumZ_ext (f g : nat → Z) (l : list nat) :
  (∀ j, f j = g j) → sumZ f l = sumZ g l.
Proof.
  intros H. induction l as [|x l IH]; cbn; [reflexivity|].
  rewrite H, IH. reflexivity.
Qed.

Lemma Metrics_get_add_other (t t' : metricType) (hash delta : Z)
    (p : option Metrics) :
  t' ≠ t → Metrics_get t' (Metrics_add t hash delta p) = Metrics_get t' p.
Proof.
  intros Hne. destruct p as [m|]; [|reflexivity].
  unfold Metrics_add. rewrite !Metrics_get_sum. cbn [all].
  f_equal. apply sumZ_ext. intros j.
  rewrite decide_False by exact Hne. reflexivity.
Qed.

(** X1: [Metrics.add] and [Metrics.get]: an add of [delta] to a metric
    raises the reading of that metric by [delta], modulo 2^64,
    whatever the hash that picks the counter, and leaves the reading
    of every other metric as it was; on a nil [*Metrics] the add does
    nothing and every reading is 0. *)
Theorem Metrics_add_then_get (t t' : metricType) (hash delta : Z)
    (p : option Metrics) :
  Metrics_get t' (Metrics_add t hash delta p)
  = match p with
    | None => 0
    | Some _ =>
        if decide (t' = t) then wrap_uint64 (Metrics_get t' p + delta)
        else Metrics_get t' p
    end.
Proof.
  destruct p as [m|]; [|reflexivity].
  destruct (decide (t' = t)) as [->|Hne].
  - apply Metrics_get_add.
  - apply Metrics_get_add_other. exact Hne.
Qed.

(** X2: [Metrics.Clear] and [newMetrics]: after a clear every metric reads
    0, as it does on new metrics, and counting starts again from 0: an
    add of [delta] then reads [delta] modulo 2^64. *)
Theorem Metrics_Clear_resets (t : metricType) (hash delta : Z)
    (p : option Metrics) :
  Metrics_get t (Metrics_Clear p) = 0
  ∧ Metrics_get t (Some newMetrics) = 0
  ∧ Metrics_get t (Metrics_add t hash delta (Metrics_Clear p))
    = match p with
      | None => 0
      | Some _ => wrap_uint64 delta
      end.
Proof.
  split; [apply Metrics_Clear_get|].
  split; [exact (Metrics_Clear_get t (Some newMetrics))|].
  destruct p as [m|]; [|reflexivity].
  cbn [Metrics_Clear]. rewrite Metrics_get_add.
  change (Metrics_get t (Some (mkMetrics (fun _ _ => 0))))
    with (Metrics_get t (Metrics_Clear (Some m))).
  rewrite Metrics_Clear_get. reflexivity.
Qed.

(** X3: [stringFor]: the eleven metrics have eleven different names, and
    "unidentified" is the name of exactly the numbers that are no
    metric. *)
Theorem stringFor_names (t1 t2 : metricType) (z : Z) :
  (stringFor (metricType_int t1) = stringFor (metricType_int t2) ↔ t1 = t2)
  ∧ (stringFor z = "unidentified"%string ↔ z < 0 ∨ doNotUse ≤ z).
Proof.
  split.
  - split; [|intros ->; reflexivity].
    destruct t1, t2; cbn; intros H; try reflexivity; discriminate H.
  - unfold stringFor, doNotUse. cbn [metricType_int].
    repeat match goal with
    | |- context [?a =? ?b] =>
        destruct (Z.eqb_spec a b); [split; [discriminate|lia]|]
    end.
    split; [lia|reflexivity].
Qed.

(** ** What leaves hits and misses alone *)

Lemma keepsHitMiss_refl (p : option Metrics) : keepsHitMiss p p.
Proof. repeat split; auto. Qed.

Lemma keepsHitMiss_trans (p1 p2 p3 : option Metrics) :
  keepsHitMiss p1 p2 → keepsHitMiss p2 p3 → keepsHitMiss p1 p3.
Proof.
  intros (A1 & A2 & A3) (B1 & B2 & B3).
  repeat split; try congruence; tauto.
Qed.

Lemma Metrics_add_keeps (t : metricType) (hash delta : Z) (p : option Metrics) :
  t ≠ hit → t ≠ miss → keepsHitMiss p (Metrics_add t hash delta p).
Proof.
  intros H1 H2. split; [|split].
  - destruct p; cbn; split; congruence.
  - apply Metrics_get_add_other. congruence.
  - apply Metrics_get_add_other. congruence.
Qed.

Lemma makeRoom_keeps (n : nat) (key cost : Z) (p : defaultPolicy)
    (mt : option Metrics) (victims : list Item) r p' mt' :
  makeRoom n key cost p mt victims = (r, p', mt') → keepsHitMiss mt mt'.
Proof.
  revert p mt victims.
  induction n as [|n IH]; intros p mt victims; cbn [makeRoom];
    (destruct (used p + cost >? maxCost p);
     [|intros [= <- <- <-]; apply keepsHitMiss_refl]);
    (destruct (minVictim (sketch p) (fillSample p)) as [[vkey vcost]|];
     [|intros [= <- <- <-]; apply keepsHitMiss_refl]);
    (destruct (tinyLFU_Estimate (sketch p) key
               >=? tinyLFU_Estimate (sketch p) vkey);
     [|intros [= <- <- <-]; apply keepsHitMiss_refl]).
  - intros [= <- <- <-]. apply keepsHitMiss_refl.
  - intros Hm. apply IH in Hm.
    eapply keepsHitMiss_trans; [|exact Hm].
    eapply keepsHitMiss_trans; apply Metrics_add_keeps; discriminate.
Qed.

Lemma policy_Add_keeps (key cost : Z) (p : defaultPolicy)
    (mt : option Metrics) r p' mt' :
  policy_Add key cost p mt = (r, p', mt') → keepsHitMiss mt mt'.
Proof.
  unfold policy_Add.
  destruct (cost >? maxCost p); [intros [= <- <- <-]; apply keepsHitMiss_refl|].
  destruct (makeRoom (size (keyCosts p)) key cost p mt [])
    as [[[vs ok] p1] mt1] eqn:E.
  apply makeRoom_keeps in E.
  destruct ok; intros [= <- <- <-]; exact E.
Qed.

Lemma itemCost_metrics (i : Item) (c : Cache) :
  c_Metrics (itemCost i c).2 = c_Metrics c.
Proof.
  unfold itemCost.
  destruct (cost c) as [f|];
    [destruct ((Cost i =? 0) && negb (bool_decide (flag i = itemDelete)))|];
    cbn; destruct (ignoreInternalCost c); reflexivity.
Qed.

Lemma evictVictims_metrics (l : list Item) (c : Cache) :
  c_Metrics (fold_left evictVictim l c) = c_Metrics c.
Proof.
  revert c. induction l as [|v l IH]; intros c; cbn; [reflexivity|].
  rewrite IH. unfold evictVictim.
  destruct (store_Del (Key v) 0 (store c)) as [[cf val] st].
  rewrite Cache_onEvict_calls. reflexivity.
Qed.

Lemma processItem_keeps (i : Item) (c : Cache) :
  keepsHitMiss (c_Metrics c) (c_Metrics (processItem i c)).
Proof.
  unfold processItem. destruct (wg i); [apply keepsHitMiss_refl|].
  pose proof (itemCost_metrics i c) as HM.
  destruct (itemCost i c) as [i' c']. cbn [snd] in HM. rewrite <- HM.
  destruct (flag i').
  - destruct (policy_Add (Key i') (Cost i') (policy c') (c_Metrics c'))
      as [[[victims added] p] mt] eqn:EA.
    apply policy_Add_keeps in EA. rewrite evictVictims_metrics.
    destruct added.
    + cbn [c_Metrics with_Metrics with_store with_policy].
      eapply keepsHitMiss_trans; [exact EA|].
      apply Metrics_add_keeps; discriminate.
    + rewrite Cache_onReject_calls. exact EA.
  - destruct (store_Del (Key i') (Conflict i')
                (store (with_policy (policy_Del (Key i') (policy c')) c')))
      as [[cf val] st].
    rewrite Cache_onExit_calls. apply keepsHitMiss_refl.
  - apply keepsHitMiss_refl.
Qed.

Lemma handle_keeps (l : list Item) (c : Cache) :
  keepsHitMiss (c_Metrics c) (c_Metrics (handle l c)).
Proof.
  unfold handle. revert c.
  induction l as [|i l IH]; intros c; cbn; [apply keepsHitMiss_refl|].
  eapply keepsHitMiss_trans; [apply processItem_keeps|apply IH].
Qed.

(** ** Get and the counters *)

(** [Get] on an open cache: the answer of the store, one push on the
    read ring, one hit or one miss; store, channels, flags and calls
    stay as they were. *)
Lemma Cache_Get_metrics (s : Cache) (key : string) :
  isClosed s = false →
  let keyHash := (keyToHash s key).1 in
  let r := store_Get keyHash (keyToHash s key).2 (store s) in
  ∃ s', Cache_Get key (Some s) = Ret r (Some s')
    ∧ c_Metrics s'
      = Metrics_add (if r.2 then hit else miss) keyHash 1
          (Metrics_add keepGets keyHash 1 (c_Metrics s))
    ∧ store s' = store s ∧ setBuf s' = setBuf s ∧ calls s' = calls s
    ∧ isClosed s' = isClosed s ∧ processing s' = processing s
    ∧ stop s' = stop s.
Proof.
  intros Hc keyHash r. subst keyHash r. unfold Cache_Get. rewrite Hc.
  destruct (keyToHash s key) as [keyHash conflictHash]. cbn [fst snd].
  unfold ringBuffer_Push.
  destruct (Z.of_nat (length (ring_data (getBuf s) ++ [keyHash]))
            >=? ring_capa (getBuf s));
    cbn [store with_Metrics with_policy with_getBuf];
    destruct (store_Get keyHash conflictHash (store s)) as [value ok];
    destruct ok; eexists; (split; [reflexivity|]); cbn; repeat split;
    exact Hc.
Qed.

Lemma wrap_uint64_idem (x : Z) : wrap_uint64 (wrap_uint64 x) = wrap_uint64 x.
Proof. unfold wrap_uint64. apply Zmod_mod. Qed.

Lemma wrap_uint64_add_l (x y : Z) :
  wrap_uint64 (wrap_uint64 x + y) = wrap_uint64 (x + y).
Proof. unfold wrap_uint64. apply Zplus_mod_idemp_l. Qed.

Lemma wrap_uint64_add_r (x y : Z) :
  wrap_uint64 (x + wrap_uint64 y) = wrap_uint64 (x + y).
Proof. unfold wrap_uint64. apply Zplus_mod_idemp_r. Qed.

(** X4: [Get]: with metrics enabled, on an open cache, a [Get] that finds
    the key raises the hits by one and leaves the misses, one that
    does not raises the misses by one and leaves the hits (modulo
    2^64); either way the store, the set buffer and the calls made
    stay as they were. *)
Theorem Get_hit_or_miss (s : Cache) (key : string) (m : Metrics) :
  isClosed s = false →
  c_Metrics s = Some m →
  ∃ value ok s',
    Cache_Get key (Some s) = Ret (value, ok) (Some s')
    ∧ (value, ok) = store_Get (keyToHash s key).1 (keyToHash s key).2 (store s)
    ∧ Metrics_Hits (c_Metrics s')
      = (if ok then wrap_uint64 (Metrics_Hits (c_Metrics s) + 1)
         else Metrics_Hits (c_Metrics s))
    ∧ Metrics_Misses (c_Metrics s')
      = (if ok then Metrics_Misses (c_Metrics s)
         else wrap_uint64 (Metrics_Misses (c_Metrics s) + 1))
    ∧ store s' = store s ∧ setBuf s' = setBuf s ∧ calls s' = calls s.
Proof.
  intros Hc Hm.
  destruct (Cache_Get_metrics s key Hc) as (s' & HG & HM & Hst & Hb & Hcl & _).
  destruct (store_Get (keyToHash s key).1 (keyToHash s key).2 (store s))
    as [value ok] eqn:EG.
  exists value, ok, s'. split; [exact HG|]. split; [reflexivity|].
  unfold Metrics_Hits, Metrics_Misses.
  rewrite HM, Hm. cbn [snd].
  assert (∃ m1, Metrics_add keepGets (keyToHash s key).1 1 (Some m) = Some m1)
    as [m1 E1] by (eexists; reflexivity).
  assert (HH : Metrics_get hit (Some m1) = Metrics_get hit (Some m))
    by (rewrite <- E1; apply Metrics_get_add_other; discriminate).
  assert (HMi : Metrics_get miss (Some m1) = Metrics_get miss (Some m))
    by (rewrite <- E1; apply Metrics_get_add_other; discriminate).
  rewrite E1.
  destruct ok; rewrite Metrics_get_add;
    rewrite !Metrics_get_add_other by discriminate;
    rewrite ?HH, ?HMi; repeat split; assumption.
Qed.

(** ** One call on an open cache *)

Lemma running_intro (s : Cache) :
  isClosed s = false → processing s = true →
  closed (setBuf s) = false → closed (stop s) = false → running s = true.
Proof. unfold running. intros -> -> -> ->. reflexivity. Qed.

Lemma enqueue_bounded (i : Item) (c : Cache) :
  setBuf_full c = false → bufBounded (enqueue i c).
Proof.
  unfold setBuf_full, bufBounded, enqueue. cbn [setBuf with_setBuf buf].
  intros H. apply Z.leb_gt in H. rewrite length_app. cbn. lia.
Qed.

Lemma send_running (i : Item) (c : Cache) :
  running c = true →
  ∃ c', send i c = Ret tt (Some c')
    ∧ running c' = true
    ∧ (bufBounded c → bufBounded c')
    ∧ keepsHitMiss (c_Metrics c) (c_Metrics c').
Proof.
  intros H. destruct (running_inv c H) as (Hc & Hp & Hb & Hs).
  unfold send. rewrite Hb.
  destruct (setBuf_full c) eqn:Hfull.
  - destruct (setBuf_full_nonempty c Hfull) as (x & rest & Hbuf).
    unfold processItems_step. rewrite Hp, Hbuf.
    rewrite processItem_with_setBuf.
    eexists. split; [reflexivity|].
    destruct (processItem_frame x c) as (_ & E2 & E3 & E4 & _).
    split; [|split].
    + unfold running, enqueue. cbn. rewrite E2, E3, E4, Hc, Hp, Hb, Hs.
      reflexivity.
    + unfold bufBounded, enqueue. cbn [setBuf with_setBuf buf].
      rewrite Hbuf, length_app. cbn [length]. lia.
    + cbn [c_Metrics enqueue with_setBuf]. apply processItem_keeps.
  - eexists. split; [reflexivity|]. split; [|split].
    + unfold running, enqueue. cbn. rewrite Hc, Hp, Hb, Hs. reflexivity.
    + intros _. apply enqueue_bounded. exact Hfull.
    + apply keepsHitMiss_refl.
Qed.

Lemma bufBounded_same (c c' : Cache) :
  setBuf c' = setBuf c → bufBounded c → bufBounded c'.
Proof. unfold bufBounded. intros ->. auto. Qed.

Lemma keepsHitMiss_same (p p' : option Metrics) : p' = p → keepsHitMiss p p'.
Proof. intros ->. apply keepsHitMiss_refl. Qed.

Lemma SetWithCost_running (s : Cache) (key : string) (value : any) (cost0 : Z) :
  running s = true →
  ∃ r s', Cache_SetWithCost key value cost0 (Some s) = Ret r (Some s')
    ∧ running s' = true
    ∧ (bufBounded s → bufBounded s')
    ∧ keepsHitMiss (c_Metrics s) (c_Metrics s').
Proof.
  intros H. destruct (running_inv s H) as (Hc & Hp & Hb & Hs).
  destruct (store_Update (setItem s key value cost0) (store s))
    as [[prev ok] st] eqn:EU.
  destruct ok.
  - rewrite (SetWithCost_update s key value cost0 prev st H EU).
    eexists _, _. split; [reflexivity|].
    destruct (Cache_onExit_fields prev (with_store st s))
      as (_ & _ & F3 & F4 & F5 & F6 & F7 & _).
    cbn [with_store setBuf c_Metrics isClosed processing stop] in F3, F4, F5, F6, F7.
    destruct (setBuf_full s) eqn:Hfull.
    + split; [|split].
      * apply running_intro; congruence.
      * apply bufBounded_same. exact F3.
      * apply keepsHitMiss_same. exact F4.
    + split; [|split].
      * apply running_intro; unfold enqueue; cbn; congruence.
      * intros _. apply enqueue_bounded. unfold setBuf_full. rewrite F3.
        exact Hfull.
      * apply keepsHitMiss_same. exact F4.
  - unfold Cache_SetWithCost. rewrite Hc. unfold setItem in EU.
    destruct (keyToHash s key) as [keyHash conflictHash]. cbn [fst snd] in EU.
    rewrite EU, Hb.
    destruct (setBuf_full s) eqn:Hfull; cbn [negb bool_decide flag];
      eexists _, _; (split; [reflexivity|]).
    + split; [|split].
      * apply running_intro; assumption.
      * apply bufBounded_same. reflexivity.
      * cbn [c_Metrics with_Metrics]. apply Metrics_add_keeps; discriminate.
    + split; [|split].
      * apply running_intro; unfold enqueue; cbn; assumption.
      * intros _. apply enqueue_bounded. exact Hfull.
      * apply keepsHitMiss_refl.
Qed.

Lemma Metrics_add_lookup (ok : bool) (hash : Z) (p : option Metrics) :
  let p' := Metrics_add (if ok then hit else miss) hash 1
              (Metrics_add keepGets hash 1 p) in
  (p' = None ↔ p = None)
  ∧ wrap_uint64 (Metrics_get hit p' + Metrics_get miss p')
    = wrap_uint64 (Metrics_get hit p + Metrics_get miss p + counted p 1).
Proof.
  destruct p as [m|]; [|cbn; split; [tauto|reflexivity]].
  cbn zeta. split; [split; discriminate|].
  assert (∃ m1, Metrics_add keepGets hash 1 (Some m) = Some m1)
    as [m1 E1] by (eexists; reflexivity).
  assert (HH : Metrics_get hit (Some m1) = Metrics_get hit (Some m))
    by (rewrite <- E1; apply Metrics_get_add_other; discriminate).
  assert (HMi : Metrics_get miss (Some m1) = Metrics_get miss (Some m))
    by (rewrite <- E1; apply Metrics_get_add_other; discriminate).
  rewrite E1. cbn [counted].
  destruct ok; rewrite Metrics_get_add;
    rewrite Metrics_get_add_other by discriminate; rewrite HH, HMi.
  - rewrite wrap_uint64_add_l. f_equal. lia.
  - rewrite wrap_uint64_add_r. f_equal. lia.
Qed.

(** One call on an open cache returns; the cache stays open, or is
    shut by [Close]; a set buffer within its capacity stays within
    it; the metrics stay enabled or disabled. *)
Lemma perform_running (o : op) (s : Cache) :
  running s = true →
  ∃ s', perform o (Some s) = Ret tt (Some s')
    ∧ (if closes [o] then shut s' = true else running s' = true)
    ∧ (bufBounded s → bufBounded s')
    ∧ (c_Metrics s' = None ↔ c_Metrics s = None)
    ∧ countsAs o (c_Metrics s) (c_Metrics s').
Proof.
  intros H. destruct (running_inv s H) as (Hc & Hp & Hb & Hs).
  destruct o as [key|key value|key value cost0|key| | | |n|];
    cbn [perform closes existsb orb countsAs].
  - destruct (Cache_Get_metrics s key Hc)
      as (s' & HG & HM & _ & HB & _ & E1 & E2 & E3).
    exists s'. unfold discard, bind. rewrite HG. split; [reflexivity|].
    split; [apply running_intro; congruence|].
    split; [apply bufBounded_same; exact HB|].
    rewrite HM. apply Metrics_add_lookup.
  - destruct (SetWithCost_running s key value 0 H)
      as (r & s' & HS & Hr & HB & HK & HH & HMi).
    exists s'. unfold discard, bind, Cache_Set. rewrite HS.
    split; [reflexivity|]. tauto.
  - destruct (SetWithCost_running s key value cost0 H)
      as (r & s' & HS & Hr & HB & HK & HH & HMi).
    exists s'. unfold discard, bind. rewrite HS.
    split; [reflexivity|]. tauto.
  - unfold Cache_Delete. rewrite Hc.
    destruct (keyToHash s key) as [keyHash conflictHash].
    destruct (store_Del keyHash conflictHash (store s)) as [[cf prev] st].
    destruct (Cache_onExit_fields prev (with_store st s))
      as (_ & _ & F3 & F4 & F5 & F6 & F7 & _).
    cbn [with_store setBuf c_Metrics isClosed processing stop] in F3, F4, F5, F6, F7.
    destruct (send_running (deleteItem keyHash conflictHash)
                (Cache_onExit prev (with_store st s)))
      as (s' & HS & Hr & HB & HK & HH & HMi);
      [apply running_intro; congruence|].
    exists s'. split; [exact HS|]. split; [exact Hr|].
    split; [intros HBs; apply HB; revert HBs; apply bufBounded_same; exact F3|].
    rewrite <- F4. tauto.
  - rewrite (Cache_Wait_running s H). eexists. split; [reflexivity|].
    destruct (handle_frame (buf (setBuf s) ++ [syncItem]) s)
      as (_ & E2 & E3 & E4 & _).
    destruct (handle_keeps (buf (setBuf s) ++ [syncItem]) s) as (HK & HH & HMi).
    split; [apply running_intro; cbn; congruence|].
    split; [intros _; unfold bufBounded, setBufSize; cbn; lia|].
    cbn [c_Metrics with_setBuf]. tauto.
  - destruct (Cache_Clear_running s H) as (s1 & HC & Hr & Hbuf & _ & _ & HM & _).
    exists s1. split; [exact HC|]. split; [exact Hr|].
    split; [intros _; unfold bufBounded, setBufSize; rewrite Hbuf; cbn; lia|].
    split; [|exact I].
    rewrite HM. destruct (c_Metrics s); cbn; split; congruence.
  - unfold Cache_Close. rewrite Hc.
    unfold bind at 1. unfold Cache_Clear. cbn.
    unfold bind, stopProcessor. cbn. rewrite Hs, Hp. cbn. rewrite Hs, Hb. cbn.
    eexists. split; [reflexivity|]. cbn. repeat split; auto.
  - unfold Cache_SetCapacity. eexists. split; [reflexivity|].
    split; [apply running_intro; assumption|]. cbn. repeat split; auto.
  - unfold processorTurn, processItems_step. rewrite Hp.
    destruct (buf (setBuf s)) as [|x rest] eqn:Hbuf.
    + exists s. repeat split; auto.
    + rewrite processItem_with_setBuf. eexists. split; [reflexivity|].
      destruct (processItem_frame x s) as (_ & E2 & E3 & E4 & _).
      destruct (processItem_keeps x s) as (HK & HH & HMi).
      split; [apply running_intro; cbn; congruence|].
      split; [unfold bufBounded; cbn [setBuf with_setBuf buf]; rewrite Hbuf;
              cbn [length]; lia|].
      cbn [c_Metrics with_setBuf]. tauto.
Qed.

(** One call on a cache that was shut by [Close] returns and leaves
    it shut, with its store, buffer, metrics and calls as they
    were. *)
Lemma perform_shut (o : op) (s : Cache) :
  shut s = true →
  ∃ s', perform o (Some s) = Ret tt (Some s')
    ∧ shut s' = true
    ∧ store s' = store s ∧ setBuf s' = setBuf s
    ∧ c_Metrics s' = c_Metrics s ∧ calls s' = calls s.
Proof.
  intros H.
  assert (Hc : isClosed s = true ∧ processing s = false)
    by (unfold shut in H; destruct (isClosed s), (processing s);
        split; auto; discriminate).
  destruct Hc as [Hc Hp].
  destruct (closed_guarded_noop s "" None 0 Hc) as (E1 & _ & _ & _ & _ & E6 & E7).
  destruct o as [key|key value|key value cost0|key| | | |n|]; cbn [perform].
  - destruct (closed_guarded_noop s key None 0 Hc) as (_ & E & _).
    exists s. unfold discard, bind. rewrite E. repeat split; exact H.
  - destruct (closed_guarded_noop s key value 0 Hc) as (_ & _ & E & _).
    exists s. unfold discard, bind. rewrite E. repeat split; exact H.
  - destruct (closed_guarded_noop s key value cost0 Hc) as (_ & _ & _ & E & _).
    exists s. unfold discard, bind. rewrite E. repeat split; exact H.
  - destruct (closed_guarded_noop s key None 0 Hc) as (_ & _ & _ & _ & E & _).
    exists s. rewrite E. repeat split; exact H.
  - exists s. rewrite E7. repeat split; exact H.
  - exists s. rewrite E6. repeat split; exact H.
  - exists s. rewrite E1. repeat split; exact H.
  - unfold Cache_SetCapacity. eexists. split; [reflexivity|].
    unfold shut. cbn. rewrite Hc, Hp. repeat split.
  - unfold processorTurn, processItems_step. rewrite Hp.
    exists s. repeat split; exact H.
Qed.

(** ** Sequences of calls *)

Lemma run_shut (l : list op) (s : Cache) :
  shut s = true →
  ∃ s', run l (Some s) = Ret tt (Some s')
    ∧ shut s' = true
    ∧ store s' = store s ∧ setBuf s' = setBuf s
    ∧ c_Metrics s' = c_Metrics s ∧ calls s' = calls s.
Proof.
  revert s. induction l as [|o l IH]; intros s H; cbn [run].
  - exists s. repeat split; exact H.
  - destruct (perform_shut o s H) as (s1 & HP & H1 & A1 & A2 & A3 & A4).
    destruct (IH s1 H1) as (s' & HR & H' & B1 & B2 & B3 & B4).
    exists s'. unfold bind. rewrite HP.
    repeat split; congruence.
Qed.

Lemma closes_cons (o : op) (l : list op) :
  closes (o :: l) = if closes [o] then true else closes l.
Proof. destruct o; reflexivity. Qed.

Lemma run_running (l : list op) (s : Cache) :
  running s = true →
  ∃ s', run l (Some s) = Ret tt (Some s')
    ∧ (if closes l then shut s' = true else running s' = true)
    ∧ (bufBounded s → bufBounded s')
    ∧ (c_Metrics s' = None ↔ c_Metrics s = None)
    ∧ (closes l = false → clears l = false →
       wrap_uint64 (Metrics_get hit (c_Metrics s')
                    + Metrics_get miss (c_Metrics s'))
       = wrap_uint64 (Metrics_get hit (c_Metrics s)
                      + Metrics_get miss (c_Metrics s)
                      + counted (c_Metrics s) (countGets l))).
Proof.
  revert s. induction l as [|o l IH]; intros s H.
  - exists s. cbn. split; [reflexivity|]. split; [exact H|].
    split; [auto|]. split; [tauto|]. intros _ _. f_equal.
    destruct (c_Metrics s); cbn; lia.
  - destruct (perform_running o s H) as (s1 & HP & H1 & HB1 & HN1 & HC1).
    cbn [run]. unfold bind. rewrite HP.
    rewrite closes_cons.
    destruct (closes [o]) eqn:Eo.
    + destruct (run_shut l s1 H1) as (s' & HR & H' & _ & A2 & A3 & _).
      exists s'. split; [exact HR|]. split; [exact H'|].
      split; [intros HBs; apply (bufBounded_same s1); auto|].
      split; [rewrite A3; exact HN1|]. discriminate.
    + destruct (IH s1 H1) as (s' & HR & H' & HB' & HN' & HC').
      exists s'. split; [exact HR|]. split; [exact H'|].
      split; [auto|]. split; [tauto|].
      intros Hcl Hclr. cbn [clears existsb] in Hclr.
      apply orb_false_iff in Hclr. destruct Hclr as [Hclr1 Hclr].
      rewrite (HC' Hcl Hclr).
      assert (Hcnt : counted (c_Metrics s1) (countGets l)
                     = counted (c_Metrics s) (countGets l)).
      { destruct (c_Metrics s1), (c_Metrics s); cbn; try reflexivity.
        - destruct HN1 as [_ HN1]. discriminate (HN1 eq_refl).
        - destruct HN1 as [HN1 _]. discriminate (HN1 eq_refl). }
      rewrite Hcnt.
      destruct o; try discriminate Hclr1; cbn [countsAs countGets] in HC1 |- *.
      1:{ rewrite <- wrap_uint64_add_l, HC1, wrap_uint64_add_l.
          f_equal. destruct (c_Metrics s); cbn; lia. }
      all: destruct HC1 as [-> ->]; reflexivity.
Qed.

Lemma shut_not_running (s : Cache) : shut s = true → running s = false.
Proof.
  unfold shut, running. destruct (isClosed s), (processing s); cbn;
    intros; auto; discriminate.
Qed.

Lemma running_not_shut (s : Cache) : running s = true → shut s = false.
Proof.
  unfold shut, running. destruct (isClosed s), (processing s); cbn;
    intros; auto; discriminate.
Qed.

(** X5: No sequence of calls gets stuck: on an open cache every sequence
    of [Get], [Set], [SetWithCost], [Delete], [Wait], [Clear],
    [Close] and [SetCapacity] calls, interleaved in any way with turns
    of the processor, returns, without a panic and without a send or
    a handshake that blocks forever.  The cache ends open, its
    processor running, when the sequence holds no [Close], and closed
    with its processor stopped when it holds one. *)
Theorem calls_never_stuck (l : list op) (s : Cache) :
  running s = true →
  ∃ s', run l (Some s) = Ret tt (Some s')
    ∧ running s' = negb (closes l)
    ∧ shut s' = closes l.
Proof.
  intros H. destruct (run_running l s H) as (s' & HR & H' & _).
  exists s'. split; [exact HR|].
  destruct (closes l); cbn [negb].
  - split; [apply shut_not_running|]; exact H'.
  - split; [|apply running_not_shut]; exact H'.
Qed.

(** X6: [setBuf] never overflows: on an open cache whose set buffer holds
    at most [setBufSize] items, it still does after any sequence of
    calls and processor turns.  [SetWithCost] drops rather than
    queues on a full buffer, and the blocking sends of [Delete] and
    [Wait] go through only after the processor has taken an item. *)
Theorem setBuf_never_overflows (l : list op) (s : Cache) :
  running s = true →
  bufBounded s →
  ∃ s', run l (Some s) = Ret tt (Some s') ∧ bufBounded s'.
Proof.
  intros H HB. destruct (run_running l s H) as (s' & HR & _ & HB' & _).
  exists s'. split; [exact HR|]. apply HB'. exact HB.
Qed.

(** X7: Metrics are enabled or not at construction, for good: on a cache
    from [NewCache], after any sequence of calls, [c.Metrics] is nil
    exactly when [Config.Metrics] was false, and then [Hits], [Misses]
    and [Evictions] return 0. *)
Theorem metrics_fixed_at_construction (config0 : Config) (c : Cache)
    (l : list op) :
  NewCache config0 = (Some c, None) →
  ∃ s', run l (Some c) = Ret tt (Some s')
    ∧ (c_Metrics s' = None ↔ cfg_Metrics config0 = false)
    ∧ (cfg_Metrics config0 = false →
       Cache_Hits (Some s') = Ret 0 (Some s')
       ∧ Cache_Misses (Some s') = Ret 0 (Some s')
       ∧ Cache_Evictions (Some s') = Ret 0 (Some s')).
Proof.
  intros HN.
  assert (Hc : running c = true
               ∧ (c_Metrics c = None ↔ cfg_Metrics config0 = false)).
  { unfold NewCache in HN.
    destruct (NumCounters config0 =? 0); [discriminate|].
    destruct (MaxCost config0 =? 0); [discriminate|].
    destruct (BufferItems config0 =? 0); [discriminate|].
    injection HN as <-.
    destruct (cfg_Metrics config0); cbn; (split; [reflexivity|]);
      split; congruence. }
  destruct Hc as [Hrun HM].
  destruct (run_running l c Hrun) as (s' & HR & _ & _ & HN' & _).
  exists s'. split; [exact HR|]. split; [tauto|].
  intros Hoff. assert (E : c_Metrics s' = None) by tauto.
  unfold Cache_Hits, Cache_Misses, Cache_Evictions. rewrite E.
  repeat split.
Qed.

(** X8: Every [Get] is a hit or a miss: on an open cache, over any
    sequence of calls and processor turns with no [Clear] and no
    [Close], hits plus misses grows by the number of [Get] calls
    (modulo 2^64) when metrics are enabled, and stays 0 when they are
    not.  Nothing but [Get] touches the two counters. *)
Theorem gets_are_hits_or_misses (l : list op) (s : Cache) :
  running s = true →
  closes l = false →
  clears l = false →
  ∃ s', run l (Some s) = Ret tt (Some s')
    ∧ wrap_uint64 (Metrics_Hits (c_Metrics s') + Metrics_Misses (c_Metrics s'))
      = wrap_uint64 (Metrics_Hits (c_Metrics s) + Metrics_Misses (c_Metrics s)
                     + counted (c_Metrics s) (countGets l)).
Proof.
  intros H Hcl Hclr.
  destruct (run_running l s H) as (s' & HR & _ & _ & _ & HC).
  exists s'. split; [exact HR|]. apply HC; assumption.
Qed.

(** X9: A closed cache is inert: after [Close] on an open cache, whatever
    calls follow, the store, the set buffer, the metrics and the log
    of calls stay as [Close] left them.  In particular the items
    still queued at [Close] are never handled, and no callback is
    made for them or for the stored values. *)
Theorem closed_cache_is_inert (l : list op) (s : Cache) :
  running s = true →
  ∃ s1 s', Cache_Close (Some s) = Ret tt (Some s1)
    ∧ run l (Some s1) = Ret tt (Some s')
    ∧ shut s' = true
    ∧ store s' = store s
    ∧ buf (setBuf s') = buf (setBuf s)
    ∧ c_Metrics s' = c_Metrics s1
    ∧ calls s' = calls s ++ [ProcessorStopped].
Proof.
  intros H.
  destruct (Close_leaves_store s H) as (s1 & HC & A1 & _ & A3 & A4).
  destruct (perform_running OpClose s H) as (s1' & HC' & Hs1 & _).
  cbn [perform] in HC'. rewrite HC in HC'. injection HC' as <-.
  cbn [closes existsb orb] in Hs1.
  destruct (run_shut l s1 Hs1) as (s' & HR & H' & B1 & B2 & B3 & B4).
  exists s1, s'. repeat split; congruence.
Qed.

(** X10: [Wait] leaves nothing queued: after [Wait] on an open cache the
    set buffer is empty, a turn of the processor finds nothing to do,
    and a second [Wait] does nothing but the [Done] of its own sync
    item. *)
Theorem Wait_leaves_nothing_queued (s : Cache) :
  running s = true →
  ∃ s1, Cache_Wait (Some s) = Ret tt (Some s1)
    ∧ buf (setBuf s1) = []
    ∧ processorTurn (Some s1) = Ret tt (Some s1)
    ∧ Cache_Wait (Some s1) = Ret tt (Some (logCall CallDone s1)).
Proof.
  intros H. rewrite (Cache_Wait_running s H).
  set (s1 := with_setBuf _ _).
  assert (H1 : running s1 = true).
  { destruct (perform_running OpWait s H) as (s1' & HW & Hr & _).
    cbn [perform] in HW. rewrite (Cache_Wait_running s H) in HW.
    injection HW as <-. exact Hr. }
  exists s1. split; [reflexivity|]. split; [reflexivity|].
  destruct (running_inv s1 H1) as (Hc & Hp & Hb & Hs).
  split.
  - unfold processorTurn, processItems_step. rewrite Hp. reflexivity.
  - rewrite (Cache_Wait_running s1 H1). reflexivity.
Qed.

(** ** Calls of the cost function *)

Lemma costCalls_app (xs ys : list call) :
  costCalls (xs ++ ys) = costCalls xs ++ costCalls ys.
Proof.
  induction xs as [|x xs IH]; [reflexivity|].
  destruct x; cbn; rewrite IH; reflexivity.
Qed.

Lemma costCalls_onExit (cfg : Config) (v : any) :
  costCalls (onExitCalls cfg v) = [].
Proof. unfold onExitCalls. destruct (OnExit cfg), v; reflexivity. Qed.

Lemma costCalls_onEvict (cfg : Config) (i : Item) :
  costCalls (onEvictCalls cfg i) = [].
Proof.
  unfold onEvictCalls. rewrite costCalls_app, costCalls_onExit.
  destruct (OnEvict cfg); reflexivity.
Qed.

Lemma costCalls_onReject (cfg : Config) (i : Item) :
  costCalls (onRejectCalls cfg i) = [].
Proof.
  unfold onRejectCalls. rewrite costCalls_app, costCalls_onExit.
  destruct (OnReject cfg); reflexivity.
Qed.

Lemma evictVictims_costCalls (l : list Item) (c : Cache) :
  costCalls (calls (fold_left evictVictim l c)) = costCalls (calls c).
Proof.
  revert c. induction l as [|v l IH]; intros c; cbn; [reflexivity|].
  rewrite IH. unfold evictVictim.
  destruct (store_Del (Key v) 0 (store c)) as [[cf val] st].
  rewrite Cache_onEvict_calls. cbn [calls logCalls with_store].
  rewrite costCalls_app, costCalls_onEvict, app_nil_r. reflexivity.
Qed.

Lemma processItem_costCalls (i : Item) (c : Cache) :
  costCalls (calls (processItem i c))
  = costCalls (calls c)
    ++ match cost c with
       | Some _ => costed [i]
       | None => []
       end.
Proof.
  unfold processItem, costed, needsCost.
  destruct (wg i).
  - cbn. rewrite costCalls_app. destruct (cost c); reflexivity.
  - pose proof (itemCost_calls i c) as HC.
    destruct (itemCost i c) as [i' c']. cbn [snd] in HC.
    assert (HC' : costCalls (calls c')
                  = costCalls (calls c)
                    ++ match cost c with
                       | Some _ =>
                           if negb false && (Cost i =? 0)
                              && negb (bool_decide (flag i = itemDelete))
                           then [Value i] else []
                       | None => []
                       end).
    { rewrite HC, costCalls_app. f_equal.
      destruct (cost c); [|reflexivity]. cbn [negb andb].
      destruct ((Cost i =? 0) && negb (bool_decide (flag i = itemDelete)));
        reflexivity. }
    rewrite <- HC'. clear HC HC'.
    destruct (flag i').
    + destruct (policy_Add (Key i') (Cost i') (policy c') (c_Metrics c'))
        as [[[victims added] p] mt].
      rewrite evictVictims_costCalls. destruct added; [reflexivity|].
      rewrite Cache_onReject_calls. cbn [calls logCalls with_Metrics with_policy].
      rewrite costCalls_app, costCalls_onReject, app_nil_r. reflexivity.
    + destruct (store_Del (Key i') (Conflict i')
                  (store (with_policy (policy_Del (Key i') (policy c')) c')))
        as [[cf val] st].
      rewrite Cache_onExit_calls. cbn [calls logCalls with_store with_policy].
      rewrite costCalls_app, costCalls_onExit, app_nil_r. reflexivity.
    + reflexivity.
Qed.

(** X11: The cost function is called once per item that needs it: when the
    processor handles a list of items, it calls [Config.Cost] on the
    value of each item that came with cost 0 (sync items and deletes
    apart), once, in the order of the items, and on nothing else; an
    item set with a cost of its own is never evaluated.  Without a
    cost function no such call is made. *)
Theorem cost_computed_once_per_item (l : list Item) (c : Cache) :
  costCalls (calls (handle l c))
  = costCalls (calls c)
    ++ match cost c with
       | Some _ => costed l
       | None => []
       end.
Proof.
  unfold handle. revert c.
  induction l as [|i l IH]; intros c; cbn [fold_left].
  - destruct (cost c); cbn; rewrite app_nil_r; reflexivity.
  - rewrite IH, processItem_costCalls.
    destruct (processItem_frame i c) as (_&_&_&_&_&_& -> &_).
    destruct (cost c); [|rewrite !app_nil_r; reflexivity].
    rewrite <- app_assoc. f_equal. cbn [costed].
    destruct (needsCost i); reflexivity.
Qed.

End Coverage.

(** ** The further properties on the reference runtime *)

Lemma Get_hit_or_miss_witness :
  isClosed cache10a = false
  ∧ (∃ m, c_Metrics cache10a = Some m)
  ∧ ∃ s', Cache_Get "a" (Some cache10a)
          = Ret (Some "v1"%string : @any refRuntime, true) (Some s')
      ∧ Metrics_Hits (c_Metrics s')
        = wrap_uint64 (Metrics_Hits (c_Metrics cache10a) + 1)
      ∧ Metrics_Misses (c_Metrics s') = Metrics_Misses (c_Metrics cache10a).
Proof.
  split; [vm_compute; reflexivity|].
  destruct (c_Metrics cache10a) as [m|] eqn:Em; [|discriminate Em].
  split; [exists m; reflexivity|].
  destruct (Get_hit_or_miss cache10a "a" m) as (value & ok & s' & HG & HS & HH & HM & _);
    [vm_compute; reflexivity|exact Em|].
  assert (E : store_Get (keyToHash cache10a "a").1 (keyToHash cache10a "a").2
                (store cache10a) = (Some "v1"%string, true))
    by (vm_compute; reflexivity).
  rewrite E in HS. injection HS as -> ->.
  exists s'. rewrite <- Em. auto.
Defined.

Lemma calls_never_stuck_witness :
  running cache10 = true
  ∧ ∃ s', run callsThenClose (Some cache10) = Ret tt (Some s')
      ∧ running s' = false ∧ shut s' = true.
Proof.
  split; [vm_compute; reflexivity|].
  destruct (calls_never_stuck
              callsThenClose cache10)
    as (s' & HR & Hr & Hs); [vm_compute; reflexivity|].
  exists s'. auto.
Defined.

Lemma setBuf_never_overflows_witness :
  running cache10full = true
  ∧ bufBounded cache10full
  ∧ ∃ s', run setDeleteWait
              (Some cache10full) = Ret tt (Some s')
      ∧ bufBounded s'.
Proof.
  assert (H1 : running cache10full = true) by (vm_compute; reflexivity).
  assert (H2 : bufBounded cache10full) by (vm_compute; discriminate).
  split; [exact H1|]. split; [exact H2|].
  exact (setBuf_never_overflows
           setDeleteWait
           cache10full H1 H2).
Defined.

Lemma metrics_fixed_at_construction_witness :
  NewCache (refConfig 10 64 None true) = (Some cache10, None)
  ∧ ∃ s', run setClearGet
              (Some cache10) = Ret tt (Some s')
      ∧ c_Metrics s' ≠ None.
Proof.
  assert (H : NewCache (refConfig 10 64 None true) = (Some cache10, None))
    by (apply NewCache_refConfig; discriminate).
  split; [exact H|].
  destruct (metrics_fixed_at_construction
              (refConfig 10 64 None true) cache10
              setClearGet H)
    as (s' & HR & HM & _).
  exists s'. split; [exact HR|].
  intros E. apply HM in E. discriminate E.
Defined.

Lemma gets_are_hits_or_misses_witness :
  running cache10 = true
  ∧ ∃ s', run setWaitGetGet
              (Some cache10) = Ret tt (Some s')
      ∧ wrap_uint64 (Metrics_Hits (c_Metrics s') + Metrics_Misses (c_Metrics s'))
        = 2.
Proof.
  split; [vm_compute; reflexivity|].
  destruct (gets_are_hits_or_misses
              setWaitGetGet
              cache10)
    as (s' & HR & HC); [vm_compute; reflexivity|reflexivity|reflexivity|].
  exists s'. split; [exact HR|]. rewrite HC. vm_compute. reflexivity.
Defined.

Lemma closed_cache_is_inert_witness :
  running cache10ab = true
  ∧ ∃ s1 s', Cache_Close (Some cache10ab) = Ret tt (Some s1)
      ∧ run callsAfterClose (Some s1)
        = Ret tt (Some s')
      ∧ buf (setBuf s') = buf (setBuf cache10ab)
      ∧ calls s' = calls cache10ab ++ [ProcessorStopped].
Proof.
  split; [vm_compute; reflexivity|].
  destruct (closed_cache_is_inert callsAfterClose
              cache10ab)
    as (s1 & s' & HC & HR & _ & _ & HB & _ & HL); [vm_compute; reflexivity|].
  exists s1, s'. auto.
Defined.

Lemma Wait_leaves_nothing_queued_witness :
  running cache10ab = true
  ∧ ∃ s1, Cache_Wait (Some cache10ab) = Ret tt (Some s1)
      ∧ buf (setBuf s1) = []
      ∧ Cache_Wait (Some s1) = Ret tt (Some (logCall CallDone s1)).
Proof.
  split; [vm_compute; reflexivity|].
  destruct (Wait_leaves_nothing_queued cache10ab)
    as (s1 & HW & HB & _ & HW2); [vm_compute; reflexivity|].
  exists s1. auto.
Defined.

Lemma Delete_exit_once_witness :
  running cache10a = true
  ∧ buf (setBuf cache10a) = []
  ∧ ∃ s', (Cache_Delete "a" >> Cache_Wait) (Some cache10a) = Ret tt (Some s')
      ∧ calls s' = calls cache10a ++ [CallOnExit "v1"%string; CallDone].
Proof.
  assert (H1 : running cache10a = true) by (vm_compute; reflexivity).
  assert (H2 : buf (setBuf cache10a) = []) by reflexivity.
  split; [exact H1|]. split; [exact H2|].
  destruct (Delete_exit_once cache10a "a" H1 H2) as (s' & HD & HC).
  exists s'. split; [exact HD|]. rewrite HC. reflexivity.
Defined.

(** * Super queries: properties *)

Lemma strings_HasPrefix_app (p r : gostring) : strings_HasPrefix (p ++ r) p = true.
Proof.
  induction p as [|a p IH]; [reflexivity|]. cbn.
  rewrite bool_decide_eq_true_2 by reflexivity. exact IH.
Qed.

Lemma strings_HasPrefix_inv (s p : gostring) :
  strings_HasPrefix s p = true → s = p ++ drop (length p) s.
Proof.
  revert s. induction p as [|a p IH]; intros s; [reflexivity|].
  destruct s as [|b s]; cbn; [discriminate|].
  intros H. apply andb_prop in H. destruct H as [H1 H2].
  apply bool_decide_eq_true_1 in H1. subst b. f_equal. apply IH. exact H2.
Qed.

Lemma strings_HasPrefix_length (s p : gostring) :
  strings_HasPrefix s p = true → go_len p ≤ go_len s.
Proof.
  intros H. apply strings_HasPrefix_inv in H.
  apply (f_equal (@length ascii)) in H. rewrite length_app in H.
  unfold go_len. lia.
Qed.

Lemma strings_Index_range (s substr : gostring) :
  strings_Index s substr = -1
  ∨ (0 ≤ strings_Index s substr
     ∧ strings_Index s substr + go_len substr ≤ go_len s).
Proof.
  induction s as [|b s IH]; cbn [strings_Index].
  - destruct (strings_HasPrefix [] substr) eqn:E; [right|left; reflexivity].
    apply strings_HasPrefix_length in E. lia.
  - destruct (strings_HasPrefix (b :: s) substr) eqn:E.
    + right. apply strings_HasPrefix_length in E. lia.
    + destruct (Z.eqb_spec (strings_Index s substr) (-1)) as [_|Hne];
        [left; reflexivity|right].
      destruct IH as [IH|IH]; [contradiction|].
      unfold go_len in *. cbn [length]. lia.
Qed.

Lemma strings_Index_found (s substr : gostring) :
  strings_Index s substr ≠ -1 →
  strings_HasPrefix (drop (Z.to_nat (strings_Index s substr)) s) substr = true.
Proof.
  induction s as [|b s IH]; cbn [strings_Index].
  - destruct (strings_HasPrefix [] substr) eqn:E; [intros _; exact E|congruence].
  - destruct (strings_HasPrefix (b :: s) substr) eqn:E; [intros _; exact E|].
    destruct (Z.eqb_spec (strings_Index s substr) (-1)) as [_|Hne];
      [congruence|intros _].
    destruct (strings_Index_range s substr) as [?|[H0 _]]; [contradiction|].
    replace (Z.to_nat (strings_Index s substr + 1))
      with (S (Z.to_nat (strings_Index s substr))) by lia.
    cbn [drop]. apply IH. exact Hne.
Qed.

(** Where the first instance of [substr] is, [s] splits around it. *)
Lemma strings_Index_split (s substr : gostring) :
  strings_Index s substr ≠ -1 →
  let i := Z.to_nat (strings_Index s substr) in
  s = take i s ++ substr ++ drop (i + length substr) s.
Proof.
  intros H i. pose proof (strings_Index_found s substr H) as HP.
  apply strings_HasPrefix_inv in HP. fold i in HP.
  rewrite drop_drop in HP. rewrite <- HP. symmetry. apply take_drop.
Qed.

Lemma slice_from_ok (s : gostring) (lo : Z) :
  0 ≤ lo ≤ go_len s → slice_from s lo = Some (drop (Z.to_nat lo) s).
Proof.
  intros H. unfold slice_from.
  rewrite (proj2 (Z.leb_le 0 lo)), (proj2 (Z.leb_le lo (go_len s))) by lia.
  reflexivity.
Qed.

Lemma slice_to_ok (s : gostring) (hi : Z) :
  0 ≤ hi ≤ go_len s → slice_to s hi = Some (take (Z.to_nat hi) s).
Proof.
  intros H. unfold slice_to.
  rewrite (proj2 (Z.leb_le 0 hi)), (proj2 (Z.leb_le hi (go_len s))) by lia.
  reflexivity.
Qed.

Lemma go_len_drop (s : gostring) (n : Z) :
  0 ≤ n ≤ go_len s → go_len (drop (Z.to_nat n) s) = go_len s - n.
Proof. unfold go_len. intros H. rewrite length_drop. lia. Qed.

(** The slices of a replacement whose bounds come from [strings.Index]
    are in range. *)
Lemma redactBetween_ok (input start stop : gostring) :
  let i := strings_Index input start in
  let lo := i + go_len start in
  let j := strings_Index (drop (Z.to_nat lo) input) stop in
  i ≠ -1 → j ≠ -1 →
  redactBetween input lo (lo + j)
  = Some (take (Z.to_nat lo) input
          ++ strings_Repeat (String.list_ascii_of_string "*") 4
          ++ drop (Z.to_nat (lo + j)) input).
Proof.
  intros i lo j Hi Hj.
  destruct (strings_Index_range input start) as [?|[Hi0 Hi1]]; [contradiction|].
  fold i in Hi0, Hi1. fold lo in Hi1.
  assert (Hlo : 0 ≤ lo ≤ go_len input) by (unfold lo, go_len in *; lia).
  destruct (strings_Index_range (drop (Z.to_nat lo) input) stop)
    as [?|[Hj0 Hj1]]; [contradiction|].
  fold j in Hj0, Hj1. rewrite go_len_drop in Hj1 by exact Hlo.
  unfold redactBetween.
  rewrite slice_to_ok by exact Hlo.
  rewrite slice_from_ok by (unfold go_len in *; lia).
  reflexivity.
Qed.

Lemma redactPlainPassword_total (input : gostring) :
  ∃ out, redactPlainPassword input = Some out
    ∧ (strings_Index input passwordStart = -1 → out = input).
Proof.
  unfold redactPlainPassword.
  destruct (Z.eqb_spec (strings_Index input passwordStart) (-1)) as [E|Hi];
    [eauto|].
  destruct (strings_Index_range input passwordStart) as [?|[Hi0 Hi1]];
    [contradiction|].
  rewrite slice_from_ok by (unfold go_len in *; lia).
  destruct (Z.eqb_spec
              (strings_Index
                 (drop (Z.to_nat (strings_Index input passwordStart
                                  + go_len passwordStart)) input)
                 passwordEnd) (-1)) as [E|Hj].
  - exists input. split; [reflexivity|contradiction].
  - rewrite (redactBetween_ok input passwordStart passwordEnd Hi Hj).
    eexists. split; [reflexivity|contradiction].
Qed.

Lemma redactPassword_total (input : gostring) :
  ∃ out, redactPassword input = Some out.
Proof.
  unfold redactPassword.
  destruct (Z.eqb_spec (strings_Index input masterPasswordStart) (-1))
    as [E|Hi]; cbn [negb].
  - destruct (redactPlainPassword_total input) as (out & HR & _). eauto.
  - destruct (strings_Index_range input masterPasswordStart) as [?|[Hi0 Hi1]];
      [contradiction|].
    rewrite slice_from_ok by (unfold go_len in *; lia).
    destruct (Z.eqb_spec
                (strings_Index
                   (drop (Z.to_nat (strings_Index input masterPasswordStart
                                    + go_len masterPasswordStart)) input)
                   masterPasswordEnd) (-1)) as [E|Hj]; [eauto|].
    rewrite (redactBetween_ok input masterPasswordStart masterPasswordEnd
               Hi Hj).
    destruct (redactPlainPassword_total
                (take (Z.to_nat (strings_Index input masterPasswordStart
                                 + go_len masterPasswordStart)) input
                 ++ strings_Repeat (String.list_ascii_of_string "*") 4
                 ++ drop (Z.to_nat
                            (strings_Index input masterPasswordStart
                             + go_len masterPasswordStart
                             + strings_Index
                                 (drop (Z.to_nat
                                          (strings_Index input
                                             masterPasswordStart
                                           + go_len masterPasswordStart))
                                       input)
                                 masterPasswordEnd)) input))
      as (out & HR & _).
    eauto.
Qed.


Lemma drop_app_exact (a b : gostring) (n : Z) :
  n = go_len a → drop (Z.to_nat n) (a ++ b) = b.
Proof.
  intros ->. unfold go_len. rewrite Nat2Z.id. apply drop_app_length.
Qed.

Lemma take_app_exact (a b : gostring) (n : Z) :
  n = go_len a → take (Z.to_nat n) (a ++ b) = a.
Proof.
  intros ->. unfold go_len. rewrite Nat2Z.id. apply take_app_length.
Qed.

Lemma go_len_app (a b : gostring) : go_len (a ++ b) = go_len a + go_len b.
Proof. unfold go_len. rewrite length_app. lia. Qed.

(** A string without the byte [c] followed by [c]: the first [c] is
    the one that follows. *)
Lemma strings_Index_byte (c : ascii) (s t : gostring) :
  strings_Index s [c] = -1 → strings_Index (s ++ c :: t) [c] = go_len s.
Proof.
  induction s as [|b s IH].
  - intros _. cbn. rewrite bool_decide_eq_true_2 by reflexivity. reflexivity.
  - cbn [strings_Index strings_HasPrefix app].
    destruct (bool_decide (c = b)); cbn [andb]; [discriminate|].
    destruct (Z.eqb_spec (strings_Index s [c]) (-1)) as [E|Hne].
    + intros _. rewrite (IH E).
      destruct (Z.eqb_spec (go_len s) (-1)) as [E'|_];
        unfold go_len in *; cbn [length]; lia.
    + intros Hc. destruct (strings_Index_range s [c]) as [?|[H0 _]]; lia.
Qed.

(** X14: [redactPassword] on a PASSWORD clause: in a query without a
    MASTER_PASSWORD marker, whose first PASSWORD marker is followed by
    [pw] and a closing quote, [pw] holding no quote, the password is
    replaced by four stars and the rest of the query is kept. *)
Theorem redactPassword_hides_password (pre pw post : gostring) :
  let input := pre ++ passwordStart ++ pw ++ passwordEnd ++ post in
  strings_Index input masterPasswordStart = -1 →
  strings_Index input passwordStart = go_len pre →
  strings_Index pw passwordEnd = -1 →
  redactPassword input
  = Some (pre ++ passwordStart ++ String.list_ascii_of_string "****"
          ++ passwordEnd ++ post).
Proof.
  intros input Hm Hi Hq.
  unfold redactPassword. rewrite Hm, Z.eqb_refl. cbn [negb].
  unfold redactPlainPassword. rewrite Hi.
  assert (Hne : (go_len pre =? -1) = false)
    by (apply Z.eqb_neq; unfold go_len; lia).
  rewrite Hne.
  assert (Hlo : go_len pre + go_len passwordStart
                = go_len (pre ++ passwordStart)) by (rewrite go_len_app; lia).
  assert (Hin : input = (pre ++ passwordStart) ++ pw ++ passwordEnd ++ post)
    by (subst input; rewrite <- app_assoc; reflexivity).
  rewrite slice_from_ok
    by (rewrite Hin, !go_len_app; unfold go_len; lia).
  assert (Hdrop : drop (Z.to_nat (go_len pre + go_len passwordStart)) input
                  = pw ++ passwordEnd ++ post)
    by (rewrite Hin; apply drop_app_exact; exact Hlo).
  rewrite !Hdrop.
  replace (strings_Index (pw ++ passwordEnd ++ post) passwordEnd)
    with (go_len pw)
    by (symmetry; exact (strings_Index_byte "'"%char pw post Hq)).
  assert (Hne' : (go_len pw =? -1) = false)
    by (apply Z.eqb_neq; unfold go_len; lia).
  rewrite Hne'. unfold redactBetween.
  rewrite slice_to_ok
    by (rewrite Hin, !go_len_app; unfold go_len; lia).
  rewrite slice_from_ok
    by (rewrite Hin, !go_len_app; unfold go_len; lia).
  assert (Htake : take (Z.to_nat (go_len pre + go_len passwordStart)) input
                  = pre ++ passwordStart)
    by (rewrite Hin; apply take_app_exact; exact Hlo).
  assert (Hrest : drop (Z.to_nat (go_len pre + go_len passwordStart
                                  + go_len pw)) input
                  = passwordEnd ++ post).
  { replace input with (((pre ++ passwordStart) ++ pw) ++ passwordEnd ++ post)
      by (rewrite Hin, <- !app_assoc; reflexivity).
    apply drop_app_exact. rewrite !go_len_app. reflexivity. }
  rewrite Htake, Hrest, <- !app_assoc. reflexivity.
Qed.

(** X15: [redactPassword] on a MASTER_PASSWORD clause: where the first
    MASTER_PASSWORD marker is followed by [pw] and the first
    terminator (quote, comma, newline) after the marker is the one
    right after [pw], the password is replaced by four stars before
    the query is searched for a PASSWORD clause; without one, that is
    the result. *)
Theorem redactPassword_hides_master (pre pw post : gostring) :
  let input := pre ++ masterPasswordStart ++ pw ++ masterPasswordEnd ++ post in
  let redacted := pre ++ masterPasswordStart
                  ++ String.list_ascii_of_string "****"
                  ++ masterPasswordEnd ++ post in
  strings_Index input masterPasswordStart = go_len pre →
  strings_Index (pw ++ masterPasswordEnd ++ post) masterPasswordEnd
  = go_len pw →
  redactPassword input = redactPlainPassword redacted
  ∧ (strings_Index redacted passwordStart = -1 →
     redactPassword input = Some redacted).
Proof.
  intros input redacted Hi Hj.
  assert (HR : redactPassword input = redactPlainPassword redacted).
  { unfold redactPassword. rewrite Hi.
    assert (Hne : (go_len pre =? -1) = false)
      by (apply Z.eqb_neq; unfold go_len; lia).
    rewrite Hne. cbn [negb].
    assert (Hlo : go_len pre + go_len masterPasswordStart
                  = go_len (pre ++ masterPasswordStart))
      by (rewrite go_len_app; lia).
    assert (Hin : input = (pre ++ masterPasswordStart)
                          ++ pw ++ masterPasswordEnd ++ post)
      by (subst input; rewrite <- app_assoc; reflexivity).
    rewrite slice_from_ok
      by (rewrite Hin, !go_len_app; unfold go_len; lia).
    assert (Hdrop : drop (Z.to_nat (go_len pre + go_len masterPasswordStart))
                      input
                    = pw ++ masterPasswordEnd ++ post)
      by (rewrite Hin; apply drop_app_exact; exact Hlo).
    rewrite !Hdrop, Hj.
    assert (Hne' : (go_len pw =? -1) = false)
      by (apply Z.eqb_neq; unfold go_len; lia).
    rewrite Hne'. unfold redactBetween.
    rewrite slice_to_ok
      by (rewrite Hin, !go_len_app; unfold go_len; lia).
    rewrite slice_from_ok
      by (rewrite Hin, !go_len_app; unfold go_len; lia).
    assert (Htake : take (Z.to_nat (go_len pre + go_len masterPasswordStart))
                      input
                    = pre ++ masterPasswordStart)
      by (rewrite Hin; apply take_app_exact; exact Hlo).
    assert (Hrest : drop (Z.to_nat (go_len pre + go_len masterPasswordStart
                                    + go_len pw)) input
                    = masterPasswordEnd ++ post).
    { replace input
        with (((pre ++ masterPasswordStart) ++ pw)
              ++ masterPasswordEnd ++ post)
        by (rewrite Hin, <- !app_assoc; reflexivity).
      apply drop_app_exact. rewrite !go_len_app. reflexivity. }
    rewrite Htake, Hrest. subst redacted. rewrite <- !app_assoc.
    reflexivity. }
  split; [exact HR|].
  intros Hp. rewrite HR. unfold redactPlainPassword.
  rewrite Hp, Z.eqb_refl. reflexivity.
Qed.

Lemma limitString_take (s : gostring) (limit : Z) :
  limitString s limit
  = if limit <? 0 then None else Some (take (Z.to_nat limit) s).
Proof.
  unfold limitString, slice_to.
  destruct (Z.gtb_spec (go_len s) limit) as [Hgt|Hle].
  - destruct (Z.ltb_spec limit 0) as [Hneg|Hpos].
    + rewrite (proj2 (Z.leb_gt 0 limit)) by lia. reflexivity.
    + rewrite (proj2 (Z.leb_le 0 limit)), (proj2 (Z.leb_le limit (go_len s)))
        by lia.
      reflexivity.
  - rewrite (proj2 (Z.ltb_ge limit 0)) by (unfold go_len in *; lia).
    rewrite take_ge by (unfold go_len in *; lia). reflexivity.
Qed.

(** X13: [redactPassword] never panics: every slice it takes is within
    the string, whatever the input; and an input that holds neither
    marker is returned as it is. *)
Theorem redactPassword_never_panics (input : gostring) :
  ∃ out, redactPassword input = Some out
    ∧ (strings_Index input masterPasswordStart = -1 →
       strings_Index input passwordStart = -1 → out = input).
Proof.
  unfold redactPassword.
  destruct (Z.eqb_spec (strings_Index input masterPasswordStart) (-1))
    as [E|Hi]; cbn [negb].
  - destruct (redactPlainPassword_total input) as (out & HR & HI).
    exists out. auto.
  - destruct (strings_Index_range input masterPasswordStart) as [?|[Hi0 Hi1]];
      [contradiction|].
    rewrite slice_from_ok by (unfold go_len in *; lia).
    destruct (Z.eqb_spec
                (strings_Index
                   (drop (Z.to_nat (strings_Index input masterPasswordStart
                                    + go_len masterPasswordStart)) input)
                   masterPasswordEnd) (-1)) as [E|Hj].
    + exists input. split; [reflexivity|contradiction].
    + rewrite (redactBetween_ok input masterPasswordStart masterPasswordEnd
                 Hi Hj).
      destruct (redactPlainPassword_total
                  (take (Z.to_nat (strings_Index input masterPasswordStart
                                   + go_len masterPasswordStart)) input
                   ++ strings_Repeat (String.list_ascii_of_string "*") 4
                   ++ drop (Z.to_nat
                              (strings_Index input masterPasswordStart
                               + go_len masterPasswordStart
                               + strings_Index
                                   (drop (Z.to_nat
                                            (strings_Index input
                                               masterPasswordStart
                                             + go_len masterPasswordStart))
                                         input)
                                   masterPasswordEnd)) input))
        as (out & HR & _).
      exists out. split; [exact HR|contradiction].
Qed.

(** X16: [limitString] keeps the first [limit] bytes: a string of at most
    [limit] bytes whole, a longer one cut to exactly [limit]; a
    negative [limit] makes the slice panic.  The result is within the
    limit, and limiting it again changes nothing. *)
Theorem limitString_truncates (s : gostring) (limit : Z) :
  limitString s limit
  = (if limit <? 0 then None else Some (take (Z.to_nat limit) s))
  ∧ (0 ≤ limit →
     go_len (take (Z.to_nat limit) s) = Z.min (go_len s) limit
     ∧ limitString (take (Z.to_nat limit) s) limit
       = Some (take (Z.to_nat limit) s)).
Proof.
  split; [apply limitString_take|]. intros Hpos. split.
  - unfold go_len. rewrite length_take. lia.
  - rewrite limitString_take. rewrite (proj2 (Z.ltb_ge limit 0)) by lia.
    rewrite take_take. rewrite Nat.min_id. reflexivity.
Qed.

Section ConnectionFacts.
Context `{MY : Mysql}.
Variable world : World.

Lemma recycled_app (xs ys : list event) :
  recycled (xs ++ ys) = recycled xs ++ recycled ys.
Proof. apply omap_app. Qed.

Lemma fetched_app (xs ys : list event) :
  fetched (xs ++ ys) = fetched xs ++ fetched ys.
Proof. apply omap_app. Qed.

Lemma infos_app (xs ys : list event) :
  infos (xs ++ ys) = infos xs ++ infos ys.
Proof. apply omap_app. Qed.

Ltac in_events H :=
  cbn in H;
  repeat (apply elem_of_cons in H; destruct H as [H|H];
          [first [discriminate H | injection H as ->]|]);
  try (apply elem_of_nil in H; destruct H).

(** X17: [getPoolReconnect] returns a connection or an error, never both
    and never neither; the connection is the one the pool gave; it is
    recycled before an error is returned, and not otherwise; and a
    reconnect is attempted only after the test query failed with
    [CRServerGone] or [CRServerLost]. *)
Theorem getPoolReconnect_conn_or_error (w : list event) :
  ∃ conn err evs,
    getPoolReconnect world w = Some ((conn, err), w ++ evs)
    ∧ (conn = None ↔ err ≠ None)
    ∧ (∀ c, conn = Some c → pool_Get world w = inl c)
    ∧ recycled evs
      = match pool_Get world w, conn with
        | inl c, None => [c]
        | _, _ => []
        end
    ∧ (∀ c, EvReconnect c ∈ evs →
       ∃ e, conn_ExecuteFetch world (w ++ [EvGet]) c
              (String.list_ascii_of_string "SELECT 1") 1 false = inr e
            ∧ connectionLost e = true).
Proof.
  unfold getPoolReconnect, mbind, M_bind, mret, M_ret, call_Get,
    call_ExecuteFetch, call_Reconnect, emit.
  destruct (pool_Get world w) as [c|e] eqn:EG.
  - destruct (conn_ExecuteFetch world (w ++ [EvGet]) c
                (String.list_ascii_of_string "SELECT 1") 1 false)
      as [qr|e] eqn:EF.
    + eexists _, _, _. rewrite <- !app_assoc. split; [reflexivity|].
      cbn. repeat split; try congruence.
      intros c' Hin. in_events Hin.
    + destruct (connectionLost e) eqn:EL.
      * destruct (conn_Reconnect world _ c) as [e'|] eqn:ER.
        -- eexists _, _, _. rewrite <- !app_assoc. split; [reflexivity|].
           cbn. repeat split; try congruence.
           intros c' Hin. in_events Hin. eauto.
        -- eexists _, _, _. rewrite <- !app_assoc. split; [reflexivity|].
           cbn. repeat split; try congruence.
           intros c' Hin. in_events Hin. eauto.
      * eexists _, _, _. rewrite <- !app_assoc. split; [reflexivity|].
        cbn. repeat split; try congruence.
        intros c' Hin. in_events Hin.
  - eexists _, _, _. split; [reflexivity|].
    cbn. repeat split; try congruence.
    intros c' Hin. in_events Hin.
Qed.

Lemma getPoolReconnect_cases (w : list event) :
  (∃ c evs, getPoolReconnect world w = Some ((Some c, None), w ++ evs)
     ∧ pool_Get world w = inl c ∧ recycled evs = [])
  ∨ (∃ e evs, getPoolReconnect world w = Some ((None, Some e), w ++ evs)
       ∧ recycled evs
         = match pool_Get world w with inl c => [c] | inr _ => [] end
       ∧ (∀ c, pool_Get world w = inl c → last evs = Some (EvRecycle c))).
Proof.
  unfold getPoolReconnect, mbind, M_bind, mret, M_ret, call_Get,
    call_ExecuteFetch, call_Reconnect, emit.
  destruct (pool_Get world w) as [c|e] eqn:EG.
  - destruct (conn_ExecuteFetch world (w ++ [EvGet]) c
                (String.list_ascii_of_string "SELECT 1") 1 false)
      as [qr|e] eqn:EF.
    + left. eexists _, _. rewrite <- !app_assoc. repeat split.
    + destruct (connectionLost e) eqn:EL.
      * destruct (conn_Reconnect world _ c) as [e'|] eqn:ER.
        -- right. eexists _, _. rewrite <- !app_assoc.
           split; [reflexivity|]. split; [reflexivity|].
           intros c' [= <-]. reflexivity.
        -- left. eexists _, _. rewrite <- !app_assoc. repeat split.
      * right. eexists _, _. rewrite <- !app_assoc.
        split; [reflexivity|]. split; [reflexivity|].
        intros c' [= <-]. reflexivity.
  - right. eexists _, _. split; [reflexivity|]. split; [reflexivity|].
    intros c' [=].
Qed.

(** [executeSuperQueryListConn] returns, and recycles nothing. *)
Lemma executeSuperQueryListConn_run (c : Conn) (queryList : list gostring)
    (w : list event) :
  ∃ err evs,
    executeSuperQueryListConn world c queryList w = Some (err, w ++ evs)
    ∧ recycled evs = [].
Proof.
  revert w. induction queryList as [|q rest IH]; intros w.
  - exists None, []. cbn. rewrite app_nil_r. auto.
  - destruct (redactPassword_total q) as (rq & Hrq).
    cbn [executeSuperQueryListConn].
    unfold mbind, M_bind, lift, emit, call_FetchContext, mret, M_ret.
    rewrite Hrq, limitString_take. cbn [Z.ltb LogQueryLengthLimit Z.compare].
    set (line := String.list_ascii_of_string "exec "
                 ++ take (Z.to_nat LogQueryLengthLimit) rq).
    destruct (executeFetchContext world (w ++ [EvInfof line]) c q 10000 false)
      as [qr|e] eqn:EF.
    + destruct (IH ((w ++ [EvInfof line]) ++ [EvFetchContext c q 10000 false]))
        as (err & evs & HR & H1).
      exists err, ([EvInfof line; EvFetchContext c q 10000 false] ++ evs).
      split; [rewrite HR, <- !app_assoc; reflexivity|].
      rewrite recycled_app, H1. reflexivity.
    + destruct (redactPassword_total (Failure_Error e)) as (re & Hre).
      rewrite Hre. eexists _, _.
      split; [rewrite <- !app_assoc; reflexivity|reflexivity].
Qed.


(** X19: A connection taken from the pool is recycled exactly once:
    [ExecuteSuperQueryList], [ExecuteSuperQuery] and [FetchSuperQuery]
    never panic, and whatever the pool and the server answer, if the
    pool gave a connection it is recycled once, as the last thing
    done, and if it gave none nothing is recycled. *)
Theorem pooled_connection_recycled_once (queryList : list gostring)
    (query : gostring) (w : list event) :
  let given := match pool_Get world w with inl c => [c] | inr _ => [] end in
  (∃ err evs, ExecuteSuperQueryList world queryList w = Some (err, w ++ evs)
     ∧ recycled evs = given
     ∧ (∀ c, pool_Get world w = inl c → last evs = Some (EvRecycle c)))
  ∧ (∃ err evs, ExecuteSuperQuery world query w = Some (err, w ++ evs)
       ∧ recycled evs = given
       ∧ (∀ c, pool_Get world w = inl c → last evs = Some (EvRecycle c)))
  ∧ (∃ r evs, FetchSuperQuery world query w = Some (r, w ++ evs)
       ∧ recycled evs = given
       ∧ (∀ c, pool_Get world w = inl c → last evs = Some (EvRecycle c))).
Proof.
  intros given.
  assert (HL : ∀ l, ∃ err evs,
             ExecuteSuperQueryList world l w = Some (err, w ++ evs)
             ∧ recycled evs = given
             ∧ (∀ c, pool_Get world w = inl c
                     → last evs = Some (EvRecycle c))).
  { intros l. unfold ExecuteSuperQueryList, mbind, M_bind.
    destruct (getPoolReconnect_cases w)
      as [(c & evs & HG & HP & HR)|(e & evs & HG & HR & HLast)]; rewrite HG.
    - destruct (executeSuperQueryListConn_run c l (w ++ evs))
        as (err & evs' & HE & HR').
      rewrite HE. unfold emit, mret, M_ret.
      exists err, (evs ++ evs' ++ [EvRecycle c]).
      split; [rewrite <- !app_assoc; reflexivity|].
      split.
      + rewrite !recycled_app, HR, HR'. subst given. rewrite HP. reflexivity.
      + intros c' Hc'. rewrite HP in Hc'. injection Hc' as <-.
        rewrite !app_assoc. apply last_snoc.
    - exists (Some e), evs. auto. }
  split; [apply HL|]. split; [apply HL|].
  unfold FetchSuperQuery, mbind, M_bind.
  destruct (getPoolReconnect_cases w)
    as [(c & evs & HG & HP & HR)|(e & evs & HG & HR & HLast)]; rewrite HG.
  - unfold call_FetchContext, emit, mret, M_ret.
    destruct (executeFetchContext world (w ++ evs) c query 10000 true)
      as [qr|e];
      eexists _, (evs ++ [EvFetchContext c query 10000 true; EvRecycle c]);
      (split; [rewrite <- !app_assoc; reflexivity|]);
      (split; [rewrite recycled_app, HR; subst given; rewrite HP; reflexivity|]);
      intros c' Hc'; rewrite HP in Hc'; injection Hc' as <-;
      rewrite last_app; reflexivity.
  - exists (None, Some e), evs. auto.
Qed.

Lemma rowsToMap_lookup (rows : list (list gostring))
    (varMap : gmap gostring gostring) :
  Forall (λ row, (2 ≤ length row)%nat) rows →
  ∃ m, rowsToMap rows varMap = Some m
    ∧ ∀ name, m !! name
              = fold_left (λ acc row,
                             if bool_decide (row !! 0%nat = Some name)
                             then row !! 1%nat else acc)
                          rows (varMap !! name).
Proof.
  revert varMap. induction rows as [|row rest IH]; intros varMap HF.
  - exists varMap. auto.
  - apply Forall_cons in HF. destruct HF as [Hrow HF].
    destruct row as [|name [|value row]]; cbn in Hrow; try lia.
    cbn [rowsToMap lookup list_lookup fold_left].
    destruct (IH (<[name := value]> varMap) HF) as (m & Hm & Hl).
    exists m. split; [exact Hm|]. intros k. rewrite Hl. f_equal.
    destruct (decide (k = name)) as [->|Hne].
    + rewrite lookup_insert_eq, bool_decide_eq_true_2 by reflexivity.
      reflexivity.
    + rewrite lookup_insert_ne by congruence.
      rewrite bool_decide_eq_false_2 by congruence. reflexivity.
Qed.

Lemma fetchLike_map (query : gostring) (qr : Result) (w w' : list event) :
  FetchSuperQuery world query w = Some ((Some qr, None), w') →
  length (Fields qr) = 2%nat →
  Forall (λ row, (2 ≤ length row)%nat) (Rows qr) →
  ∃ m, fetchLike world query w = Some ((Some m, None), w')
    ∧ ∀ name, m !! name = lastValue name (Rows qr).
Proof.
  intros HF H2 Hrows. unfold fetchLike, mbind, M_bind. rewrite HF.
  rewrite bool_decide_eq_false_2 by (rewrite H2; auto).
  destruct (rowsToMap_lookup (Rows qr) ∅ Hrows) as (m & Hm & Hl).
  unfold lift, mret, M_ret. rewrite Hm. exists m. split; [reflexivity|].
  intros name. rewrite Hl, lookup_empty. reflexivity.
Qed.


End ConnectionFacts.

(** ** The properties of super queries on the reference world *)

Lemma redactPassword_hides_password_witness :
  redactPassword (String.list_ascii_of_string "SET PASSWORD = 'secret' FOR u")
  = Some (String.list_ascii_of_string "SET PASSWORD = '****' FOR u").
Proof.
  pose proof (redactPassword_hides_password
                (String.list_ascii_of_string "SET")
                (String.list_ascii_of_string "secret")
                (String.list_ascii_of_string " FOR u")) as T.
  cbv zeta in T.
  exact (T ltac:(vm_compute; reflexivity) ltac:(vm_compute; reflexivity)
           ltac:(vm_compute; reflexivity)).
Defined.

Lemma redactPassword_hides_master_witness :
  redactPassword
    (String.list_ascii_of_string "CHANGE MASTER TO  MASTER_PASSWORD = 'secret',"
     ++ ["010"%char] ++ String.list_ascii_of_string "  MASTER_PORT = 3306")
  = Some
      (String.list_ascii_of_string "CHANGE MASTER TO  MASTER_PASSWORD = '****',"
       ++ ["010"%char] ++ String.list_ascii_of_string "  MASTER_PORT = 3306").
Proof.
  pose proof (redactPassword_hides_master
                (String.list_ascii_of_string "CHANGE MASTER TO")
                (String.list_ascii_of_string "secret")
                (String.list_ascii_of_string "  MASTER_PORT = 3306")) as T.
  cbv zeta in T.
  destruct (T ltac:(vm_compute; reflexivity) ltac:(vm_compute; reflexivity))
    as [_ H].
  exact (H ltac:(vm_compute; reflexivity)).
Defined.

